(** * seer: the indexer's persistence layer and the EVM crawler

    A shallow embedding of the parts of [indexer/db.go] and
    [evm/generators.go] that resolve per-chain table names, build the
    columnar bulk inserts, write labels inside one database transaction,
    scan logs with an adaptive window, fetch blocks in parallel and decode
    transactions and logs into labels.

    Go values are modelled as follows: [string] is a byte string, [big.Int]
    and the unsigned integers are [Z], a [(T, error)] result is a pair whose
    second component is [option error] ([None] is Go's [nil]), a map with
    string keys is a [gmap string _], and a slice is a [list]. *)

From Stdlib Require Import ZArith List String Ascii Lia Bool Permutation DecimalString.
From stdpp Require Import gmap strings list fin_maps sorting.
Import ListNotations.

Open Scope string_scope.
Open Scope Z_scope.

(** ** Go runtime and library functions used by the sources *)

(** Go's [error] values that the modelled code creates or passes on. *)
Inductive error : Type :=
| errorString (text : string)               (* errors.New, fmt.Errorf without %w *)
| wrapError (text : string) (err : error)   (* fmt.Errorf("text: %w", err) *)
| InvalidByteError (b : ascii)              (* encoding/hex *)
| ErrLength                                 (* encoding/hex *)
| ErrTxCommitRollback.                      (* pgx *)

(** [s[n:]] and [s[:n]] on strings; the callers check the length first. *)
Fixpoint slice_from (n : nat) (s : string) : string :=
  match n, s with
  | O, _ => s
  | S n', String _ rest => slice_from n' rest
  | S _, EmptyString => EmptyString
  end.

Fixpoint slice_to (n : nat) (s : string) : string :=
  match n, s with
  | O, _ => EmptyString
  | S n', String c rest => String c (slice_to n' rest)
  | S _, EmptyString => EmptyString
  end.

(** [len(s)] as a Go [int]. *)
Definition len (s : string) : Z := Z.of_nat (String.length s).

(** [b.String()] of a [big.Int] and [%d] of an integer: decimal digits with a
    leading minus sign for negative numbers. *)
Definition Itoa (z : Z) : string := NilZero.string_of_int (Z.to_int z).

(** A [switch] on a string tag whose cases are constants. *)
Fixpoint switch {A : Type} (tag : string) (cases : list (string * A)) (default : A) : A :=
  match cases with
  | [] => default
  | (label, result) :: rest =>
      if String.eqb tag label then result else switch tag rest default
  end.

Module strings.

Definition HasPrefix (s prefix : string) : bool := String.prefix prefix s.

Definition TrimPrefix (s prefix : string) : string :=
  if HasPrefix s prefix then slice_from (String.length prefix) s else s.

Fixpoint Contains (s substr : string) : bool :=
  HasPrefix s substr ||
  match s with
  | EmptyString => false
  | String _ rest => Contains rest substr
  end.

Fixpoint Join (elems : list string) (sep : string) : string :=
  match elems with
  | [] => ""
  | [e] => e
  | e :: rest => e ++ sep ++ Join rest sep
  end.

End strings.

Module hex.

(** [reverseHexTable]: the value of a hexadecimal digit, 0xff for any other
    byte. *)
Definition reverseHexTable (c : ascii) : Z :=
  let n := Z.of_N (N_of_ascii c) in
  if (48 <=? n) && (n <=? 57) then n - 48
  else if (97 <=? n) && (n <=? 102) then n - 97 + 10
  else if (65 <=? n) && (n <=? 70) then n - 65 + 10
  else 255.

(** [hex.DecodeString]: the bytes decoded before the first fault, and the
    fault. An invalid byte is reported before an odd length. *)
Fixpoint DecodeString (s : string) : list Z * option error :=
  match s with
  | EmptyString => ([], None)
  | String p EmptyString =>
      if 15 <? reverseHexTable p then ([], Some (InvalidByteError p))
      else ([], Some ErrLength)
  | String p (String q rest) =>
      let a := reverseHexTable p in
      let b := reverseHexTable q in
      if 15 <? a then ([], Some (InvalidByteError p))
      else if 15 <? b then ([], Some (InvalidByteError q))
      else
        let '(dst, err) := DecodeString rest in
        (Z.lor (Z.shiftl a 4) b :: dst, err)
  end.

(** [fmt.Sprintf("%x", src)] of a byte slice, which is what
    [hex.EncodeToString] gives: two digits of [hextable] for each byte. *)
Definition hextable : string := "0123456789abcdef".

Definition hexDigit (v : Z) : ascii :=
  match String.get (Z.to_nat v) hextable with
  | Some c => c
  | None => "0"%char
  end.

Fixpoint EncodeToString (src : list Z) : string :=
  match src with
  | [] => EmptyString
  | v :: src =>
      String (hexDigit (Z.shiftr v 4)) (String (hexDigit (Z.land v 15)) (EncodeToString src))
  end.

End hex.

Module big.

(** The digit value [nat.scan] gives a byte for a base of at most 36; 63
    (above every base) for a byte that is no digit. *)
Definition digitVal (ch : ascii) : Z :=
  let n := Z.of_N (N_of_ascii ch) in
  if (48 <=? n) && (n <=? 57) then n - 48
  else if (97 <=? n) && (n <=? 122) then n - 97 + 10
  else if (65 <=? n) && (n <=? 90) then n - 65 + 10
  else 63.

Fixpoint scanDigits (s : string) (base acc : Z) : option Z :=
  match s with
  | EmptyString => Some acc
  | String ch rest =>
      let d := digitVal ch in
      if d <? base then scanDigits rest base (acc * base + d) else None
  end.

(** [SetString(s, base)] of [big.Int] for an explicit base between 2 and 36:
    an optional sign, then at least one digit, and nothing else. [None] is
    the [false] of Go's second result. *)
Definition SetString (s : string) (base : Z) : option Z :=
  let '(neg, digits) :=
    match s with
    | String "-"%char rest => (true, rest)
    | String "+"%char rest => (false, rest)
    | _ => (false, s)
    end in
  match digits with
  | EmptyString => None
  | _ => option_map (fun v => if neg then - v else v) (scanDigits digits base 0)
  end.

End big.

(** [fmt.Sprintf] called with a format and no operands. The two table-name
    helpers that call it this way pass the chain name as part of the format;
    all that is used of [Sprintf] is that a format without a ['%'] byte is
    returned as it is. *)
Fixpoint percent_free (s : string) : bool :=
  match s with
  | EmptyString => true
  | String c rest => negb (Ascii.eqb c "%"%char) && percent_free rest
  end.

Class Fmt := {
  Sprintf : string -> string;
  Sprintf_verbatim : forall format, percent_free format = true -> Sprintf format = format
}.

(** *** Interface values and reflection

    What the writers hand to the driver as [interface{}]: the untyped [nil],
    or a value boxed with its dynamic type. A pointer or a slice can be [nil]
    and still be boxed. *)
Inductive value : Type :=
| uint64 (n : Z)
| int (n : Z)
| str (s : string)
| bytes (b : option (list Z))     (* []byte; None is the nil slice *)
| UUID (k : nat)                  (* uuid.UUID: the k-th identifier drawn *)
| bigIntPtr (p : option Z)        (* *big.Int; None is the nil pointer *)
| uint64Ptr (p : option Z).       (* *uint64; None is the nil pointer *)

Inductive any : Type :=
| nil_interface
| boxed (v : value).

Module reflect.

Inductive Kind : Type := Uint64 | Int | String | Slice | Array | Ptr.

Definition Kind_eqb (k1 k2 : Kind) : bool :=
  match k1, k2 with
  | Uint64, Uint64 | Int, Int | String, String
  | Slice, Slice | Array, Array | Ptr, Ptr => true
  | _, _ => false
  end.

Definition KindOf (rv : value) : Kind :=
  match rv with
  | uint64 _ => Uint64
  | int _ => Int
  | str _ => String
  | bytes _ => Slice
  | UUID _ => Array
  | bigIntPtr _ | uint64Ptr _ => Ptr
  end.

(** [rv.IsNil()]; Go panics on the kinds that cannot be nil, and the one
    caller asks only after it has seen a pointer. *)
Definition IsNil (rv : value) : bool :=
  match rv with
  | bytes None | bigIntPtr None | uint64Ptr None => true
  | _ => false
  end.

End reflect.

(** ** indexer/db.go *)

Module indexer.

Section TableNames.
Context `{Fmt}.

Definition LabelsTableName (blockchain : string) : string :=
  Sprintf (blockchain ++ "_labels").

Definition CustomerDBTransactionsTableName (blockchain : string) : string :=
  Sprintf (blockchain ++ "_transactions").

End TableNames.

Definition BlocksTableName (blockchain : string) : string * option error :=
  switch blockchain
    [ ("arbitrum_one", ("arbitrum_one_blocks", None));
      ("arbitrum_sepolia", ("arbitrum_sepolia_blocks", None));
      ("b3", ("b3_blocks", None));
      ("b3_sepolia", ("b3_sepolia_blocks", None));
      ("ethereum", ("ethereum_blocks", None));
      ("game7", ("game7_blocks", None));
      ("game7_orbit_arbitrum_sepolia", ("game7_orbit_arbitrum_sepolia_blocks", None));
      ("game7_testnet", ("game7_testnet_blocks", None));
      ("imx_zkevm", ("imx_zkevm_blocks", None));
      ("imx_zkevm_sepolia", ("imx_zkevm_sepolia_blocks", None));
      ("mantle", ("mantle_blocks", None));
      ("mantle_sepolia", ("mantle_sepolia_blocks", None));
      ("polygon", ("polygon_blocks", None));
      ("ronin", ("ronin_blocks", None));
      ("ronin_saigon", ("ronin_saigon_blocks", None));
      ("sepolia", ("sepolia_blocks", None));
      ("xai", ("xai_blocks", None));
      ("xai_sepolia", ("xai_sepolia_blocks", None)) ]
    ("", Some (errorString "Unsupported blockchain")).

Definition TransactionsTableName (blockchain : string) : string * option error :=
  switch blockchain
    [ ("arbitrum_one", ("arbitrum_one_transactions", None));
      ("arbitrum_sepolia", ("arbitrum_sepolia_transactions", None));
      ("b3", ("b3_transactions", None));
      ("b3_sepolia", ("b3_sepolia_transactions", None));
      ("ethereum", ("ethereum_transactions", None));
      ("game7", ("game7_transactions", None));
      ("game7_orbit_arbitrum_sepolia", ("game7_orbit_arbitrum_sepolia_transactions", None));
      ("game7_testnet", ("game7_testnet_transactions", None));
      ("imx_zkevm", ("imx_zkevm_transactions", None));
      ("imx_zkevm_sepolia", ("imx_zkevm_sepolia_transactions", None));
      ("mantle", ("mantle_transactions", None));
      ("mantle_sepolia", ("mantle_sepolia_transactions", None));
      ("polygon", ("polygon_transactions", None));
      ("ronin", ("ronin_transactions", None));
      ("ronin_saigon", ("ronin_saigon_transactions", None));
      ("sepolia", ("sepolia_transactions", None));
      ("xai", ("xai_transactions", None));
      ("xai_sepolia", ("xai_sepolia_transactions", None)) ]
    ("", Some (errorString "Unsupported blockchain")).

Definition hexStringToBigInt (hexString : string) : option Z * option error :=
  if String.eqb hexString "" then (None, None)
  else
    let hexString := strings.TrimPrefix hexString "0x" in
    match big.SetString hexString 16 with
    | None => (None, Some (errorString ("failed to parse hex string: " ++ hexString)))
    | Some value => (Some value, None)
    end.

Record UnnestInsertValueStruct := {
  Type_ : string;
  Values : list any
}.

Definition IsBlockchainWithL1Chain (blockchain : string) : bool :=
  switch blockchain
    [ ("ethereum", false);
      ("polygon", false);
      ("arbitrum_one", true);
      ("arbitrum_sepolia", true);
      ("game7_orbit_arbitrum_sepolia", true);
      ("game7_testnet", true);
      ("game7", true);
      ("xai", true);
      ("xai_sepolia", true);
      ("mantle", false);
      ("mantle_sepolia", false);
      ("b3", false);
      ("b3_sepolia", false);
      ("ronin", false);
      ("ronin_saigon", false) ]
    false.

Definition decodeAddress (address : string) : list Z * option error :=
  if len address <? 2 then ([0], None)
  else hex.DecodeString (slice_from 2 address).

Definition determineValue (val : any) : any :=
  match val with
  | nil_interface => nil_interface
  | boxed rv =>
      if reflect.Kind_eqb (reflect.KindOf rv) reflect.Ptr && reflect.IsNil rv
      then nil_interface
      else val
  end.

Definition updateValues (valuesMap : gmap string UnnestInsertValueStruct)
    (key : string) (val : any) : gmap string UnnestInsertValueStruct :=
  match valuesMap !! key with
  | None => valuesMap
  | Some entry =>
      let value := determineValue val in
      <[key := {| Type_ := Type_ entry; Values := (Values entry ++ [value])%list |}]> valuesMap
  end.

(** Modelled from the spec: the declarations of the label, raw-transaction
    and block-index structs are not in [db.go]; the fields are those the
    writers read, with the types of the columns they fill. *)
Module TransactionLabel.
Record t := {
  Address : string;
  BlockNumber : Z;
  BlockHash : string;
  CallerAddress : string;
  LabelName : string;
  LabelType : string;
  OriginAddress : string;
  Label : string;
  TransactionHash : string;
  LabelData : string;
  BlockTimestamp : Z
}.
End TransactionLabel.

Module EventLabel.
Record t := {
  Label : string;
  LabelName : string;
  LabelType : string;
  BlockNumber : Z;
  BlockHash : string;
  Address : string;
  CallerAddress : string;
  OriginAddress : string;
  TransactionHash : string;
  LabelData : string;
  BlockTimestamp : Z;
  LogIndex : Z
}.
End EventLabel.

Module RawTransaction.
Record t := {
  Hash : string;
  BlockHash : string;
  BlockTimestamp : Z;
  BlockNumber : Z;
  FromAddress : string;
  ToAddress : string;
  Gas : string;
  GasPrice : string;
  Input : string;
  Nonce : string;
  MaxFeePerGas : string;
  MaxPriorityFeePerGas : string;
  TransactionIndex : Z;
  TransactionType : Z;
  Value : string;
  L1BlockNumber : option Z        (* *uint64 *)
}.
End RawTransaction.

Module BlockIndex.
Record t := {
  BlockNumber : Z;
  BlockHash : string;
  BlockTimestamp : Z;
  ParentHash : string;
  RowID : Z;
  Path : string;
  L1BlockNumber : option Z        (* *uint64 *)
}.
End BlockIndex.

(** Modelled from the spec: the two values of a label's [label] field. *)
Definition SeerCrawlerLabel : string := "seer".
Definition SeerCrawlerRawLabel : string := "seer-raw".

(** *** The database

    A statement is what [tx.Exec] receives: the query text and one array
    per column. An open transaction carries the statements it has run and
    whether one of them failed, which leaves a PostgreSQL transaction
    aborted; the database is the sequence of committed statements. The
    counter [drawn] numbers the identifiers [uuid.New] has handed out. *)
Record Statement := {
  sql : string;
  arguments : list (list any)
}.

Record Tx := {
  executed : list Statement;
  failed : bool;
  drawn : nat
}.

(** The behaviour of the pool and the server during one call: the errors of
    [pool.Acquire] and [conn.Begin], the error the server gives a statement,
    and the error of committing a transaction that is not aborted. *)
Class PostgreSQLpgx := {
  pool_Acquire : option error;
  conn_Begin : option error;
  tx_Exec : Statement -> option error;
  commit_fault : option error
}.

(** [uuid.New()] *)
Definition uuid_New (tx : Tx) : value * Tx :=
  (UUID (drawn tx),
   {| executed := executed tx; failed := failed tx; drawn := S (drawn tx) |}).

(** [tx.Commit]: committing an aborted transaction rolls it back and pgx
    reports [ErrTxCommitRollback]. *)
Definition Commit `{PostgreSQLpgx} (tx : Tx) (database : list Statement)
    : list Statement * option error :=
  if failed tx then (database, Some ErrTxCommitRollback)
  else
    match commit_fault with
    | Some err => (database, Some err)
    | None => ((database ++ executed tx)%list, None)
    end.

(** [tx.Rollback] *)
Definition Rollback (tx : Tx) (database : list Statement) : list Statement :=
  database.

(** How a call ends. *)
Inductive outcome : Type :=
| Returned (err : option error)
| Panicked (r : error).

Definition emptyColumn (type : string) : UnnestInsertValueStruct :=
  {| Type_ := type; Values := [] |}.

(** A run of [valuesMap[key] = entry] assignments on a fresh map. *)
Definition assignAll (entries : list (string * UnnestInsertValueStruct))
    : gmap string UnnestInsertValueStruct :=
  fold_left (fun valuesMap entry => <[entry.1 := entry.2]> valuesMap) entries ∅.

(** [values[column]]; a missing key reads as the zero struct. *)
Definition at_key (values : gmap string UnnestInsertValueStruct) (column : string)
    : UnnestInsertValueStruct :=
  default {| Type_ := ""; Values := [] |} (values !! column).

Section Writers.
Context `{Fmt} `{PostgreSQLpgx}.

Definition executeBatchInsert (tx : Tx) (tableName : string) (columns : list string)
    (values : gmap string UnnestInsertValueStruct) (conflictClause : string)
    : Tx * option error :=
  let types :=
    imap (fun index column =>
            "$" ++ Itoa (Z.of_nat index + 1) ++ "::" ++ Type_ (at_key values column) ++ "[]")
         columns in
  let query :=
    "INSERT INTO " ++ tableName ++ " (" ++ strings.Join columns "," ++
    ") SELECT * FROM unnest(" ++ strings.Join types "," ++ ") " ++ conflictClause in
  let valuesSlice := map (fun column => Values (at_key values column)) columns in
  match tx_Exec {| sql := query; arguments := valuesSlice |} with
  | Some err =>
      ({| executed := executed tx; failed := true; drawn := drawn tx |},
       Some (wrapError "error executing bulk insert for batch" err))
  | None =>
      ({| executed := (executed tx ++ [{| sql := query; arguments := valuesSlice |}])%list;
          failed := failed tx; drawn := drawn tx |},
       None)
  end.

Definition writeBlockIndexToDB (tx : Tx) (blockchain : string)
    (indexes : list BlockIndex.t) : Tx * option error :=
  let '(tableName, blocksTableErr) := BlocksTableName blockchain in
  match blocksTableErr with
  | Some err => (tx, Some err)
  | None =>
      let isBlockchainWithL1Chain := IsBlockchainWithL1Chain blockchain in
      let columns :=
        ["block_number"; "block_hash"; "block_timestamp"; "parent_hash"; "row_id";
         "path"; "transactions_indexed_at"; "logs_indexed_at"] in
      let valuesMap :=
        assignAll
          [ ("block_number", emptyColumn "BIGINT");
            ("block_hash", emptyColumn "TEXT");
            ("block_timestamp", emptyColumn "BIGINT");
            ("parent_hash", emptyColumn "TEXT");
            ("row_id", emptyColumn "BIGINT");
            ("path", emptyColumn "TEXT");
            ("transactions_indexed_at", emptyColumn "TIMESTAMP");
            ("logs_indexed_at", emptyColumn "TIMESTAMP") ] in
      let columns :=
        if isBlockchainWithL1Chain then (columns ++ ["l1_block_number"])%list else columns in
      let valuesMap :=
        if isBlockchainWithL1Chain
        then <["l1_block_number" := emptyColumn "BIGINT"]> valuesMap
        else valuesMap in
      let valuesMap :=
        fold_left
          (fun valuesMap index =>
             let valuesMap := updateValues valuesMap "block_number" (boxed (uint64 (BlockIndex.BlockNumber index))) in
             let valuesMap := updateValues valuesMap "block_hash" (boxed (str (BlockIndex.BlockHash index))) in
             let valuesMap := updateValues valuesMap "block_timestamp" (boxed (uint64 (BlockIndex.BlockTimestamp index))) in
             let valuesMap := updateValues valuesMap "parent_hash" (boxed (str (BlockIndex.ParentHash index))) in
             let valuesMap := updateValues valuesMap "row_id" (boxed (uint64 (BlockIndex.RowID index))) in
             let valuesMap := updateValues valuesMap "path" (boxed (str (BlockIndex.Path index))) in
             let valuesMap := updateValues valuesMap "transactions_indexed_at" (boxed (str "now()")) in
             let valuesMap := updateValues valuesMap "logs_indexed_at" (boxed (str "now()")) in
             if isBlockchainWithL1Chain
             then updateValues valuesMap "l1_block_number" (boxed (uint64Ptr (BlockIndex.L1BlockNumber index)))
             else valuesMap)
          indexes valuesMap in
      executeBatchInsert tx tableName columns valuesMap "ON CONFLICT (block_number) DO NOTHING"
  end.

(** [WriteIndexes]. The deferred function reads the function's [err],
    which the body assigns with [=]: a failed write is rolled back. The
    result was fixed by the [return] before the deferred function ran. *)
Definition WriteIndexes (database : list Statement) (blockchain : string)
    (blocksIndexPack : list BlockIndex.t) : outcome * list Statement :=
  match pool_Acquire with
  | Some err => (Returned (Some err), database)
  | None =>
  match conn_Begin with
  | Some err => (Returned (Some (wrapError "failed to begin transaction" err)), database)
  | None =>
      let tx := {| executed := []; failed := false; drawn := 0 |} in
      let '(tx, err, result) :=
        if 0 <? Z.of_nat (length blocksIndexPack) then
          match writeBlockIndexToDB tx blockchain blocksIndexPack with
          | (tx, Some err) => (tx, Some err, Some err)
          | (tx, None) => (tx, None, None)
          end
        else (tx, None, None) in
      match err with
      | Some _ => (Returned result, Rollback tx database)
      | None => (Returned result, (Commit tx database).1)
      end
  end
  end.

(** One round of the loop of [WriteTransactions]; a label with an address
    that does not decode is skipped. *)
Definition appendTransaction (state : gmap string UnnestInsertValueStruct * Tx)
    (transaction : TransactionLabel.t) : gmap string UnnestInsertValueStruct * Tx :=
  let '(valuesMap, tx) := state in
  let '(id, tx) := uuid_New tx in
  match decodeAddress (TransactionLabel.Address transaction) with
  | (_, Some _) => (valuesMap, tx)
  | (addressBytes, None) =>
  match decodeAddress (TransactionLabel.CallerAddress transaction) with
  | (_, Some _) => (valuesMap, tx)
  | (callerAddressBytes, None) =>
  match decodeAddress (TransactionLabel.OriginAddress transaction) with
  | (_, Some _) => (valuesMap, tx)
  | (originAddressBytes, None) =>
      let valuesMap := updateValues valuesMap "id" (boxed id) in
      let valuesMap := updateValues valuesMap "address" (boxed (bytes (Some addressBytes))) in
      let valuesMap := updateValues valuesMap "block_number" (boxed (uint64 (TransactionLabel.BlockNumber transaction))) in
      let valuesMap := updateValues valuesMap "block_hash" (boxed (str (TransactionLabel.BlockHash transaction))) in
      let valuesMap := updateValues valuesMap "caller_address" (boxed (bytes (Some callerAddressBytes))) in
      let valuesMap := updateValues valuesMap "label_name" (boxed (str (TransactionLabel.LabelName transaction))) in
      let valuesMap := updateValues valuesMap "label_type" (boxed (str (TransactionLabel.LabelType transaction))) in
      let valuesMap := updateValues valuesMap "origin_address" (boxed (bytes (Some originAddressBytes))) in
      let valuesMap := updateValues valuesMap "label" (boxed (str (TransactionLabel.Label transaction))) in
      let valuesMap := updateValues valuesMap "transaction_hash" (boxed (str (TransactionLabel.TransactionHash transaction))) in
      let valuesMap := updateValues valuesMap "label_data" (boxed (str (TransactionLabel.LabelData transaction))) in
      let valuesMap := updateValues valuesMap "block_timestamp" (boxed (uint64 (TransactionLabel.BlockTimestamp transaction))) in
      (valuesMap, tx)
  end
  end
  end.

Definition WriteTransactions (tx : Tx) (blockchain : string)
    (transactions : list TransactionLabel.t) : Tx * option error :=
  let tableName := LabelsTableName blockchain in
  let columns :=
    ["id"; "address"; "block_number"; "block_hash"; "caller_address"; "label_name";
     "label_type"; "origin_address"; "label"; "transaction_hash"; "label_data";
     "block_timestamp"] in
  let valuesMap :=
    assignAll
      [ ("id", emptyColumn "UUID");
        ("address", emptyColumn "BYTEA");
        ("block_number", emptyColumn "BIGINT");
        ("block_hash", emptyColumn "TEXT");
        ("caller_address", emptyColumn "BYTEA");
        ("label_name", emptyColumn "TEXT");
        ("label_type", emptyColumn "TEXT");
        ("origin_address", emptyColumn "BYTEA");
        ("label", emptyColumn "TEXT");
        ("transaction_hash", emptyColumn "TEXT");
        ("label_data", emptyColumn "jsonb");
        ("block_timestamp", emptyColumn "BIGINT") ] in
  let '(valuesMap, tx) := fold_left appendTransaction transactions (valuesMap, tx) in
  executeBatchInsert tx tableName columns valuesMap "ON CONFLICT DO NOTHING".

(** One round of the loop of [WriteEvents]. *)
Definition appendEvent (state : gmap string UnnestInsertValueStruct * Tx)
    (event : EventLabel.t) : gmap string UnnestInsertValueStruct * Tx :=
  let '(valuesMap, tx) := state in
  let '(id, tx) := uuid_New tx in
  match decodeAddress (EventLabel.CallerAddress event) with
  | (_, Some _) => (valuesMap, tx)
  | (callerAddressBytes, None) =>
  match decodeAddress (EventLabel.OriginAddress event) with
  | (_, Some _) => (valuesMap, tx)
  | (originAddressBytes, None) =>
  match decodeAddress (EventLabel.Address event) with
  | (_, Some _) => (valuesMap, tx)
  | (addressBytes, None) =>
      let valuesMap := updateValues valuesMap "id" (boxed id) in
      let valuesMap := updateValues valuesMap "label" (boxed (str (EventLabel.Label event))) in
      let valuesMap := updateValues valuesMap "transaction_hash" (boxed (str (EventLabel.TransactionHash event))) in
      let valuesMap := updateValues valuesMap "log_index" (boxed (uint64 (EventLabel.LogIndex event))) in
      let valuesMap := updateValues valuesMap "block_number" (boxed (uint64 (EventLabel.BlockNumber event))) in
      let valuesMap := updateValues valuesMap "block_hash" (boxed (str (EventLabel.BlockHash event))) in
      let valuesMap := updateValues valuesMap "block_timestamp" (boxed (uint64 (EventLabel.BlockTimestamp event))) in
      let valuesMap := updateValues valuesMap "caller_address" (boxed (bytes (Some callerAddressBytes))) in
      let valuesMap := updateValues valuesMap "origin_address" (boxed (bytes (Some originAddressBytes))) in
      let valuesMap := updateValues valuesMap "address" (boxed (bytes (Some addressBytes))) in
      let valuesMap := updateValues valuesMap "label_name" (boxed (str (EventLabel.LabelName event))) in
      let valuesMap := updateValues valuesMap "label_type" (boxed (str (EventLabel.LabelType event))) in
      let valuesMap := updateValues valuesMap "label_data" (boxed (str (EventLabel.LabelData event))) in
      (valuesMap, tx)
  end
  end
  end.

Definition WriteEvents (tx : Tx) (blockchain : string)
    (events : list EventLabel.t) : Tx * option error :=
  let tableName := LabelsTableName blockchain in
  let columns :=
    ["id"; "label"; "transaction_hash"; "log_index"; "block_number"; "block_hash";
     "block_timestamp"; "caller_address"; "origin_address"; "address"; "label_name";
     "label_type"; "label_data"] in
  let valuesMap :=
    assignAll
      [ ("id", emptyColumn "UUID");
        ("label", emptyColumn "TEXT");
        ("transaction_hash", emptyColumn "TEXT");
        ("log_index", emptyColumn "BIGINT");
        ("block_number", emptyColumn "BIGINT");
        ("block_hash", emptyColumn "TEXT");
        ("block_timestamp", emptyColumn "BIGINT");
        ("caller_address", emptyColumn "BYTEA");
        ("origin_address", emptyColumn "BYTEA");
        ("address", emptyColumn "BYTEA");
        ("label_name", emptyColumn "TEXT");
        ("label_type", emptyColumn "TEXT");
        ("label_data", emptyColumn "jsonb") ] in
  let '(valuesMap, tx) := fold_left appendEvent events (valuesMap, tx) in
  executeBatchInsert tx tableName columns valuesMap "ON CONFLICT DO NOTHING".

(** One round of the loop of [WriteRawTransactions]; an error ends the
    whole write. *)
Definition appendRawTransaction (isBlockchainWithL1Chain : bool)
    (valuesMap : gmap string UnnestInsertValueStruct)
    (rawTransaction : RawTransaction.t)
    : gmap string UnnestInsertValueStruct * option error :=
  match decodeAddress (RawTransaction.FromAddress rawTransaction) with
  | (_, Some err) => (valuesMap, Some err)
  | (fromAddress, None) =>
  match decodeAddress (RawTransaction.ToAddress rawTransaction) with
  | (_, Some err) => (valuesMap, Some err)
  | (toAddress, None) =>
  match hexStringToBigInt (RawTransaction.Gas rawTransaction) with
  | (_, Some err) => (valuesMap, Some err)
  | (gas, None) =>
  match hexStringToBigInt (RawTransaction.GasPrice rawTransaction) with
  | (_, Some err) => (valuesMap, Some err)
  | (gasPrice, None) =>
  match hexStringToBigInt (RawTransaction.MaxFeePerGas rawTransaction) with
  | (_, Some err) => (valuesMap, Some err)
  | (maxFeePerGas, None) =>
  match hexStringToBigInt (RawTransaction.MaxPriorityFeePerGas rawTransaction) with
  | (_, Some err) => (valuesMap, Some err)
  | (maxPriorityFeePerGas, None) =>
  match hexStringToBigInt (RawTransaction.Value rawTransaction) with
  | (_, Some err) => (valuesMap, Some err)
  | (value, None) =>
      let valuesMap := updateValues valuesMap "hash" (boxed (str (RawTransaction.Hash rawTransaction))) in
      let valuesMap := updateValues valuesMap "block_hash" (boxed (str (RawTransaction.BlockHash rawTransaction))) in
      let valuesMap := updateValues valuesMap "block_timestamp" (boxed (uint64 (RawTransaction.BlockTimestamp rawTransaction))) in
      let valuesMap := updateValues valuesMap "block_number" (boxed (uint64 (RawTransaction.BlockNumber rawTransaction))) in
      let valuesMap := updateValues valuesMap "from_address" (boxed (bytes (Some fromAddress))) in
      let valuesMap := updateValues valuesMap "to_address" (boxed (bytes (Some toAddress))) in
      let valuesMap := updateValues valuesMap "gas" (boxed (bigIntPtr gas)) in
      let valuesMap := updateValues valuesMap "gas_price" (boxed (bigIntPtr gasPrice)) in
      let valuesMap := updateValues valuesMap "input" (boxed (str (RawTransaction.Input rawTransaction))) in
      let valuesMap := updateValues valuesMap "nonce" (boxed (str (RawTransaction.Nonce rawTransaction))) in
      let valuesMap := updateValues valuesMap "max_fee_per_gas" (boxed (bigIntPtr maxFeePerGas)) in
      let valuesMap := updateValues valuesMap "max_priority_fee_per_gas" (boxed (bigIntPtr maxPriorityFeePerGas)) in
      let valuesMap := updateValues valuesMap "transaction_index" (boxed (uint64 (RawTransaction.TransactionIndex rawTransaction))) in
      let valuesMap := updateValues valuesMap "transaction_type" (boxed (uint64 (RawTransaction.TransactionType rawTransaction))) in
      let valuesMap := updateValues valuesMap "value" (boxed (bigIntPtr value)) in
      let valuesMap :=
        if isBlockchainWithL1Chain then
          let l1Bn :=
            match RawTransaction.L1BlockNumber rawTransaction with
            | Some n => boxed (uint64 n)
            | None => nil_interface
            end in
          updateValues valuesMap "l1_block_number" l1Bn
        else valuesMap in
      (valuesMap, None)
  end
  end
  end
  end
  end
  end
  end.

Fixpoint appendRawTransactions (isBlockchainWithL1Chain : bool)
    (valuesMap : gmap string UnnestInsertValueStruct)
    (rawTransactions : list RawTransaction.t)
    : gmap string UnnestInsertValueStruct * option error :=
  match rawTransactions with
  | [] => (valuesMap, None)
  | rawTransaction :: rest =>
      match appendRawTransaction isBlockchainWithL1Chain valuesMap rawTransaction with
      | (valuesMap, Some err) => (valuesMap, Some err)
      | (valuesMap, None) => appendRawTransactions isBlockchainWithL1Chain valuesMap rest
      end
  end.

Definition WriteRawTransactions (tx : Tx) (blockchain : string)
    (rawTransactions : list RawTransaction.t) : Tx * option error :=
  let tableName := CustomerDBTransactionsTableName blockchain in
  let isBlockchainWithL1Chain := IsBlockchainWithL1Chain blockchain in
  let columns :=
    ["hash"; "block_hash"; "block_timestamp"; "block_number"; "from_address";
     "to_address"; "gas"; "gas_price"; "input"; "nonce"; "max_fee_per_gas";
     "max_priority_fee_per_gas"; "transaction_index"; "transaction_type"; "value"] in
  let columns :=
    if isBlockchainWithL1Chain then (columns ++ ["l1_block_number"])%list else columns in
  let valuesMap :=
    assignAll
      [ ("hash", emptyColumn "TEXT");
        ("block_hash", emptyColumn "TEXT");
        ("block_timestamp", emptyColumn "BIGINT");
        ("block_number", emptyColumn "BIGINT");
        ("from_address", emptyColumn "BYTEA");
        ("to_address", emptyColumn "BYTEA");
        ("gas", emptyColumn "NUMERIC");
        ("gas_price", emptyColumn "NUMERIC");
        ("input", emptyColumn "TEXT");
        ("nonce", emptyColumn "TEXT");
        ("max_fee_per_gas", emptyColumn "NUMERIC");
        ("max_priority_fee_per_gas", emptyColumn "NUMERIC");
        ("transaction_index", emptyColumn "BIGINT");
        ("transaction_type", emptyColumn "INTEGER");
        ("value", emptyColumn "NUMERIC");
        ("indexed_at", emptyColumn "TIMESTAMP WITH TIME ZONE") ] in
  let valuesMap :=
    if isBlockchainWithL1Chain
    then <["l1_block_number" := emptyColumn "BIGINT"]> valuesMap
    else valuesMap in
  match appendRawTransactions isBlockchainWithL1Chain valuesMap rawTransactions with
  | (_, Some err) => (tx, Some err)
  | (valuesMap, None) =>
      executeBatchInsert tx tableName columns valuesMap "ON CONFLICT DO NOTHING"
  end.

(** The body of [WriteDataToCustomerDB] after [conn.Begin]: the
    transaction as the body leaves it and the operand of the [return]
    that ends it. Each write declares its own [err] with [:=] inside its
    [if] block, so the function's [err] is not assigned here. *)
Definition writeDataBody (tx : Tx) (blockchain : string)
    (txCalls : list TransactionLabel.t) (events : list EventLabel.t)
    (rawTransactions : list RawTransaction.t) : Tx * option error :=
  let err : option error := None in
  match (if 0 <? Z.of_nat (length txCalls)
         then WriteTransactions tx blockchain txCalls else (tx, None)) with
  | (tx, Some err) => (tx, Some err)
  | (tx, None) =>
  match (if 0 <? Z.of_nat (length events)
         then WriteEvents tx blockchain events else (tx, None)) with
  | (tx, Some err) => (tx, Some err)
  | (tx, None) =>
  match (if 0 <? Z.of_nat (length rawTransactions)
         then WriteRawTransactions tx blockchain rawTransactions else (tx, None)) with
  | (tx, Some err) => (tx, Some err)
  | (tx, None) => (tx, err)
  end
  end
  end.

(** [WriteDataToCustomerDB]. The deferred function reads the function's
    [err], which holds the [nil] left by [conn.Begin] whatever the body
    returned: it commits, and panics when the commit fails. *)
Definition WriteDataToCustomerDB (database : list Statement) (blockchain : string)
    (txCalls : list TransactionLabel.t) (events : list EventLabel.t)
    (rawTransactions : list RawTransaction.t) : outcome * list Statement :=
  match pool_Acquire with
  | Some err => (Returned (Some err), database)
  | None =>
  match conn_Begin with
  | Some err => (Returned (Some err), database)
  | None =>
      let err : option error := None in
      let tx := {| executed := []; failed := false; drawn := 0 |} in
      let '(tx, result) := writeDataBody tx blockchain txCalls events rawTransactions in
      match err with
      | Some _ => (Returned result, Rollback tx database)
      | None =>
          match Commit tx database with
          | (database, Some err) => (Panicked err, database)
          | (database, None) => (Returned result, database)
          end
      end
  end
  end.

End Writers.

(** *** ABI jobs *)

(** Modelled from the spec: the declaration of [AbiJob] is not in [db.go];
    the fields are those the functions below read. *)
Module AbiJob.
Record t := {
  ID : string;
  Address : list Z;                   (* []byte *)
  UserID : string;
  CustomerID : string;
  AbiSelector : string;
  Chain : string;
  AbiName : string;
  Abi : string;
  AbiType : string;
  DeploymentBlockNumber : option Z    (* *uint64 *)
}.
End AbiJob.

Definition FilterABIJobs (abiJobs : list AbiJob.t) (ids : list string) : list AbiJob.t :=
  fold_left
    (fun filteredABIJobs abiJob =>
       fold_left
         (fun filteredABIJobs id =>
            if String.eqb (AbiJob.ID abiJob) id
            then (filteredABIJobs ++ [abiJob])%list
            else filteredABIJobs)
         ids filteredABIJobs)
    abiJobs [].

(** [GetJobIds]; the lines it prints when it is not silent, one for each
    chain with the number of its jobs, are not part of the result. *)
Definition GetJobIds (abiJobs : list AbiJob.t) (isSilent : bool) : list string :=
  let '(jobIds, abiJobChains) :=
    fold_left
      (fun '(jobIds, abiJobChains) abiJob =>
         let jobIds := (jobIds ++ [AbiJob.ID abiJob])%list in
         let abiJobChains : gmap string Z :=
           match abiJobChains !! AbiJob.Chain abiJob with
           | None => <[AbiJob.Chain abiJob := 0]> abiJobChains
           | Some _ => abiJobChains
           end in
         let abiJobChains :=
           <[AbiJob.Chain abiJob := default 0 (abiJobChains !! AbiJob.Chain abiJob) + 1]>
             abiJobChains in
         (jobIds, abiJobChains))
      abiJobs ([], ∅) in
  jobIds.

(** *** [CopyAbiJobs] *)

(** The arguments [CopyAbiJobs] gives the prepared statement [insertAbiJob],
    in their order; the table [abi_jobs] is the list of the rows inserted. *)
Module AbiJobRow.
Record t := {
  id : value;
  address : list Z;
  user_id : string;
  customer_id : string;
  abi_selector : string;
  chain : string;
  abi_name : string;
  status : string;
  historical_crawl_status : string;
  progress : Z;
  moonworm_task_pickedup : bool;
  abi : string                        (* []byte(abi) *)
}.
End AbiJobRow.

Section CopyJobs.
Context `{PostgreSQLpgx}.

(** The errors of [tx.Prepare] and of the execution of the prepared
    statement with the arguments of a row. *)
Variable tx_Prepare : option error.
Variable exec_insertAbiJob : AbiJobRow.t -> option error.

(** [s[i]] where the index is in range. *)
Definition byte_at (s : string) (i : Z) : option ascii := String.get (Z.to_nat i) s.

(** The loop over the jobs: the rows executed so far, and the error that
    ends the call. An identifier is drawn for every job. *)
Fixpoint copyLoop (destCustomerId : string) (abiJobs : list AbiJob.t)
    (rows : list AbiJobRow.t) (drawn : nat) : list AbiJobRow.t * option error :=
  match abiJobs with
  | [] => (rows, None)
  | abiJob :: abiJobs =>
      let jobID := UUID drawn in
      let drawn := S drawn in
      if (len (AbiJob.Abi abiJob) <=? 2)
         || negb (bool_decide (byte_at (AbiJob.Abi abiJob) 0 = Some "["%char))
         || negb (bool_decide
                    (byte_at (AbiJob.Abi abiJob) (len (AbiJob.Abi abiJob) - 1) =
                     Some "]"%char))
      then copyLoop destCustomerId abiJobs rows drawn
      else
        let abi :=
          slice_to (Z.to_nat (len (AbiJob.Abi abiJob) - 1) - 1)
            (slice_from 1 (AbiJob.Abi abiJob)) in
        let row :=
          {| AbiJobRow.id := jobID;
             AbiJobRow.address := AbiJob.Address abiJob;
             AbiJobRow.user_id := AbiJob.UserID abiJob;
             AbiJobRow.customer_id := destCustomerId;
             AbiJobRow.abi_selector := AbiJob.AbiSelector abiJob;
             AbiJobRow.chain := AbiJob.Chain abiJob;
             AbiJobRow.abi_name := AbiJob.AbiName abiJob;
             AbiJobRow.status := "true";
             AbiJobRow.historical_crawl_status := "pending";
             AbiJobRow.progress := 0;
             AbiJobRow.moonworm_task_pickedup := false;
             AbiJobRow.abi := abi |} in
        match exec_insertAbiJob row with
        | Some execErr => (rows, Some execErr)
        | None => copyLoop destCustomerId abiJobs (rows ++ [row])%list drawn
        end
  end.

(** [CopyAbiJobs]. The deferred [tx.Rollback] undoes the rows of a call that
    does not reach the commit. After a failed [tx.Prepare] the function
    returns [err], the variable that holds the [nil] of [conn.Begin]. *)
Definition CopyAbiJobs (database : list AbiJobRow.t)
    (sourceCustomerId destCustomerId : string) (abiJobs : list AbiJob.t)
    : option error * list AbiJobRow.t :=
  match pool_Acquire with
  | Some err => (Some err, database)
  | None =>
  match conn_Begin with
  | Some err => (Some err, database)
  | None =>
      let err : option error := None in
      match tx_Prepare with
      | Some prepErr => (err, database)
      | None =>
          match copyLoop destCustomerId abiJobs [] 0 with
          | (_, Some execErr) => (Some execErr, database)
          | (rows, None) =>
              match commit_fault with
              | Some commitErr => (Some commitErr, database)
              | None => (None, (database ++ rows)%list)
              end
          end
      end
  end
  end.

End CopyJobs.

(** *** [CreateJobsFromAbi] *)

(** An object of the ABI file with what the libraries give for it: [type]
    and [name] when they are strings, the text and the error of
    [json.Marshal], the error of [abi.JSON] on the text between brackets, and
    the identifiers the parsed ABI has for an event and a method of a given
    name. *)
Module AbiItem.
Record t := {
  type_ : option string;
  name : option string;
  marshalled : string;
  marshalErr : option error;
  parseErr : option error;
  Events_ID : string -> string;       (* abiObj.Events[name].ID.String() *)
  Methods_ID : string -> list Z       (* abiObj.Methods[name].ID *)
}.
End AbiItem.

(** The arguments of the insert of [CreateJobsFromAbi]: those of a copied
    row and the deployment block. *)
Module CreatedJob.
Record t := {
  row : AbiJobRow.t;
  deployment_block_number : Z
}.
End CreatedJob.

Section CreateJobs.
Context `{PostgreSQLpgx}.

(** The objects of the ABI file, or the error of reading or parsing it, and
    the error the server gives an insert. The inserts run on the connection,
    outside a transaction: the table is the list of the rows inserted. *)
Variable readAbi : string -> list AbiItem.t * option error.
Variable conn_Exec : CreatedJob.t -> option error.

(** The loop over the objects: how it ends and the table it leaves. The
    type assertion on a name that is no string panics; the text of the
    panic, which goes on to name the dynamic type, is cut short. *)
Fixpoint createLoop (chain address customerID userID : string) (deployBlock : Z)
    (abiJson : list AbiItem.t) (database : list CreatedJob.t) (drawn : nat)
    : outcome * list CreatedJob.t :=
  match abiJson with
  | [] => (Returned None, database)
  | abiJob :: abiJson =>
      let jobID := UUID drawn in
      let drawn := S drawn in
      match AbiItem.marshalErr abiJob with
      | Some err => (Returned (Some err), database)
      | None =>
      let abiJobJson := AbiItem.marshalled abiJob in
      let abiJsonArray := "[" ++ abiJobJson ++ "]" in
      match AbiItem.parseErr abiJob with
      | Some err => (Returned (Some err), database)
      | None =>
      let selected : option string + error :=
        if bool_decide (AbiItem.type_ abiJob = Some "event") then
          match AbiItem.name abiJob with
          | Some name => inl (Some (AbiItem.Events_ID abiJob name))
          | None => inr (errorString "interface conversion: interface {} is not string")
          end
        else if bool_decide (AbiItem.type_ abiJob = Some "function") then
          match AbiItem.name abiJob with
          | Some name =>
              let selectorRaw := AbiItem.Methods_ID abiJob name in
              inl (Some ("0x" ++ hex.EncodeToString selectorRaw))
          | None => inr (errorString "interface conversion: interface {} is not string")
          end
        else inl None in
      match selected with
      | inr r => (Panicked r, database)
      | inl None =>
          createLoop chain address customerID userID deployBlock abiJson database drawn
      | inl (Some selector) =>
          match decodeAddress address with
          | (_, Some err) =>
              createLoop chain address customerID userID deployBlock abiJson database drawn
          | (addressBytes, None) =>
              let job :=
                {| CreatedJob.row :=
                     {| AbiJobRow.id := jobID;
                        AbiJobRow.address := addressBytes;
                        AbiJobRow.user_id := userID;
                        AbiJobRow.customer_id := customerID;
                        AbiJobRow.abi_selector := selector;
                        AbiJobRow.chain := chain;
                        AbiJobRow.abi_name := default "" (AbiItem.name abiJob);
                        AbiJobRow.status := "true";
                        AbiJobRow.historical_crawl_status := "pending";
                        AbiJobRow.progress := 0;
                        AbiJobRow.moonworm_task_pickedup := false;
                        AbiJobRow.abi := abiJobJson |};
                   CreatedJob.deployment_block_number := deployBlock |} in
              match conn_Exec job with
              | Some err => (Returned (Some err), database)
              | None =>
                  createLoop chain address customerID userID deployBlock abiJson
                    (database ++ [job])%list drawn
              end
          end
      end
      end
      end
  end.

Definition CreateJobsFromAbi (database : list CreatedJob.t)
    (chain address abiFile customerID userID : string) (deployBlock : Z)
    : outcome * list CreatedJob.t :=
  match pool_Acquire with
  | Some err => (Returned (Some err), database)
  | None =>
      match readAbi abiFile with
      | (_, Some err) => (Returned (Some err), database)
      | (abiJson, None) =>
          createLoop chain address customerID userID deployBlock abiJson database 0
      end
  end.

End CreateJobs.

(** *** [ConvertToCustomerUpdatedAndDeployBlockDicts] *)

(** Modelled from the spec: the declarations of [AbiEntry], [CustomerUpdates]
    and [AbiJobsDeployInfo] are not in [db.go]; the fields are those the
    function sets. *)
Module AbiEntry.
Record t := {
  AbiJSON : string;
  AbiName : string;
  AbiType : string
}.
End AbiEntry.

Module CustomerUpdates.
Record t := {
  CustomerID : string;
  Abis : gmap string (gmap string AbiEntry.t)
}.
End CustomerUpdates.

Module AbiJobsDeployInfo.
Record t := {
  DeployedBlockNumber : Z;
  IDs : list string
}.
End AbiJobsDeployInfo.

(** One round of the loop over the jobs. *)
Definition convertRound
    (state : gmap string CustomerUpdates.t * gmap string AbiJobsDeployInfo.t)
    (abiJob : AbiJob.t) : gmap string CustomerUpdates.t * gmap string AbiJobsDeployInfo.t :=
  let '(customerUpdatesDict, addressDeployBlockDict) := state in
  let address := "0x" ++ hex.EncodeToString (AbiJob.Address abiJob) in
  let customerUpdatesDict :=
    match customerUpdatesDict !! AbiJob.CustomerID abiJob with
    | None =>
        <[AbiJob.CustomerID abiJob :=
            {| CustomerUpdates.CustomerID := AbiJob.CustomerID abiJob;
               CustomerUpdates.Abis := ∅ |}]> customerUpdatesDict
    | Some _ => customerUpdatesDict
    end in
  let customerUpdate :=
    default {| CustomerUpdates.CustomerID := ""; CustomerUpdates.Abis := ∅ |}
      (customerUpdatesDict !! AbiJob.CustomerID abiJob) in
  let Abis :=
    match CustomerUpdates.Abis customerUpdate !! address with
    | None => <[address := ∅]> (CustomerUpdates.Abis customerUpdate)
    | Some _ => CustomerUpdates.Abis customerUpdate
    end in
  let Abis :=
    <[address :=
        <[AbiJob.AbiSelector abiJob :=
            {| AbiEntry.AbiJSON := AbiJob.Abi abiJob;
               AbiEntry.AbiName := AbiJob.AbiName abiJob;
               AbiEntry.AbiType := AbiJob.AbiType abiJob |}]>
          (default ∅ (Abis !! address))]> Abis in
  let customerUpdatesDict :=
    <[AbiJob.CustomerID abiJob :=
        {| CustomerUpdates.CustomerID := CustomerUpdates.CustomerID customerUpdate;
           CustomerUpdates.Abis := Abis |}]> customerUpdatesDict in
  let DeploymentBlockNumber :=
    match AbiJob.DeploymentBlockNumber abiJob with
    | None => 1
    | Some value => value
    end in
  let deployInfo :=
    match addressDeployBlockDict !! address with
    | Some deployInfo => deployInfo
    | None =>
        {| AbiJobsDeployInfo.DeployedBlockNumber := DeploymentBlockNumber;
           AbiJobsDeployInfo.IDs := [] |}
    end in
  let deployInfo :=
    {| AbiJobsDeployInfo.DeployedBlockNumber := AbiJobsDeployInfo.DeployedBlockNumber deployInfo;
       AbiJobsDeployInfo.IDs := (AbiJobsDeployInfo.IDs deployInfo ++ [AbiJob.ID abiJob])%list |} in
  (customerUpdatesDict, <[address := deployInfo]> addressDeployBlockDict).

(** The first result of the function is a slice with the values of
    [customerUpdatesDict] in the order of a map iteration, which Go leaves
    open; the model returns the map. *)
Definition ConvertToCustomerUpdatedAndDeployBlockDicts (abiJobs : list AbiJob.t)
    : gmap string CustomerUpdates.t * gmap string AbiJobsDeployInfo.t * option error :=
  if Z.of_nat (length abiJobs) =? 0 then (∅, ∅, None)
  else
    let '(customerUpdatesDict, addressDeployBlockDict) :=
      fold_left convertRound abiJobs (∅, ∅) in
    (customerUpdatesDict, addressDeployBlockDict, None).

End indexer.

(** ** evm/generators.go

    An error that comes back from the RPC client is modelled by the text its
    [Error()] gives. *)

Module evm.

(** *** [ClientFilterLogs] *)

Section LogScanner.
Variable EventJson : Type.

(** The provider: its reply to the [n]-th [eth_getLogs] request of the
    call, asked for the window from [fromBlock] to [toBlock], is a list
    of logs or an error. *)
Variable eth_getLogs : nat -> Z -> Z -> list EventJson + string.

(** The variables of the loop, and the number of requests made. *)
Record scan := {
  logs : list EventJson;
  fromBlock : Z;
  batchStep : Z;
  requests : nat
}.

(** One round of the [for] loop: the next state on [continue] and at the
    end of the body, the result on [break] and [return]. [big.Int.Div] is
    Euclidean; for the divisor 2 that is [Z.div]. *)
Definition scanRound (toBlock : Z) (st : scan) : scan + (list EventJson * option string) :=
  let nextBlock := fromBlock st + batchStep st in
  let nextBlock := if toBlock <? nextBlock then toBlock else nextBlock in
  match eth_getLogs (requests st) (fromBlock st) nextBlock with
  | inr err =>
      if strings.Contains err "query returned more than 10000 results" then
        let batchStep := batchStep st / 2 in
        if batchStep <? 1 then
          let fromBlock := nextBlock + 1 in
          if toBlock <? fromBlock then inr (logs st, None)
          else inl {| logs := logs st; fromBlock := fromBlock;
                      batchStep := batchStep; requests := S (requests st) |}
        else inl {| logs := logs st; fromBlock := fromBlock st;
                    batchStep := batchStep; requests := S (requests st) |}
      else inr ([], Some err)
  | inl result =>
      let logs := (logs st ++ result)%list in
      let fromBlock := nextBlock + 1 in
      if toBlock <? fromBlock then inr (logs, None)
      else inl {| logs := logs; fromBlock := fromBlock;
                  batchStep := batchStep st; requests := S (requests st) |}
  end.

(** The loop, run for at most [rounds] rounds; [None] when it needs more. *)
Fixpoint scanLoop (rounds : nat) (toBlock : Z) (st : scan)
    : option (list EventJson * option string) :=
  match rounds with
  | O => None
  | S rounds =>
      match scanRound toBlock st with
      | inr result => Some result
      | inl st => scanLoop rounds toBlock st
      end
  end.

Definition ClientFilterLogs (rounds : nat) (q_FromBlock q_ToBlock : Z)
    : option (list EventJson * option string) :=
  let fromBlock := q_FromBlock in
  let toBlock := q_ToBlock in
  let batchStep := toBlock - fromBlock in
  scanLoop rounds toBlock
    {| logs := []; fromBlock := fromBlock; batchStep := batchStep; requests := O |}.

(** The successful requests of a run, in the order they were made: each
    is a window with the logs the provider returned for it, and starts
    above the end of the one before. *)
Fixpoint ascending (low : Z) (windows : list (Z * Z * list EventJson)) : Prop :=
  match windows with
  | [] => True
  | (first, last, result) :: rest =>
      low <= first /\ (exists n, eth_getLogs n first last = inl result) /\
      ascending (last + 1) rest
  end.

End LogScanner.

Arguments logs {EventJson}.
Arguments fromBlock {EventJson}.
Arguments batchStep {EventJson}.
Arguments requests {EventJson}.
Arguments Build_scan {EventJson}.

(** The last block of the window a round asks for. *)
Definition windowEnd {EventJson : Type} (toBlock : Z) (st : scan EventJson) : Z :=
  Z.min (fromBlock st + batchStep st) toBlock.

(** *** [FetchBlocksInRangeAsync] *)

Section Fetcher.
Variable BlockJson : Type.

(** How the task of a block ends: [GetBlockByNumber] returns the block,
    returns an error, or panics with a value that prints as [r]. *)
Inductive task : Type :=
| fetched (block : BlockJson)
| failed (getErr : string)
| panicked (r : string).

Variable GetBlockByNumber : Z -> task.

(** How the call ends: it returns, panics in [make] on a negative
    channel size, or never returns because every task waits for a slot
    of a semaphore that has none. *)
Inductive fetch : Type :=
| FetchReturned (blocks : list BlockJson) (err : option string)
| FetchPanicked
| FetchBlocked.

(** [for i := from; i <= to; i++] *)
Definition blockNumbersRange (from to : Z) : list Z := seqZ from (to - from + 1).

(** What a task appends to [blocks] and what it sends to [errChan]. *)
Definition appended (b : Z) : list BlockJson :=
  match GetBlockByNumber b with
  | fetched block => [block]
  | _ => []
  end.

Definition sent (b : Z) : list string :=
  match GetBlockByNumber b with
  | fetched _ => []
  | failed getErr => [getErr]
  | panicked r => ["panic in goroutine for block " ++ Itoa b ++ ": " ++ r]
  end.

(** The tasks run concurrently; [order] is the order in which they reach
    the mutex and the channel, a permutation of the range. *)
Definition FetchBlocksInRangeAsync (order : list Z) (from to : Z) (maxRequests : Z) : fetch :=
  let blockNumbersRange := blockNumbersRange from to in
  if maxRequests <? 0 then FetchPanicked
  else if (maxRequests =? 0) && (0 <? Z.of_nat (length blockNumbersRange)) then FetchBlocked
  else
    let blocks := concat (map appended order) in
    let collectedErrors := concat (map sent order) in
    if 0 <? Z.of_nat (length collectedErrors) then
      let errStrings := collectedErrors in
      FetchReturned []
        (Some ("errors occurred during crawling: " ++ strings.Join errStrings "; "))
    else FetchReturned blocks None.

(** *** [FetchBlocksInRange] *)

(** The rounds of the loop over the block numbers still to fetch: the call
    returns at the first error with no block, and a request that panics
    ends the call with the value of its panic. *)
Fixpoint fetchLoop (numbers : list Z) (blocks : list BlockJson)
    : list BlockJson * option string + string :=
  match numbers with
  | [] => inl (blocks, None)
  | i :: numbers =>
      match GetBlockByNumber i with
      | failed err => inl ([], Some err)
      | panicked r => inr r
      | fetched block => fetchLoop numbers (blocks ++ [block])%list
      end
  end.

Definition FetchBlocksInRange (from to : Z) : list BlockJson * option string + string :=
  fetchLoop (blockNumbersRange from to) [].

End Fetcher.

Arguments fetched {BlockJson}.
Arguments failed {BlockJson}.
Arguments panicked {BlockJson}.
Arguments FetchReturned {BlockJson}.
Arguments FetchPanicked {BlockJson}.
Arguments FetchBlocked {BlockJson}.

(** *** [DecodeProtoEntireBlockToLabels] *)

(** Modelled from the spec: the protobuf messages of a batch are generated
    code that is not in [generators.go]; the fields are those the decoder
    reads. *)
Module MantleEventLog.
Record t := {
  Address : string;
  Topics : list string;
  Data : string;
  BlockNumber : Z;
  BlockHash : string;
  TransactionHash : string;
  LogIndex : Z
}.
End MantleEventLog.

Module MantleTransaction.
Record t := {
  Hash : string;
  BlockNumber : Z;
  BlockHash : string;
  FromAddress : string;
  ToAddress : string;
  Gas : string;
  GasPrice : string;
  MaxFeePerGas : string;
  MaxPriorityFeePerGas : string;
  Input : string;
  Nonce : string;
  TransactionIndex : Z;
  TransactionType : Z;
  Value : string;
  Logs : list MantleEventLog.t
}.
End MantleTransaction.

Module MantleBlock.
Record t := {
  BlockNumber : Z;
  Timestamp : Z;
  Transactions : list MantleTransaction.t
}.
End MantleBlock.

(** *** [ParseBlocksWithTransactions] *)

Section Parser.
Variables BlockJson TransactionJson : Type.

(** [GetBlockByNumber] returns a pointer to a JSON block: [None] is the nil
    pointer, which it returns with a nil error when the node answers the
    request with the JSON value null (lines 326-335). *)
Variable GetBlockByNumber : Z -> task (option BlockJson).

(** The fields of the JSON block that the function reads, the copy of a
    transaction with its [BlockTimestamp] set, and the two converters. *)
Variable json_Transactions : BlockJson -> list TransactionJson.
Variable json_Timestamp : BlockJson -> string.
Variable withBlockTimestamp : TransactionJson -> string -> TransactionJson.
Variable ToProtoSingleBlock : BlockJson -> MantleBlock.t.
Variable ToProtoSingleTransaction : TransactionJson -> MantleTransaction.t.

(** One round of the loop over the fetched blocks: [None] when the pointer
    is nil, which [ToProtoSingleBlock] dereferences. *)
Definition parseBlock (blockAndTxsJson : option BlockJson) : option MantleBlock.t :=
  match blockAndTxsJson with
  | None => None
  | Some blockAndTxsJson =>
      let parsedBlock := ToProtoSingleBlock blockAndTxsJson in
      Some
        (fold_left
           (fun parsedBlock txJson =>
              let txJson := withBlockTimestamp txJson (json_Timestamp blockAndTxsJson) in
              let parsedTransaction := ToProtoSingleTransaction txJson in
              {| MantleBlock.BlockNumber := MantleBlock.BlockNumber parsedBlock;
                 MantleBlock.Timestamp := MantleBlock.Timestamp parsedBlock;
                 MantleBlock.Transactions :=
                   (MantleBlock.Transactions parsedBlock ++ [parsedTransaction])%list |})
           (json_Transactions blockAndTxsJson) parsedBlock)
  end.

(** The loop over the fetched blocks: [None] when a round panics. *)
Fixpoint parseLoop (blocksWithTxsJson : list (option BlockJson))
    (parsedBlocks : list MantleBlock.t) : option (list MantleBlock.t) :=
  match blocksWithTxsJson with
  | [] => Some parsedBlocks
  | blockAndTxsJson :: blocksWithTxsJson =>
      match parseBlock blockAndTxsJson with
      | None => None
      | Some parsedBlock => parseLoop blocksWithTxsJson (parsedBlocks ++ [parsedBlock])%list
      end
  end.

(** A panic of the sequential fetch or of the loop over the blocks is a
    panic of the call. *)
Definition ParseBlocksWithTransactions (order : list Z) (from to : Z) (maxRequests : Z)
    : fetch MantleBlock.t :=
  let fetchResult :=
    if 1 <? maxRequests
    then FetchBlocksInRangeAsync (option BlockJson) GetBlockByNumber order from to maxRequests
    else
      match FetchBlocksInRange (option BlockJson) GetBlockByNumber from to with
      | inl (blocksWithTxsJson, fetchErr) => FetchReturned blocksWithTxsJson fetchErr
      | inr _ => FetchPanicked
      end in
  match fetchResult with
  | FetchReturned _ (Some fetchErr) => FetchReturned [] (Some fetchErr)
  | FetchReturned blocksWithTxsJson None =>
      match parseLoop blocksWithTxsJson [] with
      | Some parsedBlocks => FetchReturned parsedBlocks None
      | None => FetchPanicked
      end
  | FetchPanicked => FetchPanicked
  | FetchBlocked => FetchBlocked
  end.

End Parser.

(** The values of a [map[string]interface{}] that becomes label data. *)
Inductive jvalue : Type :=
| jint (n : Z)
| jstring (s : string)
| jerror (text : string)                   (* an error value *)
| jnil                                     (* the nil interface value *)
| jtransaction (tx : MantleTransaction.t)
| jlog (e : MantleEventLog.t)
| jargument (repr : string).               (* a decoded argument *)

(** What the decoder calls outside [generators.go]: the ABI parser and the
    two argument decoders of the common package, the receipt request,
    [json.Marshal] and [proto.Unmarshal]. A map result is [None] for the nil
    map, a receipt is its status or [None] for the nil pointer. *)
Class Client := {
  ABI : Type;
  GetABI : string -> option ABI * option string;
  DecodeTransactionInputDataToInterface :
    ABI -> list Z -> option (gmap string jvalue) * option string;
  DecodeLogArgsToLabelData :
    ABI -> list string -> string -> option (gmap string jvalue) * option string;
  TransactionReceipt : string -> option Z * option string;
  json_Marshal : option (gmap string jvalue) -> string * option string;
  proto_Unmarshal : list Z -> list MantleBlock.t * option string
}.

(** What a task sends to [errorChan], one constructor for each [fmt.Errorf]. *)
Inductive failure : Type :=
| AbiFailure (address : string) (initErr : option string)
| InputFailure (hash : string) (err : error)
| ReceiptFailure (hash : string) (err : string)
| MarshalTxFailure (hash : string) (err : string)
| LogAbiFailure (address : string) (initErr : option string)
| MarshalLogFailure (hash : string) (err : string)
| PanicFailure (blockNumber : Z) (r : string).

Section Decoder.
Context `{Client}.

(** An entry of the ABI map: [Once] tells whether the one-shot parse ran. The
    entries are shared by all tasks; the map below is that shared store. *)
Record AbiEntry := {
  AbiJSON : string;
  AbiName : string;
  Abi : option ABI;
  Once : bool
}.

(** [abiMap[address] != nil && abiMap[address][selector] != nil] *)
Definition entryAt (abiMap : gmap string (gmap string AbiEntry))
    (address selector : string) : option AbiEntry :=
  match abiMap !! address with
  | Some entries => entries !! selector
  | None => None
  end.

Definition setEntry (abiMap : gmap string (gmap string AbiEntry))
    (address selector : string) (entry : AbiEntry) : gmap string (gmap string AbiEntry) :=
  <[address := <[selector := entry]> (default ∅ (abiMap !! address))]> abiMap.

(** [entry.Once.Do(func() { entry.Abi, initErr = GetABI(entry.AbiJSON) })] *)
Definition parseOnce (entry : AbiEntry) : AbiEntry * option string :=
  if Once entry then (entry, None)
  else
    let '(abi, initErr) := GetABI (AbiJSON entry) in
    ({| AbiJSON := AbiJSON entry; AbiName := AbiName entry; Abi := abi; Once := true |},
     initErr).

(** [decodeErr] is one variable of the call (line 922): the tasks of all
    blocks assign it and read it, and nothing orders what they do. A round
    assigns it the error of its decode, tests it and, when the test finds an
    error, reads it again for the object it stores. A [race] is what the
    other tasks assign meanwhile, before the test and between the test and
    the second read: [None] when they assign nothing, [Some None] when the
    last of them assigns nil. *)
Record race := {
  beforeTest : option (option string);
  beforeStore : option (option string)
}.

(** A round of a task that no other task overlaps. *)
Definition alone : race := {| beforeTest := None; beforeStore := None |}.

(** The state a task works on: its three local slices, and what it shares
    with the other tasks, which is the error channel, the ABI map and
    [decodeErr]; [racing] is the race at the decode of a transaction, or of
    one of its logs. *)
Record worker := {
  localEventLabels : list indexer.EventLabel.t;
  localTxLabels : list indexer.TransactionLabel.t;
  localRawTransactions : list indexer.RawTransaction.t;
  errorChan : list failure;
  abiMap : gmap string (gmap string AbiEntry);
  racing : MantleTransaction.t -> option MantleEventLog.t -> race
}.

Definition send (w : worker) (f : failure) : worker :=
  {| localEventLabels := localEventLabels w; localTxLabels := localTxLabels w;
     localRawTransactions := localRawTransactions w;
     errorChan := (errorChan w ++ [f])%list; abiMap := abiMap w; racing := racing w |}.

Definition store (w : worker) (address selector : string) (entry : AbiEntry) : worker :=
  {| localEventLabels := localEventLabels w; localTxLabels := localTxLabels w;
     localRawTransactions := localRawTransactions w;
     errorChan := errorChan w; abiMap := setEntry (abiMap w) address selector entry;
     racing := racing w |}.

(** Where a part of the loop body leaves the round. *)
Inductive flow : Type :=
| next (w : worker)                   (* the statements that follow run *)
| continue (w : worker)               (* the rest of the round is skipped *)
| panic (w : worker) (r : string).

(** The map that stands in for the arguments that did not decode, with the
    value of [decodeErr] at the time the map is built. *)
Definition rawLabelData (input_raw : jvalue) (abi selector : string)
    (decodeErr : option string) : gmap string jvalue :=
  <["error" := match decodeErr with Some text => jerror text | None => jnil end]>
    (<["selector" := jstring selector]>
       (<["abi" := jstring abi]> (<["input_raw" := input_raw]> ∅))).

(** The [if abiMap[tx.ToAddress] != nil ...] block of a round. *)
Definition labelTransaction (b : MantleBlock.t) (tx : MantleTransaction.t)
    (selector : string) (w : worker) : flow :=
  match entryAt (abiMap w) (MantleTransaction.ToAddress tx) selector with
  | None => next w
  | Some txAbiEntry =>
      let '(txAbiEntry, initErr) := parseOnce txAbiEntry in
      let w := store w (MantleTransaction.ToAddress tx) selector txAbiEntry in
      match initErr, Abi txAbiEntry with
      | None, Some abi =>
          match hex.DecodeString (slice_from 2 (MantleTransaction.Input tx)) with
          | (_, Some err) => continue (send w (InputFailure (MantleTransaction.Hash tx) err))
          | (inputData, None) =>
              let '(decodedArgsTx, decodeErr) :=
                DecodeTransactionInputDataToInterface abi inputData in
              let decodeErr := default decodeErr (beforeTest (racing w tx None)) in
              let '(decodedArgsTx, label) :=
                match decodeErr with
                | Some _ =>
                    let decodeErr := default decodeErr (beforeStore (racing w tx None)) in
                    (Some (rawLabelData (jtransaction tx) (AbiJSON txAbiEntry) selector decodeErr),
                     indexer.SeerCrawlerRawLabel)
                | None => (decodedArgsTx, indexer.SeerCrawlerLabel)
                end in
              match TransactionReceipt (MantleTransaction.Hash tx) with
              | (_, Some err) =>
                  continue (send w (ReceiptFailure (MantleTransaction.Hash tx) err))
              | (None, None) =>
                  panic w "runtime error: invalid memory address or nil pointer dereference"
              | (Some Status, None) =>
                  match decodedArgsTx with
                  | None => panic w "assignment to entry in nil map"
                  | Some args =>
                      let decodedArgsTx :=
                        <["status" := jint (if Status =? 1 then 1 else 0)]> args in
                      match json_Marshal (Some decodedArgsTx) with
                      | (_, Some err) =>
                          continue (send w (MarshalTxFailure (MantleTransaction.Hash tx) err))
                      | (txLabelDataBytes, None) =>
                          let transactionLabel :=
                            {| indexer.TransactionLabel.Address := MantleTransaction.ToAddress tx;
                               indexer.TransactionLabel.BlockNumber := MantleTransaction.BlockNumber tx;
                               indexer.TransactionLabel.BlockHash := MantleTransaction.BlockHash tx;
                               indexer.TransactionLabel.CallerAddress := MantleTransaction.FromAddress tx;
                               indexer.TransactionLabel.LabelName := AbiName txAbiEntry;
                               indexer.TransactionLabel.LabelType := "tx_call";
                               indexer.TransactionLabel.OriginAddress := MantleTransaction.FromAddress tx;
                               indexer.TransactionLabel.Label := label;
                               indexer.TransactionLabel.TransactionHash := MantleTransaction.Hash tx;
                               indexer.TransactionLabel.LabelData := txLabelDataBytes;
                               indexer.TransactionLabel.BlockTimestamp := MantleBlock.Timestamp b |} in
                          next {| localEventLabels := localEventLabels w;
                                  localTxLabels := (localTxLabels w ++ [transactionLabel])%list;
                                  localRawTransactions := localRawTransactions w;
                                  errorChan := errorChan w; abiMap := abiMap w;
                                  racing := racing w |}
                      end
                  end
              end
          end
      | _, _ => continue (send w (AbiFailure (MantleTransaction.ToAddress tx) initErr))
      end
  end.

(** One round of the loop over the logs of a transaction. *)
Definition labelLog (b : MantleBlock.t) (tx : MantleTransaction.t)
    (e : MantleEventLog.t) (w : worker) : flow :=
  let topicSelector :=
    match MantleEventLog.Topics e with
    | topic0 :: _ => topic0
    | [] => "0x0"
    end in
  match entryAt (abiMap w) (MantleEventLog.Address e) topicSelector with
  | None => continue w
  | Some abiEntryLog =>
      let '(abiEntryLog, initErr) := parseOnce abiEntryLog in
      let w := store w (MantleEventLog.Address e) topicSelector abiEntryLog in
      match initErr, Abi abiEntryLog with
      | None, Some abi =>
          let '(decodedArgsLogs, decodeErr) :=
            DecodeLogArgsToLabelData abi (MantleEventLog.Topics e) (MantleEventLog.Data e) in
          let decodeErr := default decodeErr (beforeTest (racing w tx (Some e))) in
          let '(decodedArgsLogs, label) :=
            match decodeErr with
            | Some _ =>
                let decodeErr := default decodeErr (beforeStore (racing w tx (Some e))) in
                (Some (rawLabelData (jlog e) (AbiJSON abiEntryLog) topicSelector decodeErr),
                 indexer.SeerCrawlerRawLabel)
            | None => (decodedArgsLogs, indexer.SeerCrawlerLabel)
            end in
          match json_Marshal decodedArgsLogs with
          | (_, Some err) =>
              continue (send w (MarshalLogFailure (MantleEventLog.TransactionHash e) err))
          | (labelDataBytes, None) =>
              let eventLabel :=
                {| indexer.EventLabel.Label := label;
                   indexer.EventLabel.LabelName := AbiName abiEntryLog;
                   indexer.EventLabel.LabelType := "event";
                   indexer.EventLabel.BlockNumber := MantleEventLog.BlockNumber e;
                   indexer.EventLabel.BlockHash := MantleEventLog.BlockHash e;
                   indexer.EventLabel.Address := MantleEventLog.Address e;
                   indexer.EventLabel.CallerAddress := "";
                   indexer.EventLabel.OriginAddress := MantleTransaction.FromAddress tx;
                   indexer.EventLabel.TransactionHash := MantleEventLog.TransactionHash e;
                   indexer.EventLabel.LabelData := labelDataBytes;
                   indexer.EventLabel.BlockTimestamp := MantleBlock.Timestamp b;
                   indexer.EventLabel.LogIndex := MantleEventLog.LogIndex e |} in
              next {| localEventLabels := (localEventLabels w ++ [eventLabel])%list;
                      localTxLabels := localTxLabels w;
                      localRawTransactions := localRawTransactions w;
                      errorChan := errorChan w; abiMap := abiMap w; racing := racing w |}
          end
      | _, _ => continue (send w (LogAbiFailure (MantleEventLog.Address e) initErr))
      end
  end.

Fixpoint labelLogs (b : MantleBlock.t) (tx : MantleTransaction.t)
    (events : list MantleEventLog.t) (w : worker) : flow :=
  match events with
  | [] => next w
  | e :: rest =>
      match labelLog b tx e w with
      | next w | continue w => labelLogs b tx rest w
      | panic w r => panic w r
      end
  end.

(** One round of the loop over the transactions of a block. *)
Definition decodeTransaction (addRawTransactions : bool) (b : MantleBlock.t)
    (w : worker) (tx : MantleTransaction.t) : flow :=
  let w :=
    if addRawTransactions then
      {| localEventLabels := localEventLabels w; localTxLabels := localTxLabels w;
         localRawTransactions :=
           (localRawTransactions w ++
            [{| indexer.RawTransaction.Hash := MantleTransaction.Hash tx;
                indexer.RawTransaction.BlockHash := MantleTransaction.BlockHash tx;
                indexer.RawTransaction.BlockTimestamp := MantleBlock.Timestamp b;
                indexer.RawTransaction.BlockNumber := MantleBlock.BlockNumber b;
                indexer.RawTransaction.FromAddress := MantleTransaction.FromAddress tx;
                indexer.RawTransaction.ToAddress := MantleTransaction.ToAddress tx;
                indexer.RawTransaction.Gas := MantleTransaction.Gas tx;
                indexer.RawTransaction.GasPrice := MantleTransaction.GasPrice tx;
                indexer.RawTransaction.Input := MantleTransaction.Input tx;
                indexer.RawTransaction.Nonce := MantleTransaction.Nonce tx;
                indexer.RawTransaction.MaxFeePerGas := MantleTransaction.MaxFeePerGas tx;
                indexer.RawTransaction.MaxPriorityFeePerGas := MantleTransaction.MaxPriorityFeePerGas tx;
                indexer.RawTransaction.TransactionIndex := MantleTransaction.TransactionIndex tx;
                indexer.RawTransaction.TransactionType := MantleTransaction.TransactionType tx;
                indexer.RawTransaction.Value := MantleTransaction.Value tx;
                indexer.RawTransaction.L1BlockNumber := None |}])%list;
         errorChan := errorChan w; abiMap := abiMap w; racing := racing w |}
    else w in
  if len (MantleTransaction.Input tx) <? 10 then continue w
  else
    let selector := slice_to 10 (MantleTransaction.Input tx) in
    match labelTransaction b tx selector w with
    | next w => labelLogs b tx (MantleTransaction.Logs tx) w
    | continue w => continue w
    | panic w r => panic w r
    end.

Fixpoint decodeTransactions (addRawTransactions : bool) (b : MantleBlock.t)
    (transactions : list MantleTransaction.t) (w : worker) : flow :=
  match transactions with
  | [] => next w
  | tx :: rest =>
      match decodeTransaction addRawTransactions b w tx with
      | next w | continue w => decodeTransactions addRawTransactions b rest w
      | panic w r => panic w r
      end
  end.

(** What the tasks share: the three result slices under the mutex, the error
    channel and the ABI map. *)
Record shared := {
  labels : list indexer.EventLabel.t;
  txLabels : list indexer.TransactionLabel.t;
  rawTransactions : list indexer.RawTransaction.t;
  errors : list failure;
  entries : gmap string (gmap string AbiEntry)
}.

(** The task of one block, with the races of its rounds. A panic is
    recovered into an error and the local slices of the task are lost. *)
Definition decodeBlock (racing : MantleTransaction.t -> option MantleEventLog.t -> race)
    (addRawTransactions : bool) (s : shared) (b : MantleBlock.t) : shared :=
  let w := {| localEventLabels := []; localTxLabels := []; localRawTransactions := [];
              errorChan := errors s; abiMap := entries s; racing := racing |} in
  match decodeTransactions addRawTransactions b (MantleBlock.Transactions b) w with
  | next w | continue w =>
      {| labels := (labels s ++ localEventLabels w)%list;
         txLabels := (txLabels s ++ localTxLabels w)%list;
         rawTransactions := (rawTransactions s ++ localRawTransactions w)%list;
         errors := errorChan w; entries := abiMap w |}
  | panic w r =>
      {| labels := labels s; txLabels := txLabels s; rawTransactions := rawTransactions s;
         errors := (errorChan w ++ [PanicFailure (MantleBlock.BlockNumber b) r])%list;
         entries := abiMap w |}
  end.

(** The error of the call: the unmarshalling error, or the collected
    messages joined. *)
Inductive decodeError : Type :=
| UnmarshalFailure (err : string)
| ProcessingFailure (errorMessages : list failure).

(** How the call ends: it returns, panics in [make] on a negative channel
    size, or never returns, because no semaphore slot exists or because a
    task waits to send on the error channel, whose capacity is the number of
    blocks and which is read only after all tasks are done. *)
Inductive decoded : Type :=
| DecodeReturned (labels : list indexer.EventLabel.t)
    (txLabels : list indexer.TransactionLabel.t)
    (rawTransactions : list indexer.RawTransaction.t) (err : option decodeError)
| DecodePanicked
| DecodeBlocked.

(** [DecodeProtoEntireBlockToLabels]. A task starts when it gets one of the
    [threads] slots of the semaphore and gives the slot back when it is done.
    With one slot, or one block, the tasks run one after the other in the
    order of the batch, each alone. With more of both they overlap: their
    slices are appended under the mutex in the order [order] in which the
    tasks get there, a permutation of the batch, and their rounds meet the
    races [racing]. The tasks are followed one by one in that order, which
    keeps the messages of the error channel task by task. *)
Definition DecodeProtoEntireBlockToLabels (order : list MantleBlock.t)
    (racing : MantleTransaction.t -> option MantleEventLog.t -> race)
    (rawData : list Z)
    (abiMap : gmap string (gmap string AbiEntry)) (addRawTransactions : bool)
    (threads : Z) : decoded :=
  match proto_Unmarshal rawData with
  | (_, Some err) => DecodeReturned [] [] [] (Some (UnmarshalFailure err))
  | (Blocks, None) =>
      if threads <? 0 then DecodePanicked
      else if (threads =? 0) && (0 <? Z.of_nat (length Blocks)) then DecodeBlocked
      else
        let overlap := (1 <? threads) && (1 <? Z.of_nat (length Blocks)) in
        let s :=
          fold_left
            (decodeBlock (if overlap then racing else fun _ _ => alone) addRawTransactions)
            (if overlap then order else Blocks)
            {| labels := []; txLabels := []; rawTransactions := [];
               errors := []; entries := abiMap |} in
        let errorMessages := errors s in
        if Z.of_nat (length Blocks) <? Z.of_nat (length errorMessages) then DecodeBlocked
        else if 0 <? Z.of_nat (length errorMessages) then
          DecodeReturned [] [] [] (Some (ProcessingFailure errorMessages))
        else DecodeReturned (labels s) (txLabels s) (rawTransactions s) None
  end.

End Decoder.

(** *** [DecodeProtoTransactionsToLabels] *)

Section TransactionDecoder.
Context `{Client}.

(** [c.DecodeProtoTransactions], and what the argument decoder of the common
    package does when it is handed a nil ABI: its result, or the value of its
    panic. *)
Variable DecodeProtoTransactions : list string -> list MantleTransaction.t * option string.
Variable decodeWithoutABI :
  list Z -> (option (gmap string jvalue) * option string) + string.

(** How the call ends: it returns the labels and an error, which is a text
    or an error of [encoding/hex], or it panics. *)
Inductive labelled : Type :=
| LabelsReturned (labels : list indexer.TransactionLabel.t) (err : option (string + error))
| LabelsPanicked (r : string).

(** The loop over the decoded transactions, with the ABI map that the
    rounds share with the caller. The input is sliced and the entry is read
    without a check. *)
Fixpoint labelTransactions (blocksCache : gmap Z Z)
    (decodedTransactions : list MantleTransaction.t)
    (labels : list indexer.TransactionLabel.t)
    (abiMap : gmap string (gmap string AbiEntry))
    : labelled * gmap string (gmap string AbiEntry) :=
  match decodedTransactions with
  | [] => (LabelsReturned labels None, abiMap)
  | transaction :: decodedTransactions =>
      if len (MantleTransaction.Input transaction) <? 10 then
        (LabelsPanicked ("runtime error: slice bounds out of range [:10] with length " ++
                         Itoa (len (MantleTransaction.Input transaction))),
         abiMap)
      else
        let selector := slice_to 10 (MantleTransaction.Input transaction) in
        match entryAt abiMap (MantleTransaction.ToAddress transaction) selector with
        | None =>
            (LabelsPanicked "runtime error: invalid memory address or nil pointer dereference",
             abiMap)
        | Some entry =>
            let '(entry, abiMap, err) :=
              match Abi entry with
              | Some _ => (entry, abiMap, None)
              | None =>
                  let '(abi, err) := GetABI (AbiJSON entry) in
                  let entry :=
                    {| AbiJSON := AbiJSON entry; AbiName := AbiName entry;
                       Abi := abi; Once := Once entry |} in
                  (entry,
                   setEntry abiMap (MantleTransaction.ToAddress transaction) selector entry,
                   err)
              end in
            match err with
            | Some err => (LabelsReturned [] (Some (inl err)), abiMap)
            | None =>
            match hex.DecodeString (slice_from 2 (MantleTransaction.Input transaction)) with
            | (_, Some err) => (LabelsReturned [] (Some (inr err)), abiMap)
            | (inputData, None) =>
            match (match Abi entry with
                   | Some abi => inl (DecodeTransactionInputDataToInterface abi inputData)
                   | None => decodeWithoutABI inputData
                   end) with
            | inr r => (LabelsPanicked r, abiMap)
            | inl (decodedArgs, decodeErr) =>
                let '(decodedArgs, label) :=
                  match decodeErr with
                  | Some decodeErr =>
                      (Some (rawLabelData (jtransaction transaction) (AbiJSON entry)
                               selector (Some decodeErr)),
                       indexer.SeerCrawlerRawLabel)
                  | None => (decodedArgs, indexer.SeerCrawlerLabel)
                  end in
                match json_Marshal decodedArgs with
                | (_, Some err) => (LabelsReturned [] (Some (inl err)), abiMap)
                | (labelDataBytes, None) =>
                    let transactionLabel :=
                      {| indexer.TransactionLabel.Address := MantleTransaction.ToAddress transaction;
                         indexer.TransactionLabel.BlockNumber := MantleTransaction.BlockNumber transaction;
                         indexer.TransactionLabel.BlockHash := MantleTransaction.BlockHash transaction;
                         indexer.TransactionLabel.CallerAddress := MantleTransaction.FromAddress transaction;
                         indexer.TransactionLabel.LabelName := AbiName entry;
                         indexer.TransactionLabel.LabelType := "tx_call";
                         indexer.TransactionLabel.OriginAddress := MantleTransaction.FromAddress transaction;
                         indexer.TransactionLabel.Label := label;
                         indexer.TransactionLabel.TransactionHash := MantleTransaction.Hash transaction;
                         indexer.TransactionLabel.LabelData := labelDataBytes;
                         indexer.TransactionLabel.BlockTimestamp :=
                           default 0 (blocksCache !! MantleTransaction.BlockNumber transaction) |} in
                    labelTransactions blocksCache decodedTransactions
                      (labels ++ [transactionLabel])%list abiMap
                end
            end
            end
            end
        end
  end.

Definition DecodeProtoTransactionsToLabels (transactions : list string)
    (blocksCache : gmap Z Z) (abiMap : gmap string (gmap string AbiEntry))
    : labelled * gmap string (gmap string AbiEntry) :=
  match DecodeProtoTransactions transactions with
  | (_, Some err) => (LabelsReturned [] (Some (inl err)), abiMap)
  | (decodedTransactions, None) => labelTransactions blocksCache decodedTransactions [] abiMap
  end.

End TransactionDecoder.

End evm.

(** ** The vocabulary of the specification *)

(** The known chains. *)
Definition known_chains : list string :=
  [ "arbitrum_one"; "arbitrum_sepolia"; "b3"; "b3_sepolia"; "ethereum"; "game7";
    "game7_orbit_arbitrum_sepolia"; "game7_testnet"; "imx_zkevm"; "imx_zkevm_sepolia";
    "mantle"; "mantle_sepolia"; "polygon"; "ronin"; "ronin_saigon"; "sepolia"; "xai";
    "xai_sepolia" ].

(** The L1-anchored chains: the known chains named [arbitrum_*], [game7*] or
    [xai*]. *)
Definition l1_anchored (chain : string) : bool :=
  existsb (String.eqb chain) known_chains &&
  (strings.HasPrefix chain "arbitrum_" || strings.HasPrefix chain "game7" ||
   strings.HasPrefix chain "xai").

(** A hexadecimal numeral: at least one digit, and only the digits [0-9],
    [a-f] and [A-F]. *)
Definition is_hex_digit (c : ascii) : bool :=
  let n := Z.of_N (N_of_ascii c) in
  ((48 <=? n) && (n <=? 57)) || ((97 <=? n) && (n <=? 102)) || ((65 <=? n) && (n <=? 70)).

Fixpoint all_hex_digits (s : string) : bool :=
  match s with
  | EmptyString => true
  | String c rest => is_hex_digit c && all_hex_digits rest
  end.

Definition hexadecimal (s : string) : bool :=
  negb (String.eqb s "") && all_hex_digits s.

(** A hexadecimal numeral with an optional sign in front. *)
Definition signed_hexadecimal (s : string) : bool :=
  match s with
  | String "-"%char digits | String "+"%char digits => hexadecimal digits
  | _ => hexadecimal s
  end.

(** The numeric fields of a raw transaction that are parsed on write. *)
Definition numeric_fields (rawTransaction : indexer.RawTransaction.t) : list string :=
  [ indexer.RawTransaction.Gas rawTransaction;
    indexer.RawTransaction.GasPrice rawTransaction;
    indexer.RawTransaction.MaxFeePerGas rawTransaction;
    indexer.RawTransaction.MaxPriorityFeePerGas rawTransaction;
    indexer.RawTransaction.Value rawTransaction ].

(** The columns of the two bulk inserts that every chain has. *)
Definition block_index_columns : list string :=
  ["block_number"; "block_hash"; "block_timestamp"; "parent_hash"; "row_id"; "path";
   "transactions_indexed_at"; "logs_indexed_at"].

Definition raw_transaction_columns : list string :=
  ["hash"; "block_hash"; "block_timestamp"; "block_number"; "from_address"; "to_address";
   "gas"; "gas_price"; "input"; "nonce"; "max_fee_per_gas"; "max_priority_fee_per_gas";
   "transaction_index"; "transaction_type"; "value"].

(** The worker a part of a round leaves behind, however it ends. *)
Definition worker_of `{evm.Client} (f : evm.flow) : evm.worker :=
  match f with
  | evm.next w | evm.continue w | evm.panic w _ => w
  end.

(** The selector of a log: its first topic, "0x0" without topics. *)
Definition topicSelector (e : evm.MantleEventLog.t) : string :=
  match evm.MantleEventLog.Topics e with
  | topic0 :: _ => topic0
  | [] => "0x0"
  end.

(** The status the decoder records for a receipt. *)
Definition statusOf (Status : Z) : evm.jvalue :=
  evm.jint (if Status =? 1 then 1 else 0).

(** A label or an event whose three addresses decode, which is what its
    writer asks before it adds the row. *)
Definition decodable (address : string) : bool :=
  match (indexer.decodeAddress address).2 with
  | None => true
  | Some _ => false
  end.

Definition writable_label (transaction : indexer.TransactionLabel.t) : bool :=
  decodable (indexer.TransactionLabel.Address transaction) &&
  decodable (indexer.TransactionLabel.CallerAddress transaction) &&
  decodable (indexer.TransactionLabel.OriginAddress transaction).

Definition writable_event (event : indexer.EventLabel.t) : bool :=
  decodable (indexer.EventLabel.CallerAddress event) &&
  decodable (indexer.EventLabel.OriginAddress event) &&
  decodable (indexer.EventLabel.Address event).

(** The arrays of a bulk insert all have [n] values. *)
Definition aligned (n : nat) (statement : indexer.Statement) : Prop :=
  Forall (fun column => length column = n) (indexer.arguments statement).

(** The number of values gathered so far for a column. *)
Definition column_length (valuesMap : gmap string indexer.UnnestInsertValueStruct)
    (column : string) : nat :=
  length (indexer.Values (indexer.at_key valuesMap column)).

(** Every column of [columns] is a key of the map and holds [n] values. *)
Definition filled (columns : list string) (n : nat)
    (valuesMap : gmap string indexer.UnnestInsertValueStruct) : Prop :=
  forall column : string,
    column ∈ columns -> is_Some (valuesMap !! column) /\ column_length valuesMap column = n.

(** A run of [updateValues] calls on one map. *)
Definition updateAll (valuesMap : gmap string indexer.UnnestInsertValueStruct)
    (updates : list (string * any)) : gmap string indexer.UnnestInsertValueStruct :=
  fold_left (fun valuesMap update => indexer.updateValues valuesMap update.1 update.2)
    updates valuesMap.

(** The columns of the bulk inserts of labels. *)
Definition transaction_label_columns : list string :=
  ["id"; "address"; "block_number"; "block_hash"; "caller_address"; "label_name";
   "label_type"; "origin_address"; "label"; "transaction_hash"; "label_data";
   "block_timestamp"].

Definition event_label_columns : list string :=
  ["id"; "label"; "transaction_hash"; "log_index"; "block_number"; "block_hash";
   "block_timestamp"; "caller_address"; "origin_address"; "address"; "label_name";
   "label_type"; "label_data"].

(** A raw transaction that [WriteRawTransactions] can turn into a row: its
    two addresses decode and its numeric fields parse. *)
Definition parses (field : string) : bool :=
  match (indexer.hexStringToBigInt field).2 with
  | None => true
  | Some _ => false
  end.

Definition writable_raw (rawTransaction : indexer.RawTransaction.t) : bool :=
  decodable (indexer.RawTransaction.FromAddress rawTransaction) &&
  decodable (indexer.RawTransaction.ToAddress rawTransaction) &&
  forallb parses (numeric_fields rawTransaction).

(** What the write of [given] records leaves in the open transaction: nothing
    when there is no record, else one statement the server accepted, with
    [columns] arrays of [rows] values. *)
Definition batch `{indexer.PostgreSQLpgx} (given rows columns : nat)
    (statements : list indexer.Statement) : Prop :=
  match given with
  | O => statements = []
  | S _ =>
      exists statement : indexer.Statement,
        statements = [statement] /\
        indexer.tx_Exec statement = None /\
        aligned rows statement /\
        length (indexer.arguments statement) = columns
  end.

(** What one of the guarded writes of [WriteDataToCustomerDB] does to the
    open transaction [tx]: it adds the statements the server accepted, a
    whole batch when it reports no error and none when it reports one. *)
Definition written `{indexer.PostgreSQLpgx} (given rows columns : nat) (tx : indexer.Tx)
    (out : indexer.Tx * option error) (statements : list indexer.Statement) : Prop :=
  indexer.executed out.1 = (indexer.executed tx ++ statements)%list /\
  Forall (fun statement => indexer.tx_Exec statement = None) statements /\
  match out.2 with
  | None => indexer.failed out.1 = indexer.failed tx /\ batch given rows columns statements
  | Some _ => statements = []
  end.

(** The raw transaction the decoder keeps for a transaction of a block. *)
Definition raw_of (b : evm.MantleBlock.t) (tx : evm.MantleTransaction.t)
    : indexer.RawTransaction.t := {|
  indexer.RawTransaction.Hash := evm.MantleTransaction.Hash tx;
  indexer.RawTransaction.BlockHash := evm.MantleTransaction.BlockHash tx;
  indexer.RawTransaction.BlockTimestamp := evm.MantleBlock.Timestamp b;
  indexer.RawTransaction.BlockNumber := evm.MantleBlock.BlockNumber b;
  indexer.RawTransaction.FromAddress := evm.MantleTransaction.FromAddress tx;
  indexer.RawTransaction.ToAddress := evm.MantleTransaction.ToAddress tx;
  indexer.RawTransaction.Gas := evm.MantleTransaction.Gas tx;
  indexer.RawTransaction.GasPrice := evm.MantleTransaction.GasPrice tx;
  indexer.RawTransaction.Input := evm.MantleTransaction.Input tx;
  indexer.RawTransaction.Nonce := evm.MantleTransaction.Nonce tx;
  indexer.RawTransaction.MaxFeePerGas := evm.MantleTransaction.MaxFeePerGas tx;
  indexer.RawTransaction.MaxPriorityFeePerGas := evm.MantleTransaction.MaxPriorityFeePerGas tx;
  indexer.RawTransaction.TransactionIndex := evm.MantleTransaction.TransactionIndex tx;
  indexer.RawTransaction.TransactionType := evm.MantleTransaction.TransactionType tx;
  indexer.RawTransaction.Value := evm.MantleTransaction.Value tx;
  indexer.RawTransaction.L1BlockNumber := None
|}.

(** The ABI texts [CopyAbiJobs] copies, the text it stores for them, and
    what a row it inserts for a job looks like. *)
Definition well_formed (abi : string) : bool :=
  (2 <? len abi) &&
  bool_decide (indexer.byte_at abi 0 = Some "["%char) &&
  bool_decide (indexer.byte_at abi (len abi - 1) = Some "]"%char).

Definition unbracket (abi : string) : string :=
  slice_to (Z.to_nat (len abi - 1) - 1) (slice_from 1 abi).

Definition copied (destCustomerId : string) (abiJob : indexer.AbiJob.t)
    (row : indexer.AbiJobRow.t) : Prop :=
  indexer.AbiJobRow.address row = indexer.AbiJob.Address abiJob /\
  indexer.AbiJobRow.user_id row = indexer.AbiJob.UserID abiJob /\
  indexer.AbiJobRow.customer_id row = destCustomerId /\
  indexer.AbiJobRow.abi_selector row = indexer.AbiJob.AbiSelector abiJob /\
  indexer.AbiJobRow.chain row = indexer.AbiJob.Chain abiJob /\
  indexer.AbiJobRow.abi_name row = indexer.AbiJob.AbiName abiJob /\
  indexer.AbiJobRow.status row = "true" /\
  indexer.AbiJobRow.historical_crawl_status row = "pending" /\
  indexer.AbiJobRow.progress row = 0 /\
  indexer.AbiJobRow.moonworm_task_pickedup row = false /\
  indexer.AbiJobRow.abi row = unbracket (indexer.AbiJob.Abi abiJob).

(** The key under which [ConvertToCustomerUpdatedAndDeployBlockDicts] files
    a job, and what it keeps of a job as an entry. *)
Definition address_key (abiJob : indexer.AbiJob.t) : string :=
  "0x" ++ hex.EncodeToString (indexer.AbiJob.Address abiJob).

Definition entry_of (abiJob : indexer.AbiJob.t) : indexer.AbiEntry.t := {|
  indexer.AbiEntry.AbiJSON := indexer.AbiJob.Abi abiJob;
  indexer.AbiEntry.AbiName := indexer.AbiJob.AbiName abiJob;
  indexer.AbiEntry.AbiType := indexer.AbiJob.AbiType abiJob
|}.

(** The entry a customer has under an address and a selector. *)
Definition abi_of (customerUpdatesDict : gmap string indexer.CustomerUpdates.t)
    (customer address selector : string) : option indexer.AbiEntry.t :=
  match customerUpdatesDict !! customer with
  | None => None
  | Some customerUpdate =>
      match indexer.CustomerUpdates.Abis customerUpdate !! address with
      | None => None
      | Some entries => entries !! selector
      end
  end.

(** What every label that leaves the decoder looks like. *)
Definition decoder_event (label : indexer.EventLabel.t) : Prop :=
  indexer.EventLabel.LabelType label = "event" /\
  (indexer.EventLabel.Label label = indexer.SeerCrawlerLabel \/
   indexer.EventLabel.Label label = indexer.SeerCrawlerRawLabel) /\
  indexer.EventLabel.CallerAddress label = "".

Definition decoder_call (label : indexer.TransactionLabel.t) : Prop :=
  indexer.TransactionLabel.LabelType label = "tx_call" /\
  (indexer.TransactionLabel.Label label = indexer.SeerCrawlerLabel \/
   indexer.TransactionLabel.Label label = indexer.SeerCrawlerRawLabel) /\
  indexer.TransactionLabel.CallerAddress label =
    indexer.TransactionLabel.OriginAddress label.

(** What a label of [DecodeProtoEntireBlockToLabels] takes from the block,
    the transaction and the log it is made for. *)
Definition call_of (b : evm.MantleBlock.t) (tx : evm.MantleTransaction.t)
    (label : indexer.TransactionLabel.t) : Prop :=
  indexer.TransactionLabel.TransactionHash label = evm.MantleTransaction.Hash tx /\
  indexer.TransactionLabel.Address label = evm.MantleTransaction.ToAddress tx /\
  indexer.TransactionLabel.CallerAddress label = evm.MantleTransaction.FromAddress tx /\
  indexer.TransactionLabel.OriginAddress label = evm.MantleTransaction.FromAddress tx /\
  indexer.TransactionLabel.BlockNumber label = evm.MantleTransaction.BlockNumber tx /\
  indexer.TransactionLabel.BlockHash label = evm.MantleTransaction.BlockHash tx /\
  indexer.TransactionLabel.BlockTimestamp label = evm.MantleBlock.Timestamp b /\
  decoder_call label.

Definition event_of (b : evm.MantleBlock.t) (tx : evm.MantleTransaction.t)
    (e : evm.MantleEventLog.t) (label : indexer.EventLabel.t) : Prop :=
  indexer.EventLabel.TransactionHash label = evm.MantleEventLog.TransactionHash e /\
  indexer.EventLabel.Address label = evm.MantleEventLog.Address e /\
  indexer.EventLabel.OriginAddress label = evm.MantleTransaction.FromAddress tx /\
  indexer.EventLabel.BlockNumber label = evm.MantleEventLog.BlockNumber e /\
  indexer.EventLabel.BlockHash label = evm.MantleEventLog.BlockHash e /\
  indexer.EventLabel.LogIndex label = evm.MantleEventLog.LogIndex e /\
  indexer.EventLabel.BlockTimestamp label = evm.MantleBlock.Timestamp b /\
  decoder_event label.

(** The labels of the transactions and of the logs of the blocks of a
    list. *)
Definition calls_of (Blocks : list evm.MantleBlock.t)
    (label : indexer.TransactionLabel.t) : Prop :=
  exists (b : evm.MantleBlock.t) (tx : evm.MantleTransaction.t),
    In b Blocks /\ In tx (evm.MantleBlock.Transactions b) /\ call_of b tx label.

Definition events_of (Blocks : list evm.MantleBlock.t)
    (label : indexer.EventLabel.t) : Prop :=
  exists (b : evm.MantleBlock.t) (tx : evm.MantleTransaction.t) (e : evm.MantleEventLog.t),
    In b Blocks /\ In tx (evm.MantleBlock.Transactions b) /\
    In e (evm.MantleTransaction.Logs tx) /\ event_of b tx e label.

(** The labels a task has gathered are labels of its block. *)
Definition block_labels `{evm.Client} (b : evm.MantleBlock.t) (w : evm.worker) : Prop :=
  Forall (calls_of [b]) (evm.localTxLabels w) /\
  Forall (events_of [b]) (evm.localEventLabels w).

(** What a label of [DecodeProtoTransactionsToLabels] takes from its
    transaction and from the cache of block times. *)
Definition labels_transaction (blocksCache : gmap Z Z) (transaction : evm.MantleTransaction.t)
    (label : indexer.TransactionLabel.t) : Prop :=
  10 <= len (evm.MantleTransaction.Input transaction) /\
  indexer.TransactionLabel.TransactionHash label = evm.MantleTransaction.Hash transaction /\
  indexer.TransactionLabel.Address label = evm.MantleTransaction.ToAddress transaction /\
  indexer.TransactionLabel.CallerAddress label = evm.MantleTransaction.FromAddress transaction /\
  indexer.TransactionLabel.OriginAddress label = evm.MantleTransaction.FromAddress transaction /\
  indexer.TransactionLabel.BlockNumber label = evm.MantleTransaction.BlockNumber transaction /\
  indexer.TransactionLabel.BlockTimestamp label =
    default 0 (blocksCache !! evm.MantleTransaction.BlockNumber transaction) /\
  decoder_call label.

(** An object of the ABI file that [CreateJobsFromAbi] turns into a row when
    the address decodes, and what the row takes from it. *)
Definition insertable (abiJob : indexer.AbiItem.t) : Prop :=
  indexer.AbiItem.marshalErr abiJob = None /\
  indexer.AbiItem.parseErr abiJob = None /\
  (indexer.AbiItem.type_ abiJob = Some "event" \/
   indexer.AbiItem.type_ abiJob = Some "function") /\
  indexer.AbiItem.name abiJob <> None.

Definition created (chain address customerID userID : string) (deployBlock : Z)
    (abiJob : indexer.AbiItem.t) (job : indexer.CreatedJob.t) : Prop :=
  indexer.decodeAddress address =
    (indexer.AbiJobRow.address (indexer.CreatedJob.row job), None) /\
  indexer.AbiJobRow.user_id (indexer.CreatedJob.row job) = userID /\
  indexer.AbiJobRow.customer_id (indexer.CreatedJob.row job) = customerID /\
  indexer.AbiJobRow.chain (indexer.CreatedJob.row job) = chain /\
  Some (indexer.AbiJobRow.abi_name (indexer.CreatedJob.row job)) =
    indexer.AbiItem.name abiJob /\
  indexer.AbiJobRow.abi (indexer.CreatedJob.row job) = indexer.AbiItem.marshalled abiJob /\
  indexer.AbiJobRow.status (indexer.CreatedJob.row job) = "true" /\
  indexer.AbiJobRow.historical_crawl_status (indexer.CreatedJob.row job) = "pending" /\
  indexer.AbiJobRow.progress (indexer.CreatedJob.row job) = 0 /\
  indexer.AbiJobRow.moonworm_task_pickedup (indexer.CreatedJob.row job) = false /\
  indexer.CreatedJob.deployment_block_number job = deployBlock /\
  indexer.AbiJobRow.abi_selector (indexer.CreatedJob.row job) =
    (if bool_decide (indexer.AbiItem.type_ abiJob = Some "event")
     then indexer.AbiItem.Events_ID abiJob (default "" (indexer.AbiItem.name abiJob))
     else "0x" ++ hex.EncodeToString
                    (indexer.AbiItem.Methods_ID abiJob
                       (default "" (indexer.AbiItem.name abiJob)))).

(** ** Example environments and inputs *)

(** A formatter that copies every format; it agrees with Go on the formats
    without a verb. *)
Definition copy_fmt : Fmt := {|
  Sprintf := fun format => format;
  Sprintf_verbatim := fun _ _ => eq_refl
|}.

(** A pool and a server on which nothing fails. *)
Definition healthy_database : indexer.PostgreSQLpgx := {|
  indexer.pool_Acquire := None;
  indexer.conn_Begin := None;
  indexer.tx_Exec := fun _ => None;
  indexer.commit_fault := None
|}.

(** A server that accepts the inserts into a labels table and rejects every
    other statement. *)
Definition rejecting_database : indexer.PostgreSQLpgx := {|
  indexer.pool_Acquire := None;
  indexer.conn_Begin := None;
  indexer.tx_Exec := fun statement =>
    if strings.Contains (indexer.sql statement) "_labels" then None
    else Some (errorString "ERROR: permission denied");
  indexer.commit_fault := None
|}.

(** The pointers that are nil, by their types. *)
Definition typed_nil_pointer (rv : value) : bool :=
  match rv with
  | bigIntPtr None | uint64Ptr None => true
  | _ => false
  end.

Definition transfer_label : indexer.TransactionLabel.t := {|
  indexer.TransactionLabel.Address := "0x0a";
  indexer.TransactionLabel.BlockNumber := 1;
  indexer.TransactionLabel.BlockHash := "0xbb";
  indexer.TransactionLabel.CallerAddress := "0x0b";
  indexer.TransactionLabel.LabelName := "transfer";
  indexer.TransactionLabel.LabelType := "tx_call";
  indexer.TransactionLabel.OriginAddress := "0x0b";
  indexer.TransactionLabel.Label := "seer";
  indexer.TransactionLabel.TransactionHash := "0xcc";
  indexer.TransactionLabel.LabelData := "{}";
  indexer.TransactionLabel.BlockTimestamp := 9
|}.

(** A raw transaction whose numeric fields are [gas], and the rest zero. *)
Definition raw_with_gas (gas : string) : indexer.RawTransaction.t := {|
  indexer.RawTransaction.Hash := "0xcc";
  indexer.RawTransaction.BlockHash := "0xbb";
  indexer.RawTransaction.BlockTimestamp := 9;
  indexer.RawTransaction.BlockNumber := 1;
  indexer.RawTransaction.FromAddress := "0x0b";
  indexer.RawTransaction.ToAddress := "0x0a";
  indexer.RawTransaction.Gas := gas;
  indexer.RawTransaction.GasPrice := "0x0";
  indexer.RawTransaction.Input := "0x";
  indexer.RawTransaction.Nonce := "0x0";
  indexer.RawTransaction.MaxFeePerGas := "";
  indexer.RawTransaction.MaxPriorityFeePerGas := "";
  indexer.RawTransaction.TransactionIndex := 0;
  indexer.RawTransaction.TransactionType := 2;
  indexer.RawTransaction.Value := "0x0";
  indexer.RawTransaction.L1BlockNumber := None
|}.

Definition fresh_tx : indexer.Tx :=
  {| indexer.executed := []; indexer.failed := false; indexer.drawn := 0 |}.

(** The statement [WriteTransactions] runs for [transfer_label] on ethereum. *)
Definition transfer_insert : indexer.Statement := {|
  indexer.sql :=
    "INSERT INTO ethereum_labels (id,address,block_number,block_hash,caller_address,label_name,label_type,origin_address,label,transaction_hash,label_data,block_timestamp) SELECT * FROM unnest($1::UUID[],$2::BYTEA[],$3::BIGINT[],$4::TEXT[],$5::BYTEA[],$6::TEXT[],$7::TEXT[],$8::BYTEA[],$9::TEXT[],$10::TEXT[],$11::jsonb[],$12::BIGINT[]) ON CONFLICT DO NOTHING";
  indexer.arguments :=
    [ [boxed (UUID 0)]; [boxed (bytes (Some [10]))]; [boxed (uint64 1)];
      [boxed (str "0xbb")]; [boxed (bytes (Some [11]))]; [boxed (str "transfer")];
      [boxed (str "tx_call")]; [boxed (bytes (Some [11]))]; [boxed (str "seer")];
      [boxed (str "0xcc")]; [boxed (str "{}")]; [boxed (uint64 9)] ]
|}.

(** A block-index row of block 5. *)
Definition example_index : indexer.BlockIndex.t := {|
  indexer.BlockIndex.BlockNumber := 5;
  indexer.BlockIndex.BlockHash := "0xbb";
  indexer.BlockIndex.BlockTimestamp := 9;
  indexer.BlockIndex.ParentHash := "0xaa";
  indexer.BlockIndex.RowID := 0;
  indexer.BlockIndex.Path := "batch/5";
  indexer.BlockIndex.L1BlockNumber := None
|}.

(** The marker of a provider that refuses a query with too many results. *)
Definition too_many_results : string := "query returned more than 10000 results".

(** A provider with one log in every block, the number of the block, that
    refuses the windows of [K] blocks and more. *)
Definition limited_provider (K : Z) (n : nat) (first last : Z) : list Z + string :=
  if K <=? last - first + 1 then inr too_many_results
  else inl (seqZ first (last - first + 1)).

(** A provider that has the logs [logsOf b] of every block [b] and refuses
    the windows of [K] blocks and more. *)
Definition capped_provider {EventJson : Type} (logsOf : Z -> list EventJson) (K : Z)
    (n : nat) (first last : Z) : list EventJson + string :=
  if K <=? last - first + 1 then inr too_many_results
  else inl (concat (map logsOf (seqZ first (last - first + 1)))).

(** Blocks 2 and 5 arrive, the request for block 3 fails and the task of
    block 4 panics. *)
Definition flaky_node (b : Z) : evm.task Z :=
  if b =? 3 then evm.failed "block 3: connection reset"
  else if b =? 4 then evm.panicked "runtime error: index out of range"
  else evm.fetched b.

(** A node that has every block. *)
Definition sound_node (b : Z) : evm.task Z := evm.fetched b.

(** A marshaller that writes an object as its keys in order, between
    braces, and the nil map as null. *)
Definition keys_marshal (object : option (gmap string evm.jvalue)) : string * option string :=
  match object with
  | None => ("null", None)
  | Some m => ("{" ++ strings.Join (merge_sort String.le (map fst (map_to_list m))) "," ++ "}", None)
  end.

Definition transfer_log : evm.MantleEventLog.t := {|
  evm.MantleEventLog.Address := "0xtoken";
  evm.MantleEventLog.Topics := ["0xddf252ad"; "0x0b"; "0x0c"];
  evm.MantleEventLog.Data := "0x03e8";
  evm.MantleEventLog.BlockNumber := 1;
  evm.MantleEventLog.BlockHash := "0xbb";
  evm.MantleEventLog.TransactionHash := "0xcc";
  evm.MantleEventLog.LogIndex := 7
|}.

(** A transaction to the token with the given input and one log. *)
Definition token_transaction (input : string) : evm.MantleTransaction.t := {|
  evm.MantleTransaction.Hash := "0xcc";
  evm.MantleTransaction.BlockNumber := 1;
  evm.MantleTransaction.BlockHash := "0xbb";
  evm.MantleTransaction.FromAddress := "0x0b";
  evm.MantleTransaction.ToAddress := "0xtoken";
  evm.MantleTransaction.Gas := "0x5208";
  evm.MantleTransaction.GasPrice := "0x1";
  evm.MantleTransaction.MaxFeePerGas := "";
  evm.MantleTransaction.MaxPriorityFeePerGas := "";
  evm.MantleTransaction.Input := input;
  evm.MantleTransaction.Nonce := "0x0";
  evm.MantleTransaction.TransactionIndex := 0;
  evm.MantleTransaction.TransactionType := 2;
  evm.MantleTransaction.Value := "0x0";
  evm.MantleTransaction.Logs := [transfer_log]
|}.

Definition example_block (input : string) : evm.MantleBlock.t := {|
  evm.MantleBlock.BlockNumber := 1;
  evm.MantleBlock.Timestamp := 9;
  evm.MantleBlock.Transactions := [token_transaction input]
|}.

(** A client whose ABI parser accepts every text, whose decoders succeed
    with one argument or fail as [decodes] says, whose node answers every
    receipt request with [receipt], and for which every batch unmarshals to
    [batch]. *)
Definition example_client (decodes : bool) (receipt : option Z * option string)
    (batch : list evm.MantleBlock.t) : evm.Client := {|
  evm.ABI := unit;
  evm.GetABI := fun _ => (Some tt, None);
  evm.DecodeTransactionInputDataToInterface := fun _ _ =>
    if decodes then (Some (<["amount" := evm.jargument "1000"]> ∅), None)
    else (None, Some "abi: cannot unmarshal");
  evm.DecodeLogArgsToLabelData := fun _ _ _ =>
    if decodes then (Some (<["value" := evm.jargument "1000"]> ∅), None)
    else (None, Some "abi: cannot unmarshal");
  evm.TransactionReceipt := fun _ => receipt;
  evm.json_Marshal := keys_marshal;
  evm.proto_Unmarshal := fun _ => (batch, None)
|}.

(** The ABI map of the token: the function [transfer] and the event
    [Transfer], neither parsed yet. *)
Definition token_abis (C : evm.Client) : gmap string (gmap string (@evm.AbiEntry C)) :=
  <["0xtoken" :=
      <["0xa9059cbb" := {| evm.AbiJSON := "[transfer]"; evm.AbiName := "transfer";
                           evm.Abi := None; evm.Once := false |}]>
        (<["0xddf252ad" := {| evm.AbiJSON := "[Transfer]"; evm.AbiName := "Transfer";
                              evm.Abi := None; evm.Once := false |}]> ∅)]> ∅.

Definition idle_worker (C : evm.Client) : @evm.worker C := {|
  evm.localEventLabels := []; evm.localTxLabels := []; evm.localRawTransactions := [];
  evm.errorChan := []; evm.abiMap := token_abis C; evm.racing := fun _ _ => evm.alone
|}.

(** A client like [example_client] whose ABI parser rejects every text. *)
Definition broken_abi_client (batch : list evm.MantleBlock.t) : evm.Client := {|
  evm.ABI := unit;
  evm.GetABI := fun _ => (None, Some "invalid character");
  evm.DecodeTransactionInputDataToInterface := fun _ _ =>
    (Some (<["amount" := evm.jargument "1000"]> ∅), None);
  evm.DecodeLogArgsToLabelData := fun _ _ _ =>
    (Some (<["value" := evm.jargument "1000"]> ∅), None);
  evm.TransactionReceipt := fun _ => (Some 1, None);
  evm.json_Marshal := keys_marshal;
  evm.proto_Unmarshal := fun _ => (batch, None)
|}.

(** A block with one transaction: a call of a router that is not in the
    ABI map, with two logs of the token. *)
Definition swap_transaction : evm.MantleTransaction.t := {|
  evm.MantleTransaction.Hash := "0xcc";
  evm.MantleTransaction.BlockNumber := 1;
  evm.MantleTransaction.BlockHash := "0xbb";
  evm.MantleTransaction.FromAddress := "0x0b";
  evm.MantleTransaction.ToAddress := "0xrouter";
  evm.MantleTransaction.Gas := "0x5208";
  evm.MantleTransaction.GasPrice := "0x1";
  evm.MantleTransaction.MaxFeePerGas := "";
  evm.MantleTransaction.MaxPriorityFeePerGas := "";
  evm.MantleTransaction.Input := "0x38ed1739aa";
  evm.MantleTransaction.Nonce := "0x0";
  evm.MantleTransaction.TransactionIndex := 0;
  evm.MantleTransaction.TransactionType := 2;
  evm.MantleTransaction.Value := "0x0";
  evm.MantleTransaction.Logs := [transfer_log; transfer_log]
|}.

Definition swap_block : evm.MantleBlock.t := {|
  evm.MantleBlock.BlockNumber := 1;
  evm.MantleBlock.Timestamp := 9;
  evm.MantleBlock.Transactions := [swap_transaction]
|}.

(** An ABI job with the given ABI text, as [SelectAbiJobs] reads it. *)
Definition job_with_abi (abi : string) : indexer.AbiJob.t := {|
  indexer.AbiJob.ID := "7c9e6679";
  indexer.AbiJob.Address := [10; 27];
  indexer.AbiJob.UserID := "user";
  indexer.AbiJob.CustomerID := "customer";
  indexer.AbiJob.AbiSelector := "0xa9059cbb";
  indexer.AbiJob.Chain := "ethereum";
  indexer.AbiJob.AbiName := "transfer";
  indexer.AbiJob.Abi := abi;
  indexer.AbiJob.AbiType := "function";
  indexer.AbiJob.DeploymentBlockNumber := None
|}.

(** The object of the function [transfer] in an ABI file, and a server that
    takes the rows of [transfer] and refuses every other row. *)
Definition function_item (name : string) : indexer.AbiItem.t := {|
  indexer.AbiItem.type_ := Some "function";
  indexer.AbiItem.name := Some name;
  indexer.AbiItem.marshalled := "{}";
  indexer.AbiItem.marshalErr := None;
  indexer.AbiItem.parseErr := None;
  indexer.AbiItem.Events_ID := fun _ => "0x00";
  indexer.AbiItem.Methods_ID := fun _ => [169; 5; 156; 187]
|}.

Definition transfer_only (job : indexer.CreatedJob.t) : option error :=
  if String.eqb (indexer.AbiJobRow.abi_name (indexer.CreatedJob.row job)) "transfer"
  then None
  else Some (errorString "ERROR: value too long").

(** An ABI job with the given identifier. *)
Definition job_with_id (id : string) : indexer.AbiJob.t := {|
  indexer.AbiJob.ID := id;
  indexer.AbiJob.Address := [10; 27];
  indexer.AbiJob.UserID := "user";
  indexer.AbiJob.CustomerID := "customer";
  indexer.AbiJob.AbiSelector := "0xa9059cbb";
  indexer.AbiJob.Chain := "ethereum";
  indexer.AbiJob.AbiName := "transfer";
  indexer.AbiJob.Abi := "[{}]";
  indexer.AbiJob.AbiType := "function";
  indexer.AbiJob.DeploymentBlockNumber := None
|}.

(** A server that runs every statement and then fails to commit. *)
Definition commit_failing_database : indexer.PostgreSQLpgx := {|
  indexer.pool_Acquire := None;
  indexer.conn_Begin := None;
  indexer.tx_Exec := fun _ => None;
  indexer.commit_fault := Some (errorString "conn closed")
|}.

(** The converters of a node whose JSON blocks are their numbers and carry
    no transaction. *)
Definition bare_block (b : Z) : evm.MantleBlock.t := {|
  evm.MantleBlock.BlockNumber := b;
  evm.MantleBlock.Timestamp := 0;
  evm.MantleBlock.Transactions := []
|}.

Definition bare_transaction (hash : string) : evm.MantleTransaction.t := {|
  evm.MantleTransaction.Hash := hash;
  evm.MantleTransaction.BlockNumber := 0;
  evm.MantleTransaction.BlockHash := "";
  evm.MantleTransaction.FromAddress := "";
  evm.MantleTransaction.ToAddress := "";
  evm.MantleTransaction.Gas := "";
  evm.MantleTransaction.GasPrice := "";
  evm.MantleTransaction.MaxFeePerGas := "";
  evm.MantleTransaction.MaxPriorityFeePerGas := "";
  evm.MantleTransaction.Input := "0x";
  evm.MantleTransaction.Nonce := "";
  evm.MantleTransaction.TransactionIndex := 0;
  evm.MantleTransaction.TransactionType := 0;
  evm.MantleTransaction.Value := "";
  evm.MantleTransaction.Logs := []
|}.

(** A client like [example_client] whose decoders fail and whose
    [json.Marshal] rejects every value. *)
Definition strict_marshal_client : evm.Client := {|
  evm.ABI := unit;
  evm.GetABI := fun _ => (Some tt, None);
  evm.DecodeTransactionInputDataToInterface := fun _ _ =>
    (None, Some "abi: cannot unmarshal");
  evm.DecodeLogArgsToLabelData := fun _ _ _ => (None, Some "abi: cannot unmarshal");
  evm.TransactionReceipt := fun _ => (Some 1, None);
  evm.json_Marshal := fun _ => ("", Some "json: unsupported value");
  evm.proto_Unmarshal := fun _ => ([], None)
|}.

(** A worker like [idle_worker] in a call with two slots or more: at each
    of its decodes the task of another block assigns nil to [decodeErr]
    before the round tests it. *)
Definition overtaken_worker (C : evm.Client) : @evm.worker C := {|
  evm.localEventLabels := []; evm.localTxLabels := []; evm.localRawTransactions := [];
  evm.errorChan := []; evm.abiMap := token_abis C;
  evm.racing := fun _ _ => {| evm.beforeTest := Some None; evm.beforeStore := None |}
|}.

(** A node that has every block but [missing], for which it answers with
    the JSON value null. *)
Definition null_node (missing : Z) (b : Z) : evm.task (option Z) :=
  if b =? missing then evm.fetched None else evm.fetched (Some b).

(** * Properties *)

(** ** Helper lemmas on strings and [switch] *)

Lemma switch_default {A : Type} (tag : string) (cases : list (string * A)) (d : A) :
  ~ In tag (map fst cases) -> switch tag cases d = d.
Proof.
  induction cases as [| [label result] rest IH]; simpl; intros Hnot; [reflexivity |].
  destruct (String.eqb_spec tag label) as [-> | _].
  - exfalso. apply Hnot. now left.
  - apply IH. tauto.
Qed.

Lemma existsb_eqb_In (chain : string) (l : list string) :
  existsb (String.eqb chain) l = true <-> In chain l.
Proof.
  rewrite existsb_exists. split.
  - intros (x & Hin & Heq). apply String.eqb_eq in Heq. now subst.
  - intros Hin. exists chain. split; [assumption | apply String.eqb_refl].
Qed.

Lemma string_length_append (s t : string) :
  String.length (s ++ t) = (String.length s + String.length t)%nat.
Proof.
  induction s as [| c s IH]; [reflexivity |].
  change (String c s ++ t) with (String c (s ++ t)). simpl. now rewrite IH.
Qed.

Lemma append_cancel_r (t s1 s2 : string) : s1 ++ t = s2 ++ t -> s1 = s2.
Proof.
  revert s2. induction s1 as [| c1 s1 IH]; intros [| c2 s2] Heq.
  - reflexivity.
  - apply (f_equal String.length) in Heq.
    change (String c2 s2 ++ t) with (String c2 (s2 ++ t)) in Heq.
    change ("" ++ t) with t in Heq. simpl in Heq.
    rewrite string_length_append in Heq. lia.
  - apply (f_equal String.length) in Heq.
    change (String c1 s1 ++ t) with (String c1 (s1 ++ t)) in Heq.
    change ("" ++ t) with t in Heq. simpl in Heq.
    rewrite string_length_append in Heq. lia.
  - change (String c1 (s1 ++ t) = String c2 (s2 ++ t)) in Heq.
    injection Heq as -> Hrest. f_equal. now apply IH.
Qed.

Lemma percent_free_append (s t : string) :
  percent_free (s ++ t) = percent_free s && percent_free t.
Proof.
  induction s as [| c s IH]; [reflexivity |].
  change (String c s ++ t) with (String c (s ++ t)). simpl.
  rewrite IH. now rewrite andb_assoc.
Qed.

(** Every known chain resolves to its own blocks and transactions table. *)
Lemma known_chain_tables (chain : string) :
  In chain known_chains ->
  indexer.BlocksTableName chain = (chain ++ "_blocks", None) /\
  indexer.TransactionsTableName chain = (chain ++ "_transactions", None).
Proof.
  unfold known_chains. simpl.
  intros Hin.
  repeat (destruct Hin as [<- | Hin]; [split; reflexivity |]).
  destruct Hin.
Qed.

Lemma unknown_chain_tables (chain : string) :
  ~ In chain known_chains ->
  indexer.BlocksTableName chain = ("", Some (errorString "Unsupported blockchain")) /\
  indexer.TransactionsTableName chain = ("", Some (errorString "Unsupported blockchain")).
Proof.
  intros Hnot. split; apply switch_default; exact Hnot.
Qed.

Lemma known_chains_dec (chain : string) : {In chain known_chains} + {~ In chain known_chains}.
Proof. apply in_dec, string_dec. Qed.

Lemma labels_table_verbatim `{Fmt} (chain : string) :
  percent_free chain = true -> indexer.LabelsTableName chain = chain ++ "_labels".
Proof.
  intros Hfree. unfold indexer.LabelsTableName. apply Sprintf_verbatim.
  rewrite percent_free_append, Hfree. reflexivity.
Qed.

Lemma customer_table_verbatim `{Fmt} (chain : string) :
  percent_free chain = true ->
  indexer.CustomerDBTransactionsTableName chain = chain ++ "_transactions".
Proof.
  intros Hfree. unfold indexer.CustomerDBTransactionsTableName. apply Sprintf_verbatim.
  rewrite percent_free_append, Hfree. reflexivity.
Qed.

(** ** Table names *)

(** C3, as the code has it. The blocks and transactions resolvers map a known
    chain [C] to [<C>_blocks] and [<C>_transactions], give the error
    "Unsupported blockchain" for every other string, and send different known
    chains to different tables. The labels resolver has no whitelist and no
    error result: it maps every chain string without a format verb to
    [<C>_labels], whatever the formatter, and is injective on these strings. *)
Theorem table_names_of_chains (F : Fmt) (C : string) :
  (In C known_chains ->
     indexer.BlocksTableName C = (C ++ "_blocks", None) /\
     indexer.TransactionsTableName C = (C ++ "_transactions", None)) /\
  (~ In C known_chains ->
     indexer.BlocksTableName C = ("", Some (errorString "Unsupported blockchain")) /\
     indexer.TransactionsTableName C = ("", Some (errorString "Unsupported blockchain"))) /\
  (forall C' : string,
     In C known_chains -> In C' known_chains ->
     (indexer.BlocksTableName C = indexer.BlocksTableName C' \/
      indexer.TransactionsTableName C = indexer.TransactionsTableName C') ->
     C = C') /\
  (percent_free C = true ->
     indexer.LabelsTableName C = C ++ "_labels" /\
     (forall F' : Fmt, @indexer.LabelsTableName F' C = @indexer.LabelsTableName F C) /\
     (forall C' : string,
        percent_free C' = true ->
        indexer.LabelsTableName C = indexer.LabelsTableName C' -> C = C')).
Proof.
  split; [apply known_chain_tables |].
  split; [apply unknown_chain_tables |].
  split.
  - intros C' HC HC' Heq.
    destruct (known_chain_tables C HC) as [Hb Ht].
    destruct (known_chain_tables C' HC') as [Hb' Ht'].
    rewrite Hb, Hb', Ht, Ht' in Heq.
    destruct Heq as [Heq | Heq]; injection Heq as Heq;
      eapply append_cancel_r; exact Heq.
  - intros Hfree. split; [now apply labels_table_verbatim |]. split.
    + intros F'. now rewrite !labels_table_verbatim.
    + intros C' Hfree' Heq. rewrite !labels_table_verbatim in Heq by assumption.
      eapply append_cancel_r; exact Heq.
Qed.

Lemma table_names_of_chains_witness :
  (indexer.BlocksTableName "xai" = ("xai_blocks", None) /\
   indexer.TransactionsTableName "xai" = ("xai_transactions", None)) /\
  @indexer.LabelsTableName copy_fmt "xai" = "xai_labels".
Proof.
  pose proof (table_names_of_chains copy_fmt "xai") as (Hknown & _ & _ & Hlabels).
  split.
  - apply Hknown. unfold known_chains. simpl. tauto.
  - apply Hlabels. reflexivity.
Defined.

(** C3 as the specification has it fails for the labels table: a string that
    is no known chain is refused by the blocks resolver and still gets a
    labels table, under every formatter. *)
Lemma labels_table_of_unknown_chain :
  existsb (String.eqb "dogechain") known_chains = false /\
  indexer.BlocksTableName "dogechain" = ("", Some (errorString "Unsupported blockchain")) /\
  (forall F : Fmt, @indexer.LabelsTableName F "dogechain" = "dogechain_labels").
Proof.
  split; [reflexivity |]. split; [reflexivity |].
  intros F. apply labels_table_verbatim. reflexivity.
Qed.

(** ** The L1 flag and the [l1_block_number] column *)

Lemma IsBlockchainWithL1Chain_l1_anchored (C : string) :
  indexer.IsBlockchainWithL1Chain C = l1_anchored C.
Proof.
  destruct (known_chains_dec C) as [Hin | Hnot].
  - unfold known_chains in Hin. simpl in Hin.
    repeat (destruct Hin as [<- | Hin]; [reflexivity |]).
    destruct Hin.
  - unfold l1_anchored.
    destruct (existsb (String.eqb C) known_chains) eqn:Hex.
    + apply existsb_eqb_In in Hex. contradiction.
    + simpl. apply switch_default. intros Hin. apply Hnot.
      unfold known_chains. simpl in Hin |- *.
      repeat (destruct Hin as [<- | Hin]; [tauto |]).
      destruct Hin.
Qed.

Lemma l1_column_not_common :
  ~ In "l1_block_number" block_index_columns /\
  ~ In "l1_block_number" raw_transaction_columns.
Proof.
  split; intros Hin; simpl in Hin;
    repeat (destruct Hin as [Heq | Hin]; [discriminate Heq |]); destruct Hin.
Qed.

Lemma l1_column_iff (flag : bool) (common : list string) :
  ~ In "l1_block_number" common ->
  In "l1_block_number" (common ++ (if flag then ["l1_block_number"] else []))%list <->
  flag = true.
Proof.
  intros Hnot. destruct flag; split; intros Hyp; try reflexivity; try discriminate.
  - apply in_or_app. right. now left.
  - apply in_app_or in Hyp. destruct Hyp as [Hyp | []]. contradiction.
Qed.

(** C7. [IsBlockchainWithL1Chain] is true exactly for the known chains named
    [arbitrum_*], [game7*] and [xai*]. The block-index write of a known chain
    and every raw-transaction write that gets as far as its insert run one
    bulk insert, whose columns are the common ones followed by
    [l1_block_number] exactly when the flag of the chain is true; the
    block-index write of an unknown chain inserts nothing. *)
Theorem l1_block_number_column (F : Fmt) (P : indexer.PostgreSQLpgx) (C : string) :
  indexer.IsBlockchainWithL1Chain C = l1_anchored C /\
  (forall (tx : indexer.Tx) (indexes : list indexer.BlockIndex.t),
     (In C known_chains ->
      exists (columns : list string) (valuesMap : gmap string indexer.UnnestInsertValueStruct),
        columns =
          (block_index_columns ++
           (if indexer.IsBlockchainWithL1Chain C then ["l1_block_number"] else []))%list /\
        (In "l1_block_number" columns <-> indexer.IsBlockchainWithL1Chain C = true) /\
        indexer.writeBlockIndexToDB tx C indexes =
          indexer.executeBatchInsert tx (C ++ "_blocks") columns valuesMap
            "ON CONFLICT (block_number) DO NOTHING") /\
     (~ In C known_chains ->
      indexer.writeBlockIndexToDB tx C indexes =
        (tx, Some (errorString "Unsupported blockchain")))) /\
  (forall (tx : indexer.Tx) (rawTransactions : list indexer.RawTransaction.t),
     exists columns : list string,
       columns =
         (raw_transaction_columns ++
          (if indexer.IsBlockchainWithL1Chain C then ["l1_block_number"] else []))%list /\
       (In "l1_block_number" columns <-> indexer.IsBlockchainWithL1Chain C = true) /\
       ((exists err : error,
           indexer.WriteRawTransactions tx C rawTransactions = (tx, Some err)) \/
        (exists valuesMap : gmap string indexer.UnnestInsertValueStruct,
           indexer.WriteRawTransactions tx C rawTransactions =
             indexer.executeBatchInsert tx (indexer.CustomerDBTransactionsTableName C)
               columns valuesMap "ON CONFLICT DO NOTHING"))).
Proof.
  split; [apply IsBlockchainWithL1Chain_l1_anchored |]. split.
  - intros tx indexes. split.
    + intros Hin. destruct (known_chain_tables C Hin) as [Hblocks _].
      unfold indexer.writeBlockIndexToDB. rewrite Hblocks. cbv beta iota zeta.
      destruct (indexer.IsBlockchainWithL1Chain C).
      * eexists. eexists. split; [reflexivity |].
        split; [apply (l1_column_iff true), l1_column_not_common | reflexivity].
      * eexists. eexists. split; [reflexivity |].
        split; [apply (l1_column_iff false), l1_column_not_common |].
        rewrite app_nil_r. reflexivity.
    + intros Hnot. destruct (unknown_chain_tables C Hnot) as [Hblocks _].
      unfold indexer.writeBlockIndexToDB. rewrite Hblocks. reflexivity.
  - intros tx rawTransactions.
    unfold indexer.WriteRawTransactions. cbv beta iota zeta.
    destruct (indexer.IsBlockchainWithL1Chain C).
    + eexists. split; [reflexivity |].
      split; [apply (l1_column_iff true), l1_column_not_common |].
      match goal with
      | |- context [indexer.appendRawTransactions ?f ?m ?l] =>
          destruct (indexer.appendRawTransactions f m l) as [valuesMap [err |]]
      end.
      * left. exists err. reflexivity.
      * right. exists valuesMap. reflexivity.
    + eexists. split; [reflexivity |].
      split; [apply (l1_column_iff false), l1_column_not_common |].
      match goal with
      | |- context [indexer.appendRawTransactions ?f ?m ?l] =>
          destruct (indexer.appendRawTransactions f m l) as [valuesMap [err |]]
      end.
      * left. exists err. reflexivity.
      * right. exists valuesMap. rewrite app_nil_r. reflexivity.
Qed.

Lemma l1_block_number_column_witness :
  exists (columns : list string) (valuesMap : gmap string indexer.UnnestInsertValueStruct),
    columns = (block_index_columns ++ ["l1_block_number"])%list /\
    @indexer.writeBlockIndexToDB healthy_database fresh_tx "xai" [] =
      @indexer.executeBatchInsert healthy_database fresh_tx "xai_blocks" columns valuesMap
        "ON CONFLICT (block_number) DO NOTHING".
Proof.
  pose proof (l1_block_number_column copy_fmt healthy_database "xai") as (_ & Hblocks & _).
  destruct (Hblocks fresh_tx []) as [Hknown _].
  destruct Hknown as (columns & valuesMap & Hcolumns & _ & Hwrite).
  - unfold known_chains. simpl. tauto.
  - exists columns, valuesMap. split; [exact Hcolumns | exact Hwrite].
Defined.

(** ** The value builder *)

(** C8. [determineValue] gives the untyped nil for the untyped nil and for a
    nil pointer of either pointer type, and returns every other value as it
    is, a nil slice included; [updateValues] appends the normalised value to
    the column of a key that the map has and leaves the map alone otherwise. *)
Theorem determineValue_normalises_nil (val : any) :
  indexer.determineValue val =
    match val with
    | nil_interface => nil_interface
    | boxed rv => if typed_nil_pointer rv then nil_interface else val
    end /\
  indexer.determineValue nil_interface = nil_interface /\
  indexer.determineValue (boxed (bigIntPtr None)) = nil_interface /\
  indexer.determineValue (boxed (uint64Ptr None)) = nil_interface /\
  indexer.determineValue (boxed (bytes None)) = boxed (bytes None) /\
  (forall (valuesMap : gmap string indexer.UnnestInsertValueStruct) (key : string)
          (entry : indexer.UnnestInsertValueStruct),
     valuesMap !! key = Some entry ->
     indexer.updateValues valuesMap key val !! key =
       Some {| indexer.Type_ := indexer.Type_ entry;
               indexer.Values := (indexer.Values entry ++ [indexer.determineValue val])%list |}) /\
  (forall (valuesMap : gmap string indexer.UnnestInsertValueStruct) (key : string),
     valuesMap !! key = None -> indexer.updateValues valuesMap key val = valuesMap).
Proof.
  split.
  { destruct val as [| rv]; [reflexivity |].
    destruct rv as [n | n | s | [b |] | k | [p |] | [p |]]; reflexivity. }
  repeat (split; [reflexivity |]).
  split.
  - intros valuesMap key entry Hkey. unfold indexer.updateValues. rewrite Hkey.
    apply lookup_insert_eq.
  - intros valuesMap key Hkey. unfold indexer.updateValues. rewrite Hkey. reflexivity.
Qed.

Lemma determineValue_normalises_nil_witness :
  indexer.updateValues (<["gas" := indexer.emptyColumn "NUMERIC"]> ∅) "gas"
    (boxed (bigIntPtr None)) !! "gas" =
  Some {| indexer.Type_ := "NUMERIC"; indexer.Values := [nil_interface] |}.
Proof.
  destruct (determineValue_normalises_nil (boxed (bigIntPtr None)))
    as (_ & _ & _ & _ & _ & Hpresent & _).
  exact (Hpresent (<["gas" := indexer.emptyColumn "NUMERIC"]> ∅) "gas"
           (indexer.emptyColumn "NUMERIC") (lookup_insert_eq _ _ _)).
Defined.

(** ** Addresses *)

(** C9. [decodeAddress] answers the single byte 0 without an error to every
    string shorter than two bytes, and hex-decodes what follows the first two
    bytes of every longer string, whatever these two bytes are. *)
Theorem decodeAddress_drops_two_bytes :
  (forall address : string,
     (String.length address < 2)%nat -> indexer.decodeAddress address = ([0], None)) /\
  indexer.decodeAddress "" = ([0], None) /\
  (forall (c1 c2 : ascii) (rest : string),
     indexer.decodeAddress (String c1 (String c2 rest)) = hex.DecodeString rest) /\
  (forall (c1 c2 d1 d2 : ascii) (rest : string),
     indexer.decodeAddress (String c1 (String c2 rest)) =
     indexer.decodeAddress (String d1 (String d2 rest))) /\
  indexer.decodeAddress "0x0a1B" = ([10; 27], None) /\
  indexer.decodeAddress "zz0a1B" = ([10; 27], None).
Proof.
  assert (Hlong : forall (c1 c2 : ascii) (rest : string),
            indexer.decodeAddress (String c1 (String c2 rest)) = hex.DecodeString rest).
  { intros c1 c2 rest. unfold indexer.decodeAddress, len. simpl String.length.
    destruct (Z.ltb_spec (Z.of_nat (S (S (String.length rest)))) 2) as [Hlt | _];
      [lia | reflexivity]. }
  split.
  { intros [| c1 [| c2 rest]] Hlen; try reflexivity. simpl in Hlen. lia. }
  split; [reflexivity |]. split; [exact Hlong |].
  split; [intros; now rewrite !Hlong |].
  split; reflexivity.
Qed.

Lemma decodeAddress_drops_two_bytes_witness : indexer.decodeAddress "z" = ([0], None).
Proof.
  destruct decodeAddress_drops_two_bytes as [Hshort _].
  apply Hshort. simpl. lia.
Defined.

(** ** Hexadecimal quantities *)

Lemma updateValues_lookup_ne (valuesMap : gmap string indexer.UnnestInsertValueStruct)
    (key other : string) (val : any) :
  key <> other -> indexer.updateValues valuesMap key val !! other = valuesMap !! other.
Proof.
  intros Hne. unfold indexer.updateValues.
  destruct (valuesMap !! key); [now apply lookup_insert_ne | reflexivity].
Qed.

Lemma updateValues_lookup_eq (valuesMap : gmap string indexer.UnnestInsertValueStruct)
    (key : string) (val : any) (entry : indexer.UnnestInsertValueStruct) :
  valuesMap !! key = Some entry ->
  indexer.updateValues valuesMap key val !! key =
    Some {| indexer.Type_ := indexer.Type_ entry;
            indexer.Values := (indexer.Values entry ++ [indexer.determineValue val])%list |}.
Proof.
  intros Hkey. unfold indexer.updateValues. rewrite Hkey. apply lookup_insert_eq.
Qed.

Lemma digitVal_hex_digit (c : ascii) : (big.digitVal c <? 16) = is_hex_digit c.
Proof. destruct c as [[] [] [] [] [] [] [] []]; reflexivity. Qed.

Lemma scanDigits_hex (s : string) (acc : Z) :
  big.scanDigits s 16 acc = None <-> all_hex_digits s = false.
Proof.
  revert acc. induction s as [| c s IH]; intros acc; simpl.
  - split; discriminate.
  - rewrite digitVal_hex_digit. destruct (is_hex_digit c); simpl.
    + apply IH.
    + tauto.
Qed.

Lemma SetString_sign (c : ascii) (rest : string) (base : Z) :
  big.SetString (String c rest) base =
    if Ascii.eqb c "-"%char then
      match rest with
      | EmptyString => None
      | _ => option_map Z.opp (big.scanDigits rest base 0)
      end
    else if Ascii.eqb c "+"%char then
      match rest with
      | EmptyString => None
      | _ => option_map (fun v => v) (big.scanDigits rest base 0)
      end
    else option_map (fun v => v) (big.scanDigits (String c rest) base 0).
Proof. destruct c as [[] [] [] [] [] [] [] []]; reflexivity. Qed.

Lemma signed_hexadecimal_sign (c : ascii) (rest : string) :
  signed_hexadecimal (String c rest) =
    if Ascii.eqb c "-"%char || Ascii.eqb c "+"%char then hexadecimal rest
    else hexadecimal (String c rest).
Proof. destruct c as [[] [] [] [] [] [] [] []]; reflexivity. Qed.

Lemma option_map_None {A B : Type} (f : A -> B) (x : option A) :
  option_map f x = None <-> x = None.
Proof. destruct x; simpl; split; congruence. Qed.

Lemma scanDigits_hexadecimal (s : string) :
  match s with
  | EmptyString => None
  | _ => big.scanDigits s 16 0
  end = None <-> hexadecimal s = false.
Proof.
  destruct s as [| c s]; [simpl; tauto |].
  unfold hexadecimal. change (String.eqb (String c s) "") with false.
  simpl negb. rewrite andb_true_l. apply scanDigits_hex.
Qed.

(** [SetString] in base 16 fails exactly on the strings that are no signed
    hexadecimal numeral. *)
Lemma SetString_16 (s : string) :
  big.SetString s 16 = None <-> signed_hexadecimal s = false.
Proof.
  destruct s as [| c rest]; [simpl; tauto |].
  rewrite SetString_sign, signed_hexadecimal_sign.
  destruct (Ascii.eqb c "-"%char); simpl orb.
  - rewrite <- scanDigits_hexadecimal.
    destruct rest; [tauto | apply option_map_None].
  - destruct (Ascii.eqb c "+"%char).
    + rewrite <- scanDigits_hexadecimal.
      destruct rest; [tauto | apply option_map_None].
    + rewrite option_map_None. apply (scanDigits_hexadecimal (String c rest)).
Qed.

Lemma hexStringToBigInt_error (s : string) :
  s <> "" ->
  (signed_hexadecimal (strings.TrimPrefix s "0x") = false <->
   exists err : error, indexer.hexStringToBigInt s = (None, Some err)).
Proof.
  intros Hne. unfold indexer.hexStringToBigInt.
  destruct (String.eqb_spec s "") as [Heq | _]; [contradiction |].
  rewrite <- SetString_16.
  destruct (big.SetString (strings.TrimPrefix s "0x") 16) as [value |].
  - split; [discriminate | intros [err Herr]; discriminate].
  - split; [eauto | reflexivity].
Qed.

(** A round of [WriteRawTransactions] fails when one numeric field of its
    transaction does not parse. *)
Lemma appendRawTransaction_error (isL1 : bool)
    (valuesMap : gmap string indexer.UnnestInsertValueStruct)
    (rawTransaction : indexer.RawTransaction.t) (field : string) :
  In field (numeric_fields rawTransaction) ->
  (indexer.hexStringToBigInt field).2 <> None ->
  exists err : error,
    indexer.appendRawTransaction isL1 valuesMap rawTransaction = (valuesMap, Some err).
Proof.
  intros Hfield Hfails. unfold indexer.appendRawTransaction.
  destruct (indexer.decodeAddress _) as [fromAddress [err |]]; [eauto |].
  destruct (indexer.decodeAddress _) as [toAddress [err |]]; [eauto |].
  destruct (indexer.hexStringToBigInt (indexer.RawTransaction.Gas _))
    as [gas [err |]] eqn:Hgas; [eauto |].
  destruct (indexer.hexStringToBigInt (indexer.RawTransaction.GasPrice _))
    as [gasPrice [err |]] eqn:HgasPrice; [eauto |].
  destruct (indexer.hexStringToBigInt (indexer.RawTransaction.MaxFeePerGas _))
    as [maxFee [err |]] eqn:HmaxFee; [eauto |].
  destruct (indexer.hexStringToBigInt (indexer.RawTransaction.MaxPriorityFeePerGas _))
    as [maxPriority [err |]] eqn:HmaxPriority; [eauto |].
  destruct (indexer.hexStringToBigInt (indexer.RawTransaction.Value _))
    as [value [err |]] eqn:Hvalue; [eauto |].
  exfalso. apply Hfails. unfold numeric_fields in Hfield. simpl in Hfield.
  destruct Hfield as [<- | [<- | [<- | [<- | [<- | []]]]]].
  - now rewrite Hgas.
  - now rewrite HgasPrice.
  - now rewrite HmaxFee.
  - now rewrite HmaxPriority.
  - now rewrite Hvalue.
Qed.

Lemma appendRawTransactions_error (isL1 : bool)
    (rawTransactions : list indexer.RawTransaction.t)
    (rawTransaction : indexer.RawTransaction.t) (field : string) :
  In rawTransaction rawTransactions ->
  In field (numeric_fields rawTransaction) ->
  (indexer.hexStringToBigInt field).2 <> None ->
  forall valuesMap : gmap string indexer.UnnestInsertValueStruct,
  exists (err : error) (valuesMap' : gmap string indexer.UnnestInsertValueStruct),
    indexer.appendRawTransactions isL1 valuesMap rawTransactions = (valuesMap', Some err).
Proof.
  intros Hin Hfield Hfails.
  induction rawTransactions as [| first rest IH]; [destruct Hin |].
  intros valuesMap. simpl.
  destruct (indexer.appendRawTransaction isL1 valuesMap first)
    as [valuesMap' [err |]] eqn:Hfirst; [eauto |].
  destruct Hin as [-> | Hin].
  - destruct (appendRawTransaction_error isL1 valuesMap rawTransaction field Hfield Hfails)
      as [err Herr].
    rewrite Herr in Hfirst. discriminate.
  - apply IH. exact Hin.
Qed.




(** ** The multi-table write *)

(** C1 fails on the code. With a healthy database, a call whose
    transaction labels are written and whose raw transactions then fail to
    parse returns the error and commits: the insert of the labels is in the
    database afterwards. When it is the server that rejects a statement, the
    call commits the aborted transaction and panics with the commit error
    instead of returning the error of the write. [WriteIndexes], which
    assigns the function's [err], rolls back and returns the error. *)
Theorem WriteDataToCustomerDB_commits_failed_write :
  @indexer.WriteDataToCustomerDB copy_fmt healthy_database [] "ethereum"
    [transfer_label] [] [raw_with_gas "0xzz"] =
    (indexer.Returned (Some (errorString "failed to parse hex string: zz")),
     [transfer_insert]) /\
  @indexer.WriteDataToCustomerDB copy_fmt rejecting_database [] "ethereum"
    [transfer_label] [] [raw_with_gas "0x1"] =
    (indexer.Panicked ErrTxCommitRollback, []) /\
  @indexer.WriteIndexes rejecting_database [] "ethereum" [example_index] =
    (indexer.Returned
       (Some (wrapError "error executing bulk insert for batch"
                (errorString "ERROR: permission denied"))),
     []).
Proof. repeat split; vm_compute; reflexivity. Qed.

(** ** The adaptive log scanner *)

Section LogScannerProperties.
Variable EventJson : Type.
Variable eth_getLogs : nat -> Z -> Z -> list EventJson + string.

Local Abbreviation scanRound := (evm.scanRound EventJson eth_getLogs).
Local Abbreviation scanLoop := (evm.scanLoop EventJson eth_getLogs).
Local Abbreviation ascending := (evm.ascending EventJson eth_getLogs).

Lemma windowEnd_eq (toBlock : Z) (st : evm.scan EventJson) :
  (if toBlock <? evm.fromBlock st + evm.batchStep st
   then toBlock else evm.fromBlock st + evm.batchStep st) = evm.windowEnd toBlock st.
Proof. unfold evm.windowEnd. destruct (Z.ltb_spec toBlock (evm.fromBlock st + evm.batchStep st)); lia. Qed.

(** What a round does, by the reply of the provider. *)
Lemma scanRound_reply (toBlock : Z) (st : evm.scan EventJson) :
  scanRound toBlock st =
    match eth_getLogs (evm.requests st) (evm.fromBlock st) (evm.windowEnd toBlock st) with
    | inr err =>
        if strings.Contains err too_many_results then
          if evm.batchStep st / 2 <? 1 then
            if toBlock <? evm.windowEnd toBlock st + 1 then inr (evm.logs st, None)
            else inl {| evm.logs := evm.logs st;
                        evm.fromBlock := evm.windowEnd toBlock st + 1;
                        evm.batchStep := evm.batchStep st / 2;
                        evm.requests := S (evm.requests st) |}
          else inl {| evm.logs := evm.logs st;
                      evm.fromBlock := evm.fromBlock st;
                      evm.batchStep := evm.batchStep st / 2;
                      evm.requests := S (evm.requests st) |}
        else inr ([], Some err)
    | inl result =>
        if toBlock <? evm.windowEnd toBlock st + 1
        then inr ((evm.logs st ++ result)%list, None)
        else inl {| evm.logs := (evm.logs st ++ result)%list;
                    evm.fromBlock := evm.windowEnd toBlock st + 1;
                    evm.batchStep := evm.batchStep st;
                    evm.requests := S (evm.requests st) |}
    end.
Proof. unfold evm.scanRound. cbv zeta. rewrite windowEnd_eq. reflexivity. Qed.

(** A round that continues keeps the window inside the range and lowers the
    measure: the blocks left plus the step. *)
Lemma scanRound_continue (toBlock : Z) (st st' : evm.scan EventJson) :
  evm.fromBlock st <= toBlock -> 0 <= evm.batchStep st ->
  scanRound toBlock st = inl st' ->
  evm.fromBlock st' <= toBlock /\ 0 <= evm.batchStep st' /\
  evm.fromBlock st <= evm.fromBlock st' /\
  (toBlock - evm.fromBlock st') + evm.batchStep st' <
  (toBlock - evm.fromBlock st) + evm.batchStep st.
Proof.
  intros Hfrom Hstep. rewrite scanRound_reply.
  pose proof (Z.div_pos (evm.batchStep st) 2 Hstep ltac:(lia)) as Hhalf.
  assert (Hle : evm.batchStep st / 2 <= evm.batchStep st)
    by (apply Z.div_le_upper_bound; lia).
  assert (Hend : evm.fromBlock st <= evm.windowEnd toBlock st)
    by (unfold evm.windowEnd; lia).
  destruct (eth_getLogs _ _ _) as [result | err].
  - destruct (Z.ltb_spec toBlock (evm.windowEnd toBlock st + 1)); [discriminate |].
    intros [= <-]. simpl. lia.
  - destruct (strings.Contains err too_many_results); [| discriminate].
    destruct (Z.ltb_spec (evm.batchStep st / 2) 1).
    + destruct (Z.ltb_spec toBlock (evm.windowEnd toBlock st + 1)); [discriminate |].
      intros [= <-]. simpl. lia.
    + intros [= <-]. simpl.
      assert (evm.batchStep st / 2 < evm.batchStep st)
        by (apply Z.div_lt_upper_bound; lia).
      lia.
Qed.

(** Enough rounds end the loop, and more rounds do not change the result. *)
Lemma scanLoop_terminates (toBlock : Z) (rounds : nat) :
  forall st : evm.scan EventJson,
    evm.fromBlock st <= toBlock -> 0 <= evm.batchStep st ->
    (toBlock - evm.fromBlock st) + evm.batchStep st < Z.of_nat rounds ->
    exists result : list EventJson * option string,
      forall extra : nat, scanLoop (rounds + extra) toBlock st = Some result.
Proof.
  induction rounds as [| rounds IH]; intros st Hfrom Hstep Hmeasure; [lia |].
  destruct (scanRound toBlock st) as [st' | result] eqn:Hround.
  - destruct (scanRound_continue toBlock st st' Hfrom Hstep Hround)
      as (Hfrom' & Hstep' & _ & Hless).
    destruct (IH st' Hfrom' Hstep' ltac:(lia)) as [result Hresult].
    exists result. intros extra. simpl. rewrite Hround. apply Hresult.
  - exists result. intros extra. simpl. rewrite Hround. reflexivity.
Qed.

(** A range that is empty from the start takes one round. *)
Lemma scanRound_empty_range (toBlock : Z) (st : evm.scan EventJson) :
  toBlock < evm.fromBlock st -> evm.batchStep st = toBlock - evm.fromBlock st ->
  exists result : list EventJson * option string,
    scanRound toBlock st = inr result /\
    (result.2 = None ->
     result.1 = evm.logs st \/
     exists reply : list EventJson,
       eth_getLogs (evm.requests st) (evm.fromBlock st) toBlock = inl reply /\
       result.1 = (evm.logs st ++ reply)%list).
Proof.
  intros Hfrom Hstep. rewrite scanRound_reply.
  assert (Hend : evm.windowEnd toBlock st = toBlock) by (unfold evm.windowEnd; lia).
  rewrite Hend.
  assert (Hhalf : evm.batchStep st / 2 < 1).
  { apply Z.div_lt_upper_bound; lia. }
  destruct (eth_getLogs _ _ _) as [reply | err].
  - destruct (Z.ltb_spec toBlock (toBlock + 1)); [| lia].
    eexists. split; [reflexivity |]. intros _. right. exists reply. split; reflexivity.
  - destruct (strings.Contains err too_many_results).
    + destruct (Z.ltb_spec (evm.batchStep st / 2) 1); [| lia].
      destruct (Z.ltb_spec toBlock (toBlock + 1)); [| lia].
      eexists. split; [reflexivity |]. intros _. left. reflexivity.
    + eexists. split; [reflexivity |]. discriminate.
Qed.

Lemma ascending_lower (low low' : Z) (windows : list (Z * Z * list EventJson)) :
  low <= low' -> ascending low' windows -> ascending low windows.
Proof.
  destruct windows as [| [[first last] reply] rest]; [trivial |].
  simpl. intros Hle (Hfirst & Hreply & Hrest). repeat split; [lia | exact Hreply | exact Hrest].
Qed.

(** The logs of a run that ends without an error are the replies to its
    successful requests, in ascending windows inside the range. *)
Lemma scanLoop_logs (toBlock : Z) (rounds : nat) :
  forall (st : evm.scan EventJson) (found : list EventJson),
    evm.fromBlock st <= toBlock -> 0 <= evm.batchStep st ->
    scanLoop rounds toBlock st = Some (found, None) ->
    exists windows : list (Z * Z * list EventJson),
      found = (evm.logs st ++ concat (map snd windows))%list /\
      ascending (evm.fromBlock st) windows /\
      Forall (fun w => w.1.1 <= w.1.2 <= toBlock) windows.
Proof.
  induction rounds as [| rounds IH]; intros st found Hfrom Hstep Hrun; [discriminate |].
  simpl in Hrun.
  destruct (scanRound toBlock st) as [st' | result] eqn:Hround.
  - destruct (scanRound_continue toBlock st st' Hfrom Hstep Hround)
      as (Hfrom' & Hstep' & Hup & _).
    destruct (IH st' found Hfrom' Hstep' Hrun) as (windows & Hfound & Hasc & Hin).
    rewrite scanRound_reply in Hround.
    assert (Hend : evm.fromBlock st <= evm.windowEnd toBlock st <= toBlock)
      by (unfold evm.windowEnd; lia).
    destruct (eth_getLogs _ _ _) as [reply | err] eqn:Hreply.
    + destruct (Z.ltb_spec toBlock (evm.windowEnd toBlock st + 1)); [discriminate |].
      injection Hround as <-. simpl in *.
      exists ((evm.fromBlock st, evm.windowEnd toBlock st, reply) :: windows).
      split; [| split].
      * simpl. rewrite Hfound, <- app_assoc. reflexivity.
      * simpl. repeat split; [lia | eauto | exact Hasc].
      * constructor; [simpl; lia | exact Hin].
    + exists windows.
      destruct (strings.Contains err too_many_results); [| discriminate].
      destruct (Z.ltb_spec (evm.batchStep st / 2) 1).
      * destruct (Z.ltb_spec toBlock (evm.windowEnd toBlock st + 1)); [discriminate |].
        injection Hround as <-. simpl in *.
        repeat split; [exact Hfound | | exact Hin].
        eapply ascending_lower; [| exact Hasc]. lia.
      * injection Hround as <-. simpl in *.
        repeat split; [exact Hfound | exact Hasc | exact Hin].
  - injection Hrun as ->. rewrite scanRound_reply in Hround.
    assert (Hend : evm.fromBlock st <= evm.windowEnd toBlock st <= toBlock)
      by (unfold evm.windowEnd; lia).
    destruct (eth_getLogs _ _ _) as [reply | err] eqn:Hreply.
    + destruct (Z.ltb_spec toBlock (evm.windowEnd toBlock st + 1)); [| discriminate].
      injection Hround as <-.
      exists [(evm.fromBlock st, evm.windowEnd toBlock st, reply)].
      split; [| split].
      * simpl. rewrite app_nil_r. reflexivity.
      * simpl. repeat split; [lia | eauto].
      * constructor; [simpl; lia | constructor].
    + destruct (strings.Contains err too_many_results); [| discriminate].
      destruct (Z.ltb_spec (evm.batchStep st / 2) 1); [| discriminate].
      destruct (Z.ltb_spec toBlock (evm.windowEnd toBlock st + 1)); [| discriminate].
      injection Hround as <-.
      exists []. split; [| split].
      * simpl. rewrite app_nil_r. reflexivity.
      * exact I.
      * constructor.
Qed.

End LogScannerProperties.



(** The window that fails at step one has two blocks, and the scan restarts
    past both: with a provider that refuses every window of two blocks the
    range from 0 to 1 is scanned without a log, and from 0 to 2 only block 2
    is read. *)
Lemma ClientFilterLogs_window_of_two :
  evm.ClientFilterLogs Z (limited_provider 2) 3 0 1 = Some ([], None) /\
  evm.ClientFilterLogs Z (limited_provider 2) 5 0 2 = Some ([2], None).
Proof. split; vm_compute; reflexivity. Qed.

(** ** The parallel fetcher *)

Lemma prefix_append (m t : string) : String.prefix m (m ++ t) = true.
Proof.
  induction m as [| c m IH]; [destruct t; reflexivity |].
  change (String c m ++ t) with (String c (m ++ t)). simpl.
  destruct (ascii_dec c c) as [_ | Hne]; [exact IH | contradiction].
Qed.

Lemma prefix_append_r (m s t : string) :
  String.prefix m s = true -> String.prefix m (s ++ t) = true.
Proof.
  revert s. induction m as [| c m IH]; intros s Hprefix.
  - destruct (s ++ t); reflexivity.
  - destruct s as [| d s]; [discriminate |].
    change (String d s ++ t) with (String d (s ++ t)). simpl in *.
    destruct (ascii_dec c d); [now apply IH | discriminate].
Qed.

Lemma Contains_append_l (s t m : string) :
  strings.Contains t m = true -> strings.Contains (s ++ t) m = true.
Proof.
  intros Hin. induction s as [| c s IH]; [exact Hin |].
  change (String c s ++ t) with (String c (s ++ t)). simpl.
  rewrite IH. apply orb_true_r.
Qed.

Lemma Contains_append_r (s t m : string) :
  strings.Contains s m = true -> strings.Contains (s ++ t) m = true.
Proof.
  induction s as [| c s IH]; intros Hin.
  - simpl in Hin. rewrite orb_false_r in Hin.
    change ("" ++ t) with t. unfold strings.HasPrefix in Hin.
    destruct m; [| discriminate]. destruct t; reflexivity.
  - change (String c s ++ t) with (String c (s ++ t)).
    simpl in Hin |- *. apply orb_true_iff in Hin. apply orb_true_iff.
    destruct Hin as [Hprefix | Hrest].
    + left. unfold strings.HasPrefix in *.
      apply (prefix_append_r m (String c s) t Hprefix).
    + right. now apply IH.
Qed.

Lemma Contains_self (m : string) : strings.Contains m m = true.
Proof.
  assert (Hprefix : String.prefix m m = true).
  { induction m as [| c m IH]; [reflexivity |]. simpl.
    destruct (ascii_dec c c); [exact IH | contradiction]. }
  destruct m as [| c m]; [reflexivity |].
  change (strings.Contains (String c m) (String c m))
    with (strings.HasPrefix (String c m) (String c m) ||
          strings.Contains m (String c m)).
  unfold strings.HasPrefix. rewrite Hprefix. reflexivity.
Qed.

(** A joined list has each of its elements inside. *)
Lemma Contains_Join (elems : list string) (sep m : string) :
  In m elems -> strings.Contains (strings.Join elems sep) m = true.
Proof.
  induction elems as [| e rest IH]; intros Hin; [destruct Hin |].
  destruct rest as [| e' rest].
  - destruct Hin as [-> | []]. apply Contains_self.
  - change (strings.Join (e :: e' :: rest) sep)
      with (e ++ sep ++ strings.Join (e' :: rest) sep).
    destruct Hin as [-> | Hin].
    + apply Contains_append_r, Contains_self.
    + apply Contains_append_l, Contains_append_l, IH, Hin.
Qed.

Section FetcherProperties.
Variable BlockJson : Type.
Variable GetBlockByNumber : Z -> evm.task BlockJson.

Local Abbreviation sent := (evm.sent BlockJson GetBlockByNumber).
Local Abbreviation appended := (evm.appended BlockJson GetBlockByNumber).

Lemma concat_map_Permutation {A : Type} (f : Z -> list A) (l l' : list Z) :
  Permutation l l' -> Permutation (concat (map f l)) (concat (map f l')).
Proof.
  intros Hperm. rewrite <- !flat_map_concat_map. now apply Permutation_flat_map.
Qed.

Lemma sent_nil (l : list Z) :
  (forall b : Z, In b l -> exists block : BlockJson, GetBlockByNumber b = evm.fetched block) ->
  concat (map sent l) = [].
Proof.
  induction l as [| b l IH]; intros Hall; [reflexivity |].
  simpl. rewrite IH by (intros b' Hin; apply Hall; now right).
  destruct (Hall b (or_introl eq_refl)) as [block Hblock].
  unfold evm.sent. rewrite Hblock. reflexivity.
Qed.

Lemma appended_all (l : list Z) :
  (forall b : Z, In b l -> exists block : BlockJson, GetBlockByNumber b = evm.fetched block) ->
  length (concat (map appended l)) = length l.
Proof.
  induction l as [| b l IH]; intros Hall; [reflexivity |].
  simpl. rewrite length_app, IH by (intros b' Hin; apply Hall; now right).
  destruct (Hall b (or_introl eq_refl)) as [block Hblock].
  unfold evm.appended. rewrite Hblock. reflexivity.
Qed.

Lemma in_concat_map {A : Type} (f : Z -> list A) (l : list Z) (b : Z) (x : A) :
  In b l -> In x (f b) -> In x (concat (map f l)).
Proof.
  intros Hb Hx. apply in_concat. exists (f b). split; [now apply in_map | exact Hx].
Qed.

End FetcherProperties.



(** ** The decoder *)

Section DecoderProperties.
Context `{evm.Client}.

Lemma parseOnce_names (entry : evm.AbiEntry) :
  evm.AbiName (evm.parseOnce entry).1 = evm.AbiName entry /\
  evm.AbiJSON (evm.parseOnce entry).1 = evm.AbiJSON entry.
Proof.
  unfold evm.parseOnce. destruct (evm.Once entry); [split; reflexivity |].
  destruct (evm.GetABI (evm.AbiJSON entry)); split; reflexivity.
Qed.

(** The rounds over the logs leave the transaction labels alone. *)
Lemma labelLog_txLabels (b : evm.MantleBlock.t) (tx : evm.MantleTransaction.t)
    (e : evm.MantleEventLog.t) (w : evm.worker) :
  evm.localTxLabels (worker_of (evm.labelLog b tx e w)) = evm.localTxLabels w.
Proof.
  unfold evm.labelLog. cbv zeta.
  destruct (evm.entryAt _ _ _) as [entry |]; [| reflexivity].
  destruct (evm.parseOnce entry) as [entry' [initErr |]]; [reflexivity |].
  destruct (evm.Abi entry') as [abi |]; [| reflexivity].
  destruct (evm.DecodeLogArgsToLabelData _ _ _) as [args own];
    destruct (default own _) as [decodeErr |];
    destruct (evm.json_Marshal _) as [text [err |]]; reflexivity.
Qed.

Lemma labelLogs_txLabels (b : evm.MantleBlock.t) (tx : evm.MantleTransaction.t)
    (events : list evm.MantleEventLog.t) :
  forall w : evm.worker,
    evm.localTxLabels (worker_of (evm.labelLogs b tx events w)) = evm.localTxLabels w.
Proof.
  induction events as [| e rest IH]; intros w; [reflexivity |].
  simpl. pose proof (labelLog_txLabels b tx e w) as Hlog.
  destruct (evm.labelLog b tx e w) as [w' | w' | w' r]; simpl in Hlog;
    [rewrite IH | rewrite IH | simpl]; exact Hlog.
Qed.

(** The block of a round that labels the transaction adds no label, or adds
    one that carries the name of the entry found under the selector. *)
Lemma labelTransaction_labels (b : evm.MantleBlock.t) (tx : evm.MantleTransaction.t)
    (selector : string) (w : evm.worker) :
  evm.localTxLabels (worker_of (evm.labelTransaction b tx selector w)) =
    evm.localTxLabels w \/
  exists (entry : evm.AbiEntry) (label : indexer.TransactionLabel.t) (w' : evm.worker),
    evm.entryAt (evm.abiMap w) (evm.MantleTransaction.ToAddress tx) selector = Some entry /\
    evm.labelTransaction b tx selector w = evm.next w' /\
    evm.localTxLabels w' = (evm.localTxLabels w ++ [label])%list /\
    indexer.TransactionLabel.LabelName label = evm.AbiName entry /\
    indexer.TransactionLabel.LabelType label = "tx_call" /\
    indexer.TransactionLabel.Address label = evm.MantleTransaction.ToAddress tx /\
    indexer.TransactionLabel.TransactionHash label = evm.MantleTransaction.Hash tx.
Proof.
  unfold evm.labelTransaction.
  destruct (evm.entryAt _ _ _) as [entry |] eqn:Hentry; [| left; reflexivity].
  pose proof (parseOnce_names entry) as [Hname _].
  destruct (evm.parseOnce entry) as [entry' [initErr |]]; [left; reflexivity |].
  destruct (evm.Abi entry') as [abi |]; [| left; reflexivity].
  destruct (hex.DecodeString _) as [inputData [err |]]; [left; reflexivity |].
  destruct (evm.DecodeTransactionInputDataToInterface _ _) as [args own];
    destruct (default own _) as [decodeErr |];
    destruct (evm.TransactionReceipt _) as [[Status |] [err |]];
    try (left; reflexivity).
  - destruct (evm.json_Marshal _) as [text [err |]]; [left; reflexivity |].
    right. eexists entry, _, _. repeat split; try reflexivity. exact Hname.
  - destruct args as [args |]; [| left; reflexivity].
    destruct (evm.json_Marshal _) as [text [err |]]; [left; reflexivity |].
    right. eexists entry, _, _. repeat split; try reflexivity. exact Hname.
Qed.

End DecoderProperties.



Lemma rawLabelData_keys (input_raw : evm.jvalue) (abi selector : string)
    (decodeErr : option string) :
  dom (evm.rawLabelData input_raw abi selector decodeErr) =
    ({["input_raw"; "abi"; "selector"; "error"]} : gset string).
Proof. unfold evm.rawLabelData. rewrite !dom_insert_L, dom_empty_L. set_solver. Qed.




(** A batch of one block with one transaction whose input is "0x" decodes to
    no label and no error; the raw transaction is returned when asked for. *)
Lemma plain_transfer_batch :
  @evm.DecodeProtoEntireBlockToLabels
    (example_client true (Some 1, None) [example_block "0x"]) [] (fun _ _ => evm.alone)
    [] (token_abis _) false 4 =
    evm.DecodeReturned [] [] [] None /\
  exists raw : indexer.RawTransaction.t,
    @evm.DecodeProtoEntireBlockToLabels
      (example_client true (Some 1, None) [example_block "0x"]) [] (fun _ _ => evm.alone)
      [] (token_abis _) true 4 =
      evm.DecodeReturned [] [] [raw] None.
Proof. split; [vm_compute; reflexivity | eexists; vm_compute; reflexivity]. Qed.

(** * Further properties of the code *)

(** ** Filtering ABI jobs *)

Lemma FilterABIJobs_ids (abiJob : indexer.AbiJob.t) (ids : list string) :
  forall filtered : list indexer.AbiJob.t,
    fold_left
      (fun filteredABIJobs id =>
         if String.eqb (indexer.AbiJob.ID abiJob) id
         then (filteredABIJobs ++ [abiJob])%list else filteredABIJobs)
      ids filtered =
    (filtered ++ repeat abiJob (count_occ string_dec ids (indexer.AbiJob.ID abiJob)))%list.
Proof.
  induction ids as [| id ids IH]; intros filtered; simpl.
  - now rewrite app_nil_r.
  - rewrite IH.
    destruct (String.eqb_spec (indexer.AbiJob.ID abiJob) id) as [Heq | Hne];
      destruct (string_dec id (indexer.AbiJob.ID abiJob)) as [Heq' | Hne']; try congruence.
    simpl. now rewrite <- app_assoc.
Qed.

Lemma FilterABIJobs_flat_map (abiJobs : list indexer.AbiJob.t) (ids : list string) :
  indexer.FilterABIJobs abiJobs ids =
    flat_map (fun job => repeat job (count_occ string_dec ids (indexer.AbiJob.ID job))) abiJobs.
Proof.
  unfold indexer.FilterABIJobs.
  enough (Hgen : forall filtered : list indexer.AbiJob.t,
            fold_left
              (fun filteredABIJobs abiJob =>
                 fold_left
                   (fun filteredABIJobs id =>
                      if String.eqb (indexer.AbiJob.ID abiJob) id
                      then (filteredABIJobs ++ [abiJob])%list else filteredABIJobs)
                   ids filteredABIJobs)
              abiJobs filtered =
            (filtered ++
             flat_map (fun job => repeat job (count_occ string_dec ids (indexer.AbiJob.ID job)))
               abiJobs)%list) by apply Hgen.
  induction abiJobs as [| job abiJobs IH]; intros filtered; simpl.
  - now rewrite app_nil_r.
  - rewrite FilterABIJobs_ids, IH, <- app_assoc. reflexivity.
Qed.

(** X1. [FilterABIJobs] keeps the jobs in their order and repeats each as
    often as its identifier occurs in [ids]: a job is in the result exactly
    when it is a job of the input whose identifier is in [ids]; no identifier
    selects nothing; and when [ids] has no repetition the result is the
    input filtered by membership of the identifier. *)
Theorem FilterABIJobs_selects (abiJobs : list indexer.AbiJob.t) (ids : list string) :
  indexer.FilterABIJobs abiJobs ids =
    flat_map (fun job => repeat job (count_occ string_dec ids (indexer.AbiJob.ID job)))
      abiJobs /\
  (forall job : indexer.AbiJob.t,
     In job (indexer.FilterABIJobs abiJobs ids) <->
     In job abiJobs /\ In (indexer.AbiJob.ID job) ids) /\
  indexer.FilterABIJobs abiJobs [] = [] /\
  (List.NoDup ids ->
   indexer.FilterABIJobs abiJobs ids =
     List.filter (fun job => existsb (String.eqb (indexer.AbiJob.ID job)) ids) abiJobs).
Proof.
  split; [apply FilterABIJobs_flat_map |]. split; [| split].
  - intros job. rewrite FilterABIJobs_flat_map, in_flat_map. split.
    + intros (job' & Hin & Hrep).
      pose proof (repeat_spec _ _ _ Hrep) as ->.
      split; [exact Hin |].
      apply (count_occ_In string_dec).
      destruct (count_occ string_dec ids (indexer.AbiJob.ID job')); [destruct Hrep | lia].
    + intros [Hin Hid]. exists job. split; [exact Hin |].
      apply (count_occ_In string_dec) in Hid.
      destruct (count_occ string_dec ids (indexer.AbiJob.ID job)); [lia | now left].
  - rewrite FilterABIJobs_flat_map. induction abiJobs as [| job abiJobs IH]; [reflexivity |].
    simpl. exact IH.
  - intros Hnodup. rewrite FilterABIJobs_flat_map.
    induction abiJobs as [| job abiJobs IH]; [reflexivity |].
    simpl. rewrite IH.
    pose proof (proj1 (NoDup_count_occ string_dec ids) Hnodup (indexer.AbiJob.ID job)) as Hle.
    destruct (existsb (String.eqb (indexer.AbiJob.ID job)) ids) eqn:Hex.
    + apply existsb_eqb_In, (count_occ_In string_dec) in Hex.
      replace (count_occ string_dec ids (indexer.AbiJob.ID job)) with 1%nat by lia.
      reflexivity.
    + destruct (count_occ string_dec ids (indexer.AbiJob.ID job)) as [| n] eqn:Hcount;
        [reflexivity |].
      assert (Hin : In (indexer.AbiJob.ID job) ids)
        by (apply (count_occ_In string_dec); lia).
      apply existsb_eqb_In in Hin. congruence.
Qed.

Lemma FilterABIJobs_selects_witness :
  indexer.FilterABIJobs [job_with_id "a"; job_with_id "b"; job_with_id "c"] ["c"; "a"] =
    [job_with_id "a"; job_with_id "c"].
Proof.
  destruct (FilterABIJobs_selects [job_with_id "a"; job_with_id "b"; job_with_id "c"]
              ["c"; "a"]) as (_ & _ & _ & Hfilter).
  rewrite Hfilter; [reflexivity |].
  repeat constructor; simpl; intuition discriminate.
Defined.

(** ** Decoding addresses *)

Lemma string_pair_ind (P : string -> Prop) :
  P "" ->
  (forall c, P (String c "")) ->
  (forall c d s, P s -> P (String c (String d s))) ->
  forall s, P s.
Proof.
  intros Hnil Hone Hpair s.
  enough (Hboth : P s /\ forall c, P (String c s)) by apply Hboth.
  induction s as [| a s [IHs IHc]].
  - split; [exact Hnil | exact Hone].
  - split; [apply IHc |]. intros c. apply Hpair, IHs.
Qed.

Lemma reverseHexTable_hex_digit (c : ascii) :
  (15 <? hex.reverseHexTable c) = negb (is_hex_digit c).
Proof. destruct c as [[] [] [] [] [] [] [] []]; reflexivity. Qed.

Lemma reverseHexTable_nonneg (c : ascii) : 0 <= hex.reverseHexTable c.
Proof. destruct c as [[] [] [] [] [] [] [] []]; discriminate. Qed.

Lemma nibbles_byte (a b : Z) :
  0 <= a <= 15 -> 0 <= b <= 15 -> Z.lor (Z.shiftl a 4) b = 16 * a + b.
Proof.
  intros Ha Hb.
  destruct a as [| a | a]; try lia; destruct b as [| b | b]; try lia;
    repeat (destruct a as [a | a |]; try lia);
    repeat (destruct b as [b | b |]; try lia); reflexivity.
Qed.

Lemma DecodeString_hex (s : string) :
  ((hex.DecodeString s).2 = None <->
   Nat.even (String.length s) = true /\ all_hex_digits s = true) /\
  ((hex.DecodeString s).2 = None ->
   (2 * length (hex.DecodeString s).1 = String.length s)%nat /\
   Forall (fun b => 0 <= b <= 255) (hex.DecodeString s).1).
Proof.
  induction s as [| c | c d s [IHiff IHok]] using string_pair_ind.
  - simpl. repeat split; auto.
  - simpl. rewrite reverseHexTable_hex_digit.
    destruct (is_hex_digit c); simpl; repeat split; try discriminate;
      intros [? ?]; discriminate.
  - change (hex.DecodeString (String c (String d s)))
      with (let a := hex.reverseHexTable c in
            let b := hex.reverseHexTable d in
            if 15 <? a then ([], Some (InvalidByteError c))
            else if 15 <? b then ([], Some (InvalidByteError d))
            else let '(dst, err) := hex.DecodeString s in
                 (Z.lor (Z.shiftl a 4) b :: dst, err)).
    cbv zeta.
    change (all_hex_digits (String c (String d s)))
      with (is_hex_digit c && (is_hex_digit d && all_hex_digits s)).
    change (Nat.even (String.length (String c (String d s))))
      with (Nat.even (String.length s)).
    destruct (15 <? hex.reverseHexTable c) eqn:Hc.
    { rewrite reverseHexTable_hex_digit in Hc.
      destruct (is_hex_digit c); [discriminate |].
      simpl. repeat split; try discriminate. intros [? ?]; discriminate. }
    destruct (15 <? hex.reverseHexTable d) eqn:Hd.
    { rewrite reverseHexTable_hex_digit in Hd.
      destruct (is_hex_digit d); [discriminate |].
      rewrite andb_false_r.
      simpl. repeat split; try discriminate. intros [? ?]; discriminate. }
    pose proof Hc as Hc'. pose proof Hd as Hd'.
    rewrite reverseHexTable_hex_digit in Hc', Hd'.
    destruct (is_hex_digit c); [| discriminate].
    destruct (is_hex_digit d); [| discriminate].
    destruct (hex.DecodeString s) as [dst err]. simpl in *.
    split; [exact IHiff |].
    intros Herr. destruct (IHok Herr) as [Hlen Hall].
    split; [lia |].
    constructor; [| exact Hall].
    pose proof (reverseHexTable_nonneg c). pose proof (reverseHexTable_nonneg d).
    rewrite nibbles_byte; lia.
Qed.

(** X2. An address of at least two bytes decodes without error exactly when
    what follows its first two bytes is an even number of hexadecimal digits
    (none included); the result then has one byte, in the range 0..255, for
    every two digits. *)
Theorem decodeAddress_accepts_hex (address : string) (Hlen : 2 <= len address) :
  ((indexer.decodeAddress address).2 = None <->
   Nat.even (String.length (slice_from 2 address)) = true /\
   all_hex_digits (slice_from 2 address) = true) /\
  ((indexer.decodeAddress address).2 = None ->
   2 * Z.of_nat (length (indexer.decodeAddress address).1) = len address - 2 /\
   Forall (fun b => 0 <= b <= 255) (indexer.decodeAddress address).1).
Proof.
  unfold indexer.decodeAddress.
  destruct (len address <? 2) eqn:Hshort; [lia |].
  destruct (DecodeString_hex (slice_from 2 address)) as [Hiff Hok].
  split; [exact Hiff |].
  intros Herr. destruct (Hok Herr) as [Hlength Hall].
  split; [| exact Hall].
  unfold len in *.
  destruct address as [| c [| d rest]]; cbn [String.length] in Hlen; try lia.
  cbn [slice_from String.length] in *. lia.
Qed.

Lemma decodeAddress_accepts_hex_witness :
  (indexer.decodeAddress "0x0a1B").2 = None /\
  2 * Z.of_nat (length (indexer.decodeAddress "0x0a1B").1) = len "0x0a1B" - 2.
Proof.
  destruct (decodeAddress_accepts_hex "0x0a1B" ltac:(vm_compute; discriminate))
    as [Hiff Hok].
  assert (Herr : (indexer.decodeAddress "0x0a1B").2 = None)
    by (apply Hiff; split; reflexivity).
  split; [exact Herr | apply (Hok Herr)].
Defined.

(** ** The arrays of a bulk insert *)

Lemma updateValues_is_Some (valuesMap : gmap string indexer.UnnestInsertValueStruct)
    (key column : string) (val : any) :
  is_Some (indexer.updateValues valuesMap key val !! column) <->
  is_Some (valuesMap !! column).
Proof.
  destruct (decide (key = column)) as [-> | Hne].
  - destruct (valuesMap !! column) as [entry |] eqn:Hcolumn.
    + rewrite (updateValues_lookup_eq _ _ _ _ Hcolumn). split; eauto.
    + unfold indexer.updateValues. rewrite !Hcolumn. reflexivity.
  - now rewrite updateValues_lookup_ne.
Qed.

Lemma updateValues_column_length_ne (valuesMap : gmap string indexer.UnnestInsertValueStruct)
    (key column : string) (val : any) :
  key <> column ->
  column_length (indexer.updateValues valuesMap key val) column =
    column_length valuesMap column.
Proof.
  intros Hne. unfold column_length, indexer.at_key.
  now rewrite updateValues_lookup_ne.
Qed.

Lemma updateValues_column_length_eq (valuesMap : gmap string indexer.UnnestInsertValueStruct)
    (key : string) (val : any) :
  is_Some (valuesMap !! key) ->
  column_length (indexer.updateValues valuesMap key val) key =
    S (column_length valuesMap key).
Proof.
  intros [entry Hkey]. unfold column_length, indexer.at_key.
  rewrite (updateValues_lookup_eq _ _ _ _ Hkey), Hkey. simpl.
  rewrite length_app. simpl. lia.
Qed.

Lemma updateAll_nil (valuesMap : gmap string indexer.UnnestInsertValueStruct) :
  updateAll valuesMap [] = valuesMap.
Proof. reflexivity. Qed.

Lemma updateAll_cons (valuesMap : gmap string indexer.UnnestInsertValueStruct)
    (key : string) (val : any) (updates : list (string * any)) :
  updateAll valuesMap ((key, val) :: updates) =
    updateAll (indexer.updateValues valuesMap key val) updates.
Proof. reflexivity. Qed.

Lemma updateAll_other (updates : list (string * any)) (column : string) :
  column ∉ updates.*1 ->
  forall valuesMap : gmap string indexer.UnnestInsertValueStruct,
    (is_Some (updateAll valuesMap updates !! column) <-> is_Some (valuesMap !! column)) /\
    column_length (updateAll valuesMap updates) column = column_length valuesMap column.
Proof.
  induction updates as [| [key val] updates IH]; intros Hnotin valuesMap.
  - split; reflexivity.
  - rewrite fmap_cons, not_elem_of_cons in Hnotin. destruct Hnotin as [Hne Hnotin].
    simpl in Hne. unfold updateAll. simpl. fold (updateAll (indexer.updateValues valuesMap key val) updates).
    destruct (IH Hnotin (indexer.updateValues valuesMap key val)) as [Hsome Hlength].
    rewrite Hsome, Hlength, updateValues_is_Some.
    split; [reflexivity |]. now apply updateValues_column_length_ne.
Qed.

Lemma updateAll_column (updates : list (string * any)) (column : string) :
  NoDup updates.*1 ->
  column ∈ updates.*1 ->
  forall valuesMap : gmap string indexer.UnnestInsertValueStruct,
    is_Some (valuesMap !! column) ->
    is_Some (updateAll valuesMap updates !! column) /\
    column_length (updateAll valuesMap updates) column = S (column_length valuesMap column).
Proof.
  induction updates as [| [key val] updates IH]; intros Hnodup Hin valuesMap Hsome.
  - inversion Hin.
  - rewrite fmap_cons in Hnodup, Hin. simpl in Hnodup, Hin.
    apply NoDup_cons in Hnodup as [Hfresh Hnodup].
    unfold updateAll. simpl. fold (updateAll (indexer.updateValues valuesMap key val) updates).
    apply elem_of_cons in Hin as [-> | Hin].
    + destruct (updateAll_other updates key Hfresh (indexer.updateValues valuesMap key val))
        as [Hsome' Hlength].
      rewrite Hsome', Hlength, updateValues_is_Some.
      split; [exact Hsome |]. now apply updateValues_column_length_eq.
    + assert (Hne : key <> column) by (intros ->; contradiction).
      destruct (IH Hnodup Hin (indexer.updateValues valuesMap key val)) as [Hsome' Hlength].
      { now apply updateValues_is_Some. }
      split; [exact Hsome' |].
      rewrite Hlength. f_equal. now apply updateValues_column_length_ne.
Qed.

(** A round that gives every column one more value keeps the arrays of
    equal length. *)
Lemma updateAll_filled (columns : list string) (updates : list (string * any)) (n : nat)
    (valuesMap : gmap string indexer.UnnestInsertValueStruct) :
  NoDup updates.*1 ->
  columns ⊆ updates.*1 ->
  filled columns n valuesMap ->
  filled columns (S n) (updateAll valuesMap updates).
Proof.
  intros Hnodup Hincl Hfilled column Hcolumn.
  destruct (Hfilled column Hcolumn) as [Hsome Hlength].
  destruct (updateAll_column updates column Hnodup (Hincl _ Hcolumn) valuesMap Hsome)
    as [Hsome' Hlength'].
  split; [exact Hsome' | lia].
Qed.

Lemma fold_left_filled {A : Type} (columns : list string)
    (round : gmap string indexer.UnnestInsertValueStruct -> A ->
             gmap string indexer.UnnestInsertValueStruct) :
  (forall valuesMap a n, filled columns n valuesMap -> filled columns (S n) (round valuesMap a)) ->
  forall (l : list A) (valuesMap : gmap string indexer.UnnestInsertValueStruct) (n : nat),
    filled columns n valuesMap ->
    filled columns (n + length l) (fold_left round l valuesMap).
Proof.
  intros Hround l. induction l as [| a l IH]; intros valuesMap n Hfilled; simpl.
  - now rewrite Nat.add_0_r.
  - replace (n + S (length l))%nat with (S n + length l)%nat by lia.
    apply IH, Hround, Hfilled.
Qed.

Section WriterProperties.
Context `{Fmt} `{indexer.PostgreSQLpgx}.

(** What [executeBatchInsert] does to the open transaction: it runs one
    statement with one array per column, or the server refuses the
    statement, which leaves the transaction aborted. *)
Lemma executeBatchInsert_cases (tx : indexer.Tx) (tableName : string)
    (columns : list string) (values : gmap string indexer.UnnestInsertValueStruct)
    (conflictClause : string) :
  (exists statement : indexer.Statement,
     indexer.executeBatchInsert tx tableName columns values conflictClause =
       ({| indexer.executed := (indexer.executed tx ++ [statement])%list;
           indexer.failed := indexer.failed tx;
           indexer.drawn := indexer.drawn tx |}, None) /\
     indexer.tx_Exec statement = None /\
     indexer.arguments statement =
       map (fun column => indexer.Values (indexer.at_key values column)) columns) \/
  (exists err : error,
     indexer.executeBatchInsert tx tableName columns values conflictClause =
       ({| indexer.executed := indexer.executed tx;
           indexer.failed := true;
           indexer.drawn := indexer.drawn tx |},
        Some (wrapError "error executing bulk insert for batch" err))).
Proof.
  unfold indexer.executeBatchInsert.
  match goal with
  | |- context [indexer.tx_Exec ?statement] =>
      destruct (indexer.tx_Exec statement) as [err |] eqn:Hexec
  end.
  - right. exists err. reflexivity.
  - left. eexists. split; [reflexivity |]. split; [exact Hexec | reflexivity].
Qed.

Lemma filled_aligned (columns : list string) (n : nat)
    (values : gmap string indexer.UnnestInsertValueStruct) (statement : indexer.Statement) :
  filled columns n values ->
  indexer.arguments statement =
    map (fun column => indexer.Values (indexer.at_key values column)) columns ->
  aligned n statement /\ length (indexer.arguments statement) = length columns.
Proof.
  intros Hfilled Harguments. unfold aligned. rewrite Harguments, length_map.
  split; [| reflexivity].
  apply List.Forall_forall. intros column Hin.
  apply in_map_iff in Hin as (name & <- & Hin).
  apply (Hfilled name). now apply list_elem_of_In.
Qed.

Ltac updates_of term acc :=
  lazymatch term with
  | indexer.updateValues ?inner ?key ?val => updates_of inner constr:((key, val) :: acc)
  | _ => acc
  end.

Ltac base_of term :=
  lazymatch term with
  | indexer.updateValues ?inner _ _ => base_of inner
  | _ => term
  end.

(** A round that calls [updateValues] once for every column. *)
Ltac round_filled Hfilled :=
  lazymatch goal with
  | |- filled ?columns (S ?n) ?term =>
      let updates := updates_of term constr:(@nil (string * any)) in
      let valuesMap := base_of term in
      let Hround := fresh "Hround" in
      pose proof (updateAll_filled columns updates n valuesMap
                    ltac:(compute_done) ltac:(compute_done) Hfilled) as Hround;
      rewrite !updateAll_cons, updateAll_nil in Hround;
      exact Hround
  end.

(** The columns of a fresh map are keys without values. *)
Ltac fresh_filled :=
  let column := fresh "column" in
  let Hcolumn := fresh "Hcolumn" in
  intros column Hcolumn;
  repeat (apply elem_of_cons in Hcolumn as [-> | Hcolumn];
          [split; [eexists; vm_compute; reflexivity | vm_compute; reflexivity] |]);
  inversion Hcolumn.

Lemma writeBlockIndexToDB_cases (tx : indexer.Tx) (blockchain : string)
    (indexes : list indexer.BlockIndex.t) :
  (~ In blockchain known_chains /\
   indexer.writeBlockIndexToDB tx blockchain indexes =
     (tx, Some (errorString "Unsupported blockchain"))) \/
  (In blockchain known_chains /\
   exists statement : indexer.Statement,
     indexer.writeBlockIndexToDB tx blockchain indexes =
       ({| indexer.executed := (indexer.executed tx ++ [statement])%list;
           indexer.failed := indexer.failed tx;
           indexer.drawn := indexer.drawn tx |}, None) /\
     indexer.tx_Exec statement = None /\
     aligned (length indexes) statement /\
     length (indexer.arguments statement) =
       (if indexer.IsBlockchainWithL1Chain blockchain then 9 else 8)%nat) \/
  (In blockchain known_chains /\
   exists err : error,
     indexer.writeBlockIndexToDB tx blockchain indexes =
       ({| indexer.executed := indexer.executed tx;
           indexer.failed := true;
           indexer.drawn := indexer.drawn tx |},
        Some (wrapError "error executing bulk insert for batch" err))).
Proof.
  destruct (known_chains_dec blockchain) as [Hin | Hnot].
  2: { left. split; [exact Hnot |].
       destruct (unknown_chain_tables blockchain Hnot) as [Hblocks _].
       unfold indexer.writeBlockIndexToDB. rewrite Hblocks. reflexivity. }
  right.
  destruct (known_chain_tables blockchain Hin) as [Hblocks _].
  unfold indexer.writeBlockIndexToDB. rewrite Hblocks. cbv beta iota zeta.
  destruct (indexer.IsBlockchainWithL1Chain blockchain); cbv beta iota zeta;
    match goal with
    | |- context [indexer.executeBatchInsert ?t ?name ?c (fold_left ?round ?l ?v) ?k] =>
        assert (Hfilled : filled c (0 + length l) (fold_left round l v))
          by (apply fold_left_filled;
              [intros valuesMap index n Hfilled; round_filled Hfilled | fresh_filled]);
        destruct (executeBatchInsert_cases t name c (fold_left round l v) k)
          as [(statement & -> & Hexec & Harguments) | (err & ->)];
          [left | right; split; [exact Hin | exists err; reflexivity]]
    end;
    (split; [exact Hin |]); exists statement; (split; [reflexivity |]);
    (split; [exact Hexec |]);
    apply (filled_aligned _ _ _ _ Hfilled Harguments).
Qed.

Lemma appendTransaction_round (valuesMap : gmap string indexer.UnnestInsertValueStruct)
    (tx : indexer.Tx) (transaction : indexer.TransactionLabel.t) (n : nat) :
  filled transaction_label_columns n valuesMap ->
  filled transaction_label_columns (n + (if writable_label transaction then 1 else 0))
    (indexer.appendTransaction (valuesMap, tx) transaction).1 /\
  (indexer.appendTransaction (valuesMap, tx) transaction).2 =
    {| indexer.executed := indexer.executed tx;
       indexer.failed := indexer.failed tx;
       indexer.drawn := S (indexer.drawn tx) |}.
Proof.
  intros Hfilled.
  unfold indexer.appendTransaction, writable_label, decodable, indexer.uuid_New.
  cbv beta iota zeta.
  destruct (indexer.decodeAddress (indexer.TransactionLabel.Address transaction))
    as [addressBytes [err |]]; simpl;
    [rewrite Nat.add_0_r; split; [exact Hfilled | reflexivity] |].
  destruct (indexer.decodeAddress (indexer.TransactionLabel.CallerAddress transaction))
    as [callerAddressBytes [err |]]; simpl;
    [rewrite Nat.add_0_r; split; [exact Hfilled | reflexivity] |].
  destruct (indexer.decodeAddress (indexer.TransactionLabel.OriginAddress transaction))
    as [originAddressBytes [err |]]; simpl;
    [rewrite Nat.add_0_r; split; [exact Hfilled | reflexivity] |].
  split; [| reflexivity].
  rewrite Nat.add_1_r. round_filled Hfilled.
Qed.

Lemma appendTransaction_loop (transactions : list indexer.TransactionLabel.t) :
  forall (valuesMap : gmap string indexer.UnnestInsertValueStruct) (tx : indexer.Tx) (n : nat),
    filled transaction_label_columns n valuesMap ->
    filled transaction_label_columns
      (n + length (List.filter writable_label transactions))
      (fold_left indexer.appendTransaction transactions (valuesMap, tx)).1 /\
    (fold_left indexer.appendTransaction transactions (valuesMap, tx)).2 =
      {| indexer.executed := indexer.executed tx;
         indexer.failed := indexer.failed tx;
         indexer.drawn := (length transactions + indexer.drawn tx)%nat |}.
Proof.
  induction transactions as [| transaction transactions IH]; intros valuesMap tx n Hfilled.
  - simpl. rewrite Nat.add_0_r. split; [exact Hfilled | now destruct tx].
  - destruct (appendTransaction_round valuesMap tx transaction n Hfilled) as [Hround Htx].
    cbn [fold_left].
    destruct (indexer.appendTransaction (valuesMap, tx) transaction) as [valuesMap' tx'].
    simpl in Hround, Htx. subst tx'.
    match goal with
    | |- context [fold_left _ _ (valuesMap', ?t)] =>
        destruct (IH valuesMap' t _ Hround) as [Hloop Htx]
    end.
    rewrite Htx. cbn [indexer.executed indexer.failed indexer.drawn length List.filter].
    split.
    + destruct (writable_label transaction); cbn [length].
      * replace (n + S (length (List.filter writable_label transactions)))%nat
          with (n + 1 + length (List.filter writable_label transactions))%nat by lia.
        exact Hloop.
      * rewrite Nat.add_0_r in Hloop. exact Hloop.
    + f_equal. lia.
Qed.

(** [WriteTransactions] runs one statement with as many rows as there are
    labels whose three addresses decode, or the server refuses it. *)
Lemma WriteTransactions_cases (tx : indexer.Tx) (blockchain : string)
    (transactions : list indexer.TransactionLabel.t) :
  (exists statement : indexer.Statement,
     indexer.WriteTransactions tx blockchain transactions =
       ({| indexer.executed := (indexer.executed tx ++ [statement])%list;
           indexer.failed := indexer.failed tx;
           indexer.drawn := (length transactions + indexer.drawn tx)%nat |}, None) /\
     indexer.tx_Exec statement = None /\
     aligned (length (List.filter writable_label transactions)) statement /\
     length (indexer.arguments statement) = 12%nat) \/
  (exists err : error,
     indexer.WriteTransactions tx blockchain transactions =
       ({| indexer.executed := indexer.executed tx;
           indexer.failed := true;
           indexer.drawn := (length transactions + indexer.drawn tx)%nat |},
        Some (wrapError "error executing bulk insert for batch" err))).
Proof.
  unfold indexer.WriteTransactions. cbv beta iota zeta.
  match goal with
  | |- context [fold_left indexer.appendTransaction ?l (?v, ?t)] =>
      destruct (appendTransaction_loop l v t 0 ltac:(unfold transaction_label_columns; fresh_filled))
        as [Hfilled Htx];
      destruct (fold_left indexer.appendTransaction l (v, t)) as [valuesMap tx']
  end.
  simpl in Hfilled, Htx. subst tx'.
  match goal with
  | |- context [indexer.executeBatchInsert ?t ?name ?c ?v ?k] =>
      destruct (executeBatchInsert_cases t name c v k)
        as [(statement & -> & Hexec & Harguments) | (err & ->)];
        [left | right; exists err; reflexivity]
  end.
  exists statement. split; [reflexivity |]. split; [exact Hexec |].
  apply (filled_aligned _ _ _ _ Hfilled Harguments).
Qed.

Lemma appendEvent_round (valuesMap : gmap string indexer.UnnestInsertValueStruct)
    (tx : indexer.Tx) (event : indexer.EventLabel.t) (n : nat) :
  filled event_label_columns n valuesMap ->
  filled event_label_columns (n + (if writable_event event then 1 else 0))
    (indexer.appendEvent (valuesMap, tx) event).1 /\
  (indexer.appendEvent (valuesMap, tx) event).2 =
    {| indexer.executed := indexer.executed tx;
       indexer.failed := indexer.failed tx;
       indexer.drawn := S (indexer.drawn tx) |}.
Proof.
  intros Hfilled.
  unfold indexer.appendEvent, writable_event, decodable, indexer.uuid_New.
  cbv beta iota zeta.
  destruct (indexer.decodeAddress (indexer.EventLabel.CallerAddress event))
    as [callerAddressBytes [err |]]; simpl;
    [rewrite Nat.add_0_r; split; [exact Hfilled | reflexivity] |].
  destruct (indexer.decodeAddress (indexer.EventLabel.OriginAddress event))
    as [originAddressBytes [err |]]; simpl;
    [rewrite Nat.add_0_r; split; [exact Hfilled | reflexivity] |].
  destruct (indexer.decodeAddress (indexer.EventLabel.Address event))
    as [addressBytes [err |]]; simpl;
    [rewrite Nat.add_0_r; split; [exact Hfilled | reflexivity] |].
  split; [| reflexivity].
  rewrite Nat.add_1_r. round_filled Hfilled.
Qed.

Lemma appendEvent_loop (events : list indexer.EventLabel.t) :
  forall (valuesMap : gmap string indexer.UnnestInsertValueStruct) (tx : indexer.Tx) (n : nat),
    filled event_label_columns n valuesMap ->
    filled event_label_columns (n + length (List.filter writable_event events))
      (fold_left indexer.appendEvent events (valuesMap, tx)).1 /\
    (fold_left indexer.appendEvent events (valuesMap, tx)).2 =
      {| indexer.executed := indexer.executed tx;
         indexer.failed := indexer.failed tx;
         indexer.drawn := (length events + indexer.drawn tx)%nat |}.
Proof.
  induction events as [| event events IH]; intros valuesMap tx n Hfilled.
  - simpl. rewrite Nat.add_0_r. split; [exact Hfilled | now destruct tx].
  - destruct (appendEvent_round valuesMap tx event n Hfilled) as [Hround Htx].
    cbn [fold_left].
    destruct (indexer.appendEvent (valuesMap, tx) event) as [valuesMap' tx'].
    simpl in Hround, Htx. subst tx'.
    match goal with
    | |- context [fold_left _ _ (valuesMap', ?t)] =>
        destruct (IH valuesMap' t _ Hround) as [Hloop Htx]
    end.
    rewrite Htx. cbn [indexer.executed indexer.failed indexer.drawn length List.filter].
    split.
    + destruct (writable_event event); cbn [length].
      * replace (n + S (length (List.filter writable_event events)))%nat
          with (n + 1 + length (List.filter writable_event events))%nat by lia.
        exact Hloop.
      * rewrite Nat.add_0_r in Hloop. exact Hloop.
    + f_equal. lia.
Qed.

(** [WriteEvents], as [WriteTransactions]. *)
Lemma WriteEvents_cases (tx : indexer.Tx) (blockchain : string)
    (events : list indexer.EventLabel.t) :
  (exists statement : indexer.Statement,
     indexer.WriteEvents tx blockchain events =
       ({| indexer.executed := (indexer.executed tx ++ [statement])%list;
           indexer.failed := indexer.failed tx;
           indexer.drawn := (length events + indexer.drawn tx)%nat |}, None) /\
     indexer.tx_Exec statement = None /\
     aligned (length (List.filter writable_event events)) statement /\
     length (indexer.arguments statement) = 13%nat) \/
  (exists err : error,
     indexer.WriteEvents tx blockchain events =
       ({| indexer.executed := indexer.executed tx;
           indexer.failed := true;
           indexer.drawn := (length events + indexer.drawn tx)%nat |},
        Some (wrapError "error executing bulk insert for batch" err))).
Proof.
  unfold indexer.WriteEvents. cbv beta iota zeta.
  match goal with
  | |- context [fold_left indexer.appendEvent ?l (?v, ?t)] =>
      destruct (appendEvent_loop l v t 0 ltac:(unfold event_label_columns; fresh_filled))
        as [Hfilled Htx];
      destruct (fold_left indexer.appendEvent l (v, t)) as [valuesMap tx']
  end.
  simpl in Hfilled, Htx. subst tx'.
  match goal with
  | |- context [indexer.executeBatchInsert ?t ?name ?c ?v ?k] =>
      destruct (executeBatchInsert_cases t name c v k)
        as [(statement & -> & Hexec & Harguments) | (err & ->)];
        [left | right; exists err; reflexivity]
  end.
  exists statement. split; [reflexivity |]. split; [exact Hexec |].
  apply (filled_aligned _ _ _ _ Hfilled Harguments).
Qed.

Lemma appendRawTransaction_round (isL1 : bool)
    (valuesMap : gmap string indexer.UnnestInsertValueStruct)
    (rawTransaction : indexer.RawTransaction.t) (n : nat) :
  filled (raw_transaction_columns ++ (if isL1 then ["l1_block_number"] else []))%list
    n valuesMap ->
  match indexer.appendRawTransaction isL1 valuesMap rawTransaction with
  | (valuesMap', None) =>
      filled (raw_transaction_columns ++ (if isL1 then ["l1_block_number"] else []))%list
        (S n) valuesMap'
  | (valuesMap', Some _) => valuesMap' = valuesMap
  end.
Proof.
  intros Hfilled. unfold indexer.appendRawTransaction.
  destruct (indexer.decodeAddress _) as [fromAddress [err |]]; [reflexivity |].
  destruct (indexer.decodeAddress _) as [toAddress [err |]]; [reflexivity |].
  destruct (indexer.hexStringToBigInt (indexer.RawTransaction.Gas _))
    as [gas [err |]]; [reflexivity |].
  destruct (indexer.hexStringToBigInt (indexer.RawTransaction.GasPrice _))
    as [gasPrice [err |]]; [reflexivity |].
  destruct (indexer.hexStringToBigInt (indexer.RawTransaction.MaxFeePerGas _))
    as [maxFee [err |]]; [reflexivity |].
  destruct (indexer.hexStringToBigInt (indexer.RawTransaction.MaxPriorityFeePerGas _))
    as [maxPriority [err |]]; [reflexivity |].
  destruct (indexer.hexStringToBigInt (indexer.RawTransaction.Value _))
    as [value [err |]]; [reflexivity |].
  destruct isL1; cbv beta iota zeta; round_filled Hfilled.
Qed.

Lemma appendRawTransactions_loop (isL1 : bool)
    (rawTransactions : list indexer.RawTransaction.t) :
  forall (valuesMap : gmap string indexer.UnnestInsertValueStruct) (n : nat),
    filled (raw_transaction_columns ++ (if isL1 then ["l1_block_number"] else []))%list
      n valuesMap ->
    match indexer.appendRawTransactions isL1 valuesMap rawTransactions with
    | (valuesMap', None) =>
        filled (raw_transaction_columns ++ (if isL1 then ["l1_block_number"] else []))%list
          (n + length rawTransactions) valuesMap'
    | (_, Some _) => True
    end.
Proof.
  induction rawTransactions as [| rawTransaction rawTransactions IH];
    intros valuesMap n Hfilled; simpl.
  - now rewrite Nat.add_0_r.
  - pose proof (appendRawTransaction_round isL1 valuesMap rawTransaction n Hfilled) as Hround.
    destruct (indexer.appendRawTransaction isL1 valuesMap rawTransaction)
      as [valuesMap' [err |]]; [exact I |].
    specialize (IH valuesMap' (S n) Hround).
    replace (n + S (length rawTransactions))%nat with (S n + length rawTransactions)%nat
      by lia.
    exact IH.
Qed.

(** [WriteRawTransactions] stops at the first transaction with a field
    that does not parse, before it has asked the server anything; else it
    runs one statement with a row for every transaction, or the server
    refuses it. *)
Lemma WriteRawTransactions_cases (tx : indexer.Tx) (blockchain : string)
    (rawTransactions : list indexer.RawTransaction.t) :
  (exists err : error,
     indexer.WriteRawTransactions tx blockchain rawTransactions = (tx, Some err)) \/
  (exists statement : indexer.Statement,
     indexer.WriteRawTransactions tx blockchain rawTransactions =
       ({| indexer.executed := (indexer.executed tx ++ [statement])%list;
           indexer.failed := indexer.failed tx;
           indexer.drawn := indexer.drawn tx |}, None) /\
     indexer.tx_Exec statement = None /\
     aligned (length rawTransactions) statement /\
     length (indexer.arguments statement) =
       (if indexer.IsBlockchainWithL1Chain blockchain then 16 else 15)%nat) \/
  (exists err : error,
     indexer.WriteRawTransactions tx blockchain rawTransactions =
       ({| indexer.executed := indexer.executed tx;
           indexer.failed := true;
           indexer.drawn := indexer.drawn tx |},
        Some (wrapError "error executing bulk insert for batch" err))).
Proof.
  unfold indexer.WriteRawTransactions. cbv beta iota zeta.
  destruct (indexer.IsBlockchainWithL1Chain blockchain) eqn:HisL1;
    match goal with
    | |- context [indexer.appendRawTransactions ?f ?v ?l] =>
        pose proof (appendRawTransactions_loop f l v 0
                      ltac:(unfold raw_transaction_columns; fresh_filled)) as Hfilled;
        destruct (indexer.appendRawTransactions f v l) as [valuesMap [err |]];
          [left; exists err; reflexivity | right]
    end;
    match goal with
    | |- context [indexer.executeBatchInsert ?t ?name ?c ?v ?k] =>
        destruct (executeBatchInsert_cases t name c v k)
          as [(statement & -> & Hexec & Harguments) | (err & ->)];
          [left | right; exists err; reflexivity]
    end;
    exists statement; (split; [reflexivity |]); (split; [exact Hexec |]);
    apply (filled_aligned _ _ _ _ Hfilled Harguments).
Qed.

End WriterProperties.

(** ** The block-index write *)

(** X3. [WriteIndexes] never panics and writes all or nothing: after the
    call the database is what it was, or it has gained one statement, and
    then no error is returned, the chain is known, the pack is not empty, the
    server accepted the statement and the commit, and the statement has one
    array per column (nine on a chain with an L1 block number, eight
    otherwise), each with one value for every index of the pack. *)
Theorem WriteIndexes_all_or_nothing (F : Fmt) (P : indexer.PostgreSQLpgx)
    (database : list indexer.Statement) (blockchain : string)
    (blocksIndexPack : list indexer.BlockIndex.t) :
  exists (err : option error) (database' : list indexer.Statement),
    indexer.WriteIndexes database blockchain blocksIndexPack =
      (indexer.Returned err, database') /\
    (database' = database \/
     exists statement : indexer.Statement,
       database' = (database ++ [statement])%list /\
       err = None /\
       In blockchain known_chains /\
       blocksIndexPack <> [] /\
       indexer.tx_Exec statement = None /\
       indexer.commit_fault = None /\
       aligned (length blocksIndexPack) statement /\
       length (indexer.arguments statement) =
         (if indexer.IsBlockchainWithL1Chain blockchain then 9 else 8)%nat).
Proof.
  unfold indexer.WriteIndexes.
  destruct indexer.pool_Acquire as [err |]; [eauto |].
  destruct indexer.conn_Begin as [err |]; [eauto |].
  cbv zeta.
  destruct blocksIndexPack as [| index indexes].
  { simpl. unfold indexer.Commit. simpl.
    destruct indexer.commit_fault; simpl; [eauto |].
    rewrite app_nil_r. eauto. }
  change (0 <? Z.of_nat (length (index :: indexes))) with true. cbv iota.
  destruct (writeBlockIndexToDB_cases
              {| indexer.executed := []; indexer.failed := false; indexer.drawn := 0 |}
              blockchain (index :: indexes))
    as [[Hnot ->] | [(Hin & statement & -> & Hexec & Haligned & Hlength) | (Hin & err & ->)]];
    [simpl; eauto | | simpl; eauto].
  unfold indexer.Commit. cbn [indexer.failed indexer.executed app].
  destruct indexer.commit_fault eqn:Hcommit; cbn [fst].
  - eauto.
  - eexists. eexists. split; [reflexivity |]. right.
    exists statement. repeat split; auto; discriminate.
Qed.

(** X4. [WriteIndexes] does not report a commit that fails: on a server
    that accepts every statement and then fails to commit, the call on a
    known chain returns no error and leaves the database as it was. *)
Theorem WriteIndexes_drops_commit_error (F : Fmt) (P : indexer.PostgreSQLpgx)
    (database : list indexer.Statement) (blockchain : string)
    (blocksIndexPack : list indexer.BlockIndex.t) (commitErr : error)
    (Hacquire : indexer.pool_Acquire = None) (Hbegin : indexer.conn_Begin = None)
    (Hexec : forall statement : indexer.Statement, indexer.tx_Exec statement = None)
    (Hcommit : indexer.commit_fault = Some commitErr)
    (Hchain : In blockchain known_chains) :
  indexer.WriteIndexes database blockchain blocksIndexPack =
    (indexer.Returned None, database).
Proof.
  unfold indexer.WriteIndexes. rewrite Hacquire, Hbegin. cbv zeta.
  destruct blocksIndexPack as [| index indexes].
  { simpl. unfold indexer.Commit. simpl. now rewrite Hcommit. }
  change (0 <? Z.of_nat (length (index :: indexes))) with true. cbv iota.
  destruct (writeBlockIndexToDB_cases
              {| indexer.executed := []; indexer.failed := false; indexer.drawn := 0 |}
              blockchain (index :: indexes))
    as [[Hnot _] | [(_ & statement & -> & _) | (_ & err & Hwrite)]].
  - contradiction.
  - unfold indexer.Commit. simpl. now rewrite Hcommit.
  - exfalso. revert Hwrite.
    destruct (known_chain_tables blockchain Hchain) as [Hblocks _].
    unfold indexer.writeBlockIndexToDB, indexer.executeBatchInsert.
    rewrite Hblocks. cbv beta iota zeta. rewrite Hexec. discriminate.
Qed.

Lemma WriteIndexes_drops_commit_error_witness :
  @indexer.WriteIndexes commit_failing_database [] "ethereum" [example_index] =
    (indexer.Returned None, []).
Proof.
  apply (WriteIndexes_drops_commit_error copy_fmt commit_failing_database [] "ethereum"
           [example_index] (errorString "conn closed"));
    try reflexivity.
  vm_compute. tauto.
Defined.

(** ** The label and raw-transaction writes *)

Section RawWriterProperties.
Context `{Fmt} `{indexer.PostgreSQLpgx}.

Lemma appendRawTransaction_writable (isL1 : bool)
    (valuesMap : gmap string indexer.UnnestInsertValueStruct)
    (rawTransaction : indexer.RawTransaction.t) :
  if writable_raw rawTransaction
  then exists valuesMap' : gmap string indexer.UnnestInsertValueStruct,
         indexer.appendRawTransaction isL1 valuesMap rawTransaction = (valuesMap', None)
  else exists err : error,
         indexer.appendRawTransaction isL1 valuesMap rawTransaction = (valuesMap, Some err).
Proof.
  unfold writable_raw, numeric_fields, decodable, parses, indexer.appendRawTransaction.
  cbn [forallb].
  destruct (indexer.decodeAddress _) as [fromAddress [err |]]; [simpl; eauto |].
  destruct (indexer.decodeAddress _) as [toAddress [err |]]; [simpl; eauto |].
  destruct (indexer.hexStringToBigInt (indexer.RawTransaction.Gas _))
    as [gas [err |]]; [simpl; eauto |].
  destruct (indexer.hexStringToBigInt (indexer.RawTransaction.GasPrice _))
    as [gasPrice [err |]]; [simpl; eauto |].
  destruct (indexer.hexStringToBigInt (indexer.RawTransaction.MaxFeePerGas _))
    as [maxFee [err |]]; [simpl; eauto |].
  destruct (indexer.hexStringToBigInt (indexer.RawTransaction.MaxPriorityFeePerGas _))
    as [maxPriority [err |]]; [simpl; eauto |].
  destruct (indexer.hexStringToBigInt (indexer.RawTransaction.Value _))
    as [value [err |]]; [simpl; eauto |].
  simpl. eauto.
Qed.

Lemma appendRawTransactions_writable (isL1 : bool)
    (rawTransactions : list indexer.RawTransaction.t) :
  forall valuesMap : gmap string indexer.UnnestInsertValueStruct,
    if forallb writable_raw rawTransactions
    then exists valuesMap' : gmap string indexer.UnnestInsertValueStruct,
           indexer.appendRawTransactions isL1 valuesMap rawTransactions = (valuesMap', None)
    else exists (err : error) (valuesMap' : gmap string indexer.UnnestInsertValueStruct),
           indexer.appendRawTransactions isL1 valuesMap rawTransactions =
             (valuesMap', Some err).
Proof.
  induction rawTransactions as [| rawTransaction rawTransactions IH]; intros valuesMap.
  - simpl. eauto.
  - cbn [forallb indexer.appendRawTransactions].
    pose proof (appendRawTransaction_writable isL1 valuesMap rawTransaction) as Hround.
    destruct (writable_raw rawTransaction); cbn [andb].
    + destruct Hround as [valuesMap' ->]. apply IH.
    + destruct Hround as [err ->]. eauto.
Qed.

End RawWriterProperties.

(** X5. [WriteTransactions] drops the labels with an address that does not
    decode and reports no error for them: it asks the server for one insert
    of twelve arrays, each with one value for every label whose three
    addresses decode. When the server accepts, the statement is added to the
    open transaction; when it refuses, nothing is added and the transaction
    is left aborted. An identifier is drawn for every label, dropped or
    not. *)
Theorem WriteTransactions_rows (F : Fmt) (P : indexer.PostgreSQLpgx) (tx : indexer.Tx)
    (blockchain : string) (transactions : list indexer.TransactionLabel.t) :
  exists (tx' : indexer.Tx) (err : option error),
    indexer.WriteTransactions tx blockchain transactions = (tx', err) /\
    indexer.drawn tx' = (length transactions + indexer.drawn tx)%nat /\
    match err with
    | None =>
        indexer.failed tx' = indexer.failed tx /\
        exists statement : indexer.Statement,
          indexer.executed tx' = (indexer.executed tx ++ [statement])%list /\
          batch 1 (length (List.filter writable_label transactions)) 12 [statement]
    | Some _ =>
        indexer.failed tx' = true /\ indexer.executed tx' = indexer.executed tx
    end.
Proof.
  destruct (WriteTransactions_cases tx blockchain transactions)
    as [(statement & -> & Hexec & Haligned & Hlength) | (err & ->)].
  - eexists. exists None. split; [reflexivity |]. split; [reflexivity |].
    split; [reflexivity |]. exists statement. split; [reflexivity |].
    exists statement. auto.
  - eexists. eexists. split; [reflexivity |]. simpl. auto.
Qed.

(** X6. [WriteEvents] drops the events with an address that does not decode
    and reports no error for them: it asks the server for one insert of
    thirteen arrays, each with one value for every event whose three
    addresses decode. When the server accepts, the statement is added to the
    open transaction; when it refuses, nothing is added and the transaction
    is left aborted. *)
Theorem WriteEvents_rows (F : Fmt) (P : indexer.PostgreSQLpgx) (tx : indexer.Tx)
    (blockchain : string) (events : list indexer.EventLabel.t) :
  exists (tx' : indexer.Tx) (err : option error),
    indexer.WriteEvents tx blockchain events = (tx', err) /\
    indexer.drawn tx' = (length events + indexer.drawn tx)%nat /\
    match err with
    | None =>
        indexer.failed tx' = indexer.failed tx /\
        exists statement : indexer.Statement,
          indexer.executed tx' = (indexer.executed tx ++ [statement])%list /\
          batch 1 (length (List.filter writable_event events)) 13 [statement]
    | Some _ =>
        indexer.failed tx' = true /\ indexer.executed tx' = indexer.executed tx
    end.
Proof.
  destruct (WriteEvents_cases tx blockchain events)
    as [(statement & -> & Hexec & Haligned & Hlength) | (err & ->)].
  - eexists. exists None. split; [reflexivity |]. split; [reflexivity |].
    split; [reflexivity |]. exists statement. split; [reflexivity |].
    exists statement. auto.
  - eexists. eexists. split; [reflexivity |]. simpl. auto.
Qed.

(** X7. [WriteRawTransactions] drops nothing. When an address of one
    transaction does not decode or one of its numeric fields does not parse,
    the call returns an error and has not touched the open transaction.
    Otherwise it asks the server for one insert with one value in every
    array for every transaction, fifteen arrays and one more on a chain with
    an L1 block number; a refusal of the server leaves the transaction
    aborted. *)
Theorem WriteRawTransactions_rows (F : Fmt) (P : indexer.PostgreSQLpgx) (tx : indexer.Tx)
    (blockchain : string) (rawTransactions : list indexer.RawTransaction.t) :
  exists (tx' : indexer.Tx) (err : option error),
    indexer.WriteRawTransactions tx blockchain rawTransactions = (tx', err) /\
    (if forallb writable_raw rawTransactions
     then match err with
          | None =>
              indexer.failed tx' = indexer.failed tx /\
              exists statement : indexer.Statement,
                indexer.executed tx' = (indexer.executed tx ++ [statement])%list /\
                batch 1 (length rawTransactions)
                  (if indexer.IsBlockchainWithL1Chain blockchain then 16 else 15)
                  [statement]
          | Some _ =>
              indexer.failed tx' = true /\ indexer.executed tx' = indexer.executed tx
          end
     else tx' = tx /\ err <> None).
Proof.
  destruct (forallb writable_raw rawTransactions) eqn:Hwritable.
  - destruct (WriteRawTransactions_cases tx blockchain rawTransactions)
      as [(err & Hwrite) | [(statement & -> & Hexec & Haligned & Hlength) | (err & ->)]].
    + assert (Hfailed : indexer.failed tx = true).
      { revert Hwrite. unfold indexer.WriteRawTransactions. cbv beta iota zeta.
        match goal with
        | |- context [indexer.appendRawTransactions ?f ?v ?l] =>
            pose proof (appendRawTransactions_writable f l v) as Hloop
        end.
        rewrite Hwritable in Hloop. destruct Hloop as [valuesMap' ->].
        unfold indexer.executeBatchInsert.
        destruct (indexer.tx_Exec _); intros Hwrite; inversion Hwrite as [[Htx Herr]].
        rewrite <- Htx at 1. reflexivity. }
      rewrite Hwrite. exists tx, (Some err). auto.
    + eexists. exists None. split; [reflexivity |]. split; [reflexivity |].
      exists statement. split; [reflexivity |]. exists statement. auto.
    + eexists. eexists. split; [reflexivity |]. simpl. auto.
  - unfold indexer.WriteRawTransactions. cbv beta iota zeta.
    match goal with
    | |- context [indexer.appendRawTransactions ?f ?v ?l] =>
        pose proof (appendRawTransactions_writable f l v) as Hloop
    end.
    rewrite Hwritable in Hloop. destruct Hloop as (err & valuesMap' & ->).
    eexists. eexists. split; [reflexivity |]. split; [reflexivity | discriminate].
Qed.

(** ** The multi-table write, in general *)

Section CustomerWriteProperties.
Context `{Fmt} `{indexer.PostgreSQLpgx}.

Lemma written_transactions (tx : indexer.Tx) (blockchain : string)
    (txCalls : list indexer.TransactionLabel.t) :
  exists statements : list indexer.Statement,
    written (length txCalls) (length (List.filter writable_label txCalls)) 12 tx
      (if 0 <? Z.of_nat (length txCalls)
       then indexer.WriteTransactions tx blockchain txCalls else (tx, None))
      statements.
Proof.
  destruct txCalls as [| txCall txCalls].
  { exists []. split; [symmetry; apply app_nil_r |]. repeat split. constructor. }
  change (0 <? Z.of_nat (length (txCall :: txCalls))) with true. cbv iota.
  destruct (WriteTransactions_cases tx blockchain (txCall :: txCalls))
    as [(statement & -> & Hexec & Haligned & Hlength) | (err & ->)].
  - exists [statement]. split; [reflexivity |]. split; [now repeat constructor |].
    split; [reflexivity |]. exists statement. auto.
  - exists []. split; [symmetry; apply app_nil_r |]. split; [constructor | reflexivity].
Qed.

Lemma written_events (tx : indexer.Tx) (blockchain : string)
    (events : list indexer.EventLabel.t) :
  exists statements : list indexer.Statement,
    written (length events) (length (List.filter writable_event events)) 13 tx
      (if 0 <? Z.of_nat (length events)
       then indexer.WriteEvents tx blockchain events else (tx, None))
      statements.
Proof.
  destruct events as [| event events].
  { exists []. split; [symmetry; apply app_nil_r |]. repeat split. constructor. }
  change (0 <? Z.of_nat (length (event :: events))) with true. cbv iota.
  destruct (WriteEvents_cases tx blockchain (event :: events))
    as [(statement & -> & Hexec & Haligned & Hlength) | (err & ->)].
  - exists [statement]. split; [reflexivity |]. split; [now repeat constructor |].
    split; [reflexivity |]. exists statement. auto.
  - exists []. split; [symmetry; apply app_nil_r |]. split; [constructor | reflexivity].
Qed.

Lemma written_rawTransactions (tx : indexer.Tx) (blockchain : string)
    (rawTransactions : list indexer.RawTransaction.t) :
  exists statements : list indexer.Statement,
    written (length rawTransactions) (length rawTransactions)
      (if indexer.IsBlockchainWithL1Chain blockchain then 16 else 15) tx
      (if 0 <? Z.of_nat (length rawTransactions)
       then indexer.WriteRawTransactions tx blockchain rawTransactions else (tx, None))
      statements.
Proof.
  destruct rawTransactions as [| rawTransaction rawTransactions].
  { exists []. split; [symmetry; apply app_nil_r |]. repeat split. constructor. }
  change (0 <? Z.of_nat (length (rawTransaction :: rawTransactions))) with true. cbv iota.
  destruct (WriteRawTransactions_cases tx blockchain (rawTransaction :: rawTransactions))
    as [(err & ->) | [(statement & -> & Hexec & Haligned & Hlength) | (err & ->)]].
  - exists []. split; [symmetry; apply app_nil_r |]. split; [constructor | reflexivity].
  - exists [statement]. split; [reflexivity |]. split; [now repeat constructor |].
    split; [reflexivity |]. exists statement. auto.
  - exists []. split; [symmetry; apply app_nil_r |]. split; [constructor | reflexivity].
Qed.

Lemma written_length (given rows columns : nat) (tx : indexer.Tx)
    (out : indexer.Tx * option error) (statements : list indexer.Statement) :
  written given rows columns tx out statements -> (length statements <= 1)%nat.
Proof.
  intros (_ & _ & Hout). destruct out as [tx' [err |]]; simpl in Hout.
  - subst statements. simpl. lia.
  - destruct Hout as [_ Hbatch]. destruct given as [| given]; simpl in Hbatch.
    + subst statements. simpl. lia.
    + destruct Hbatch as (statement & -> & _). simpl. lia.
Qed.

(** The body runs the three writes in turn and stops at the first error. *)
Lemma writeDataBody_cases (tx : indexer.Tx) (blockchain : string)
    (txCalls : list indexer.TransactionLabel.t) (events : list indexer.EventLabel.t)
    (rawTransactions : list indexer.RawTransaction.t) :
  exists (tx' : indexer.Tx) (result : option error)
         (labelled emitted raw : list indexer.Statement),
    indexer.writeDataBody tx blockchain txCalls events rawTransactions = (tx', result) /\
    indexer.executed tx' = (indexer.executed tx ++ labelled ++ emitted ++ raw)%list /\
    Forall (fun statement => indexer.tx_Exec statement = None)
      (labelled ++ emitted ++ raw)%list /\
    (length (labelled ++ emitted ++ raw) <= 3)%nat /\
    (result = None ->
     indexer.failed tx' = indexer.failed tx /\
     batch (length txCalls) (length (List.filter writable_label txCalls)) 12 labelled /\
     batch (length events) (length (List.filter writable_event events)) 13 emitted /\
     batch (length rawTransactions) (length rawTransactions)
       (if indexer.IsBlockchainWithL1Chain blockchain then 16 else 15) raw).
Proof.
  unfold indexer.writeDataBody. cbv zeta.
  destruct (written_transactions tx blockchain txCalls) as (labelled & Hlabelled).
  pose proof (written_length _ _ _ _ _ _ Hlabelled) as Hllength.
  destruct Hlabelled as (Hl & Hlok & Hlbatch).
  destruct (if 0 <? Z.of_nat (length txCalls) then _ else _) as [tx1 [err |]];
    simpl in Hl, Hlbatch.
  { subst labelled. exists tx1, (Some err), [], [], []. simpl.
    repeat split; auto; try discriminate; lia. }
  destruct Hlbatch as [Hlfailed Hlbatch].
  destruct (written_events tx1 blockchain events) as (emitted & Hemitted).
  pose proof (written_length _ _ _ _ _ _ Hemitted) as Helength.
  destruct Hemitted as (He & Heok & Hebatch).
  destruct (if 0 <? Z.of_nat (length events) then _ else _) as [tx2 [err |]];
    simpl in He, Hebatch.
  { subst emitted. exists tx2, (Some err), labelled, [], []. simpl.
    rewrite He, Hl, !app_nil_r. repeat split; auto; try discriminate; lia. }
  destruct Hebatch as [Hefailed Hebatch].
  destruct (written_rawTransactions tx2 blockchain rawTransactions) as (raw & Hraw).
  pose proof (written_length _ _ _ _ _ _ Hraw) as Hrlength.
  destruct Hraw as (Hr & Hrok & Hrbatch).
  destruct (if 0 <? Z.of_nat (length rawTransactions) then _ else _) as [tx3 [err |]];
    simpl in Hr, Hrbatch.
  { subst raw. exists tx3, (Some err), labelled, emitted, []. simpl.
    rewrite Hr, He, Hl, !app_nil_r, <- !app_assoc.
    repeat split; auto; try discriminate.
    - now apply Forall_app.
    - rewrite length_app. lia. }
  destruct Hrbatch as [Hrfailed Hrbatch].
  exists tx3, None, labelled, emitted, raw.
  rewrite Hr, He, Hl, <- !app_assoc.
  repeat split; auto; try congruence.
  - repeat (apply Forall_app; split); auto.
  - rewrite !length_app. lia.
Qed.

End CustomerWriteProperties.

(** X8. A call of [WriteDataToCustomerDB] that returns no error has made
    all its writes: the database has gained, in this order, the insert of
    the transaction labels, the insert of the events and the insert of the
    raw transactions, each present exactly when its input is not empty and
    accepted by the server, with one row for every label and every event
    whose addresses decode and one row for every raw transaction. *)
Theorem WriteDataToCustomerDB_success (F : Fmt) (P : indexer.PostgreSQLpgx)
    (database database' : list indexer.Statement) (blockchain : string)
    (txCalls : list indexer.TransactionLabel.t) (events : list indexer.EventLabel.t)
    (rawTransactions : list indexer.RawTransaction.t)
    (Hreturn : indexer.WriteDataToCustomerDB database blockchain txCalls events
                 rawTransactions = (indexer.Returned None, database')) :
  exists labelled emitted raw : list indexer.Statement,
    database' = (database ++ labelled ++ emitted ++ raw)%list /\
    batch (length txCalls) (length (List.filter writable_label txCalls)) 12 labelled /\
    batch (length events) (length (List.filter writable_event events)) 13 emitted /\
    batch (length rawTransactions) (length rawTransactions)
      (if indexer.IsBlockchainWithL1Chain blockchain then 16 else 15) raw.
Proof.
  revert Hreturn. unfold indexer.WriteDataToCustomerDB.
  destruct indexer.pool_Acquire; [discriminate |].
  destruct indexer.conn_Begin; [discriminate |].
  cbv zeta.
  destruct (writeDataBody_cases
              {| indexer.executed := []; indexer.failed := false; indexer.drawn := 0 |}
              blockchain txCalls events rawTransactions)
    as (tx' & result & labelled & emitted & raw & -> & Hexecuted & _ & _ & Hbatches).
  unfold indexer.Commit.
  destruct (indexer.failed tx') eqn:Hfailed; [discriminate |].
  destruct indexer.commit_fault; [discriminate |].
  intros Hreturn. injection Hreturn as -> <-.
  destruct (Hbatches eq_refl) as (_ & Hl & He & Hr).
  exists labelled, emitted, raw. rewrite Hexecuted. auto.
Qed.

Lemma WriteDataToCustomerDB_success_witness :
  exists labelled emitted raw : list indexer.Statement,
    [transfer_insert] = ([] ++ labelled ++ emitted ++ raw)%list /\
    @batch healthy_database 1 1 12 labelled /\
    @batch healthy_database 0 0 13 emitted /\
    @batch healthy_database 0 0 15 raw.
Proof.
  apply (WriteDataToCustomerDB_success copy_fmt healthy_database [] [transfer_insert]
           "ethereum" [transfer_label] [] []).
  vm_compute. reflexivity.
Defined.

(** X9. Whatever [WriteDataToCustomerDB] is given, the database afterwards
    is the old one followed by at most three statements, all of which the
    server accepted. A call that panics leaves the database as it was, and
    the value of the panic is the error of the commit. *)
Theorem WriteDataToCustomerDB_outcomes (F : Fmt) (P : indexer.PostgreSQLpgx)
    (database : list indexer.Statement) (blockchain : string)
    (txCalls : list indexer.TransactionLabel.t) (events : list indexer.EventLabel.t)
    (rawTransactions : list indexer.RawTransaction.t) :
  exists (out : indexer.outcome) (statements : list indexer.Statement),
    indexer.WriteDataToCustomerDB database blockchain txCalls events rawTransactions =
      (out, (database ++ statements)%list) /\
    Forall (fun statement => indexer.tx_Exec statement = None) statements /\
    (length statements <= 3)%nat /\
    match out with
    | indexer.Panicked r =>
        statements = [] /\
        indexer.pool_Acquire = None /\ indexer.conn_Begin = None /\
        (r = ErrTxCommitRollback \/ indexer.commit_fault = Some r)
    | indexer.Returned _ => True
    end.
Proof.
  unfold indexer.WriteDataToCustomerDB.
  destruct indexer.pool_Acquire;
    [exists (indexer.Returned (Some e)), []; rewrite app_nil_r; repeat split; auto;
     simpl; lia |].
  destruct indexer.conn_Begin;
    [exists (indexer.Returned (Some e)), []; rewrite app_nil_r; repeat split; auto;
     simpl; lia |].
  cbv zeta.
  destruct (writeDataBody_cases
              {| indexer.executed := []; indexer.failed := false; indexer.drawn := 0 |}
              blockchain txCalls events rawTransactions)
    as (tx' & result & labelled & emitted & raw & -> & Hexecuted & Haccepted & Hlength &
        Hbatches).
  unfold indexer.Commit.
  destruct (indexer.failed tx') eqn:Hfailed.
  { exists (indexer.Panicked ErrTxCommitRollback), []. rewrite app_nil_r.
    repeat split; auto; simpl; lia. }
  destruct indexer.commit_fault eqn:Hcommit.
  { exists (indexer.Panicked e), []. rewrite app_nil_r. repeat split; auto; simpl; lia. }
  exists (indexer.Returned result), (labelled ++ emitted ++ raw)%list.
  rewrite Hexecuted. simpl. repeat split; auto.
Qed.

(** ** The sequential fetch *)

Section SequentialFetcherProperties.
Variable BlockJson : Type.
Variable GetBlockByNumber : Z -> evm.task BlockJson.

Local Abbreviation fetchLoop := (evm.fetchLoop BlockJson GetBlockByNumber).

Lemma fetchLoop_all (numbers : list Z) :
  (forall b : Z, In b numbers -> exists block : BlockJson, GetBlockByNumber b = evm.fetched block) ->
  forall blocks : list BlockJson,
  exists new : list BlockJson,
    fetchLoop numbers blocks = inl ((blocks ++ new)%list, None) /\
    new = concat (map (evm.appended BlockJson GetBlockByNumber) numbers) /\
    Forall2 (fun number block => GetBlockByNumber number = evm.fetched block) numbers new.
Proof.
  induction numbers as [| i numbers IH]; intros Hall blocks.
  - exists []. simpl. rewrite app_nil_r. repeat split. constructor.
  - destruct (Hall i (or_introl eq_refl)) as [block Hblock].
    destruct (IH (fun b Hin => Hall b (or_intror Hin)) (blocks ++ [block])%list)
      as (new & Hloop & Hnew & Hall2).
    exists (block :: new). simpl. unfold evm.appended at 1. rewrite Hblock.
    rewrite Hloop, <- app_assoc. simpl. repeat split.
    + now rewrite Hnew.
    + now constructor.
Qed.

Lemma fetchLoop_first (before after : list Z) (i : Z) :
  (forall b : Z, In b before -> exists block : BlockJson, GetBlockByNumber b = evm.fetched block) ->
  forall blocks : list BlockJson,
    fetchLoop (before ++ i :: after) blocks =
      match GetBlockByNumber i with
      | evm.failed err => inl ([], Some err)
      | evm.panicked r => inr r
      | evm.fetched block =>
          fetchLoop after
            (blocks ++ concat (map (evm.appended BlockJson GetBlockByNumber) before) ++ [block])%list
      end.
Proof.
  induction before as [| b before IH]; intros Hall blocks.
  - simpl. destruct (GetBlockByNumber i); reflexivity.
  - destruct (Hall b (or_introl eq_refl)) as [block Hblock].
    simpl. unfold evm.appended at 1. rewrite Hblock.
    rewrite (IH (fun b Hin => Hall b (or_intror Hin))).
    destruct (GetBlockByNumber i); try reflexivity.
    simpl. now rewrite <- !app_assoc.
Qed.

End SequentialFetcherProperties.

(** X10. [FetchBlocksInRange] asks for the blocks of the range in ascending
    order and stops at the first that is not fetched: when the request of
    block [i] returns an error and every block below [i] was fetched, the
    call returns that error and no block; when it panics, the call panics
    with the same value; when every block of the range is fetched the call
    returns them in the order of their numbers, one for each number. *)
Theorem FetchBlocksInRange_first_failure (BlockJson : Type)
    (GetBlockByNumber : Z -> evm.task BlockJson) (from to : Z) :
  (forall i : Z,
     from <= i <= to ->
     (forall b : Z, from <= b < i ->
        exists block : BlockJson, GetBlockByNumber b = evm.fetched block) ->
     (forall err : string,
        GetBlockByNumber i = evm.failed err ->
        evm.FetchBlocksInRange BlockJson GetBlockByNumber from to = inl ([], Some err)) /\
     (forall r : string,
        GetBlockByNumber i = evm.panicked r ->
        evm.FetchBlocksInRange BlockJson GetBlockByNumber from to = inr r)) /\
  ((forall b : Z, from <= b <= to ->
      exists block : BlockJson, GetBlockByNumber b = evm.fetched block) ->
   exists blocks : list BlockJson,
     evm.FetchBlocksInRange BlockJson GetBlockByNumber from to = inl (blocks, None) /\
     Forall2 (fun number block => GetBlockByNumber number = evm.fetched block)
       (evm.blockNumbersRange from to) blocks).
Proof.
  unfold evm.FetchBlocksInRange, evm.blockNumbersRange. split.
  - intros i Hi Hbelow.
    assert (Hrange : seqZ from (to - from + 1) =
                     (seqZ from (i - from) ++ i :: seqZ (i + 1) (to - i))%list).
    { replace (to - from + 1) with ((i - from) + (1 + (to - i))) by lia.
      rewrite seqZ_app by lia.
      replace (from + (i - from)) with i by lia.
      rewrite (seqZ_cons i) by lia.
      repeat f_equal; lia. }
    rewrite Hrange.
    assert (Hall : forall b : Z, In b (seqZ from (i - from)) ->
                     exists block : BlockJson, GetBlockByNumber b = evm.fetched block).
    { intros b Hin. apply list_elem_of_In, elem_of_seqZ in Hin. apply Hbelow. lia. }
    rewrite (fetchLoop_first BlockJson GetBlockByNumber _ _ i Hall).
    split; intros ? ->; reflexivity.
  - intros Hall.
    destruct (fetchLoop_all BlockJson GetBlockByNumber (seqZ from (to - from + 1))) with (blocks := @nil BlockJson)
      as (new & Hloop & _ & Hall2).
    { intros b Hin. apply list_elem_of_In, elem_of_seqZ in Hin. apply Hall. lia. }
    exists new. split; [exact Hloop | exact Hall2].
Qed.

(** ** Fetching and parsing blocks *)

Section SequentialFetchEnds.
Variable BlockJson : Type.
Variable GetBlockByNumber : Z -> evm.task BlockJson.

Local Abbreviation fetchLoop := (evm.fetchLoop BlockJson GetBlockByNumber).
Local Abbreviation appended := (evm.appended BlockJson GetBlockByNumber).

Lemma fetchLoop_returned (numbers : list Z) :
  forall blocks result : list BlockJson,
    fetchLoop numbers blocks = inl (result, None) ->
    result = (blocks ++ concat (map appended numbers))%list.
Proof.
  induction numbers as [| i numbers IH]; intros blocks result.
  - simpl. intros [= <-]. now rewrite app_nil_r.
  - simpl. unfold evm.appended at 1.
    destruct (GetBlockByNumber i) as [block | err | r]; try discriminate.
    intros Hloop. rewrite (IH _ _ Hloop), <- app_assoc. reflexivity.
Qed.

Lemma fetchLoop_panicked (numbers : list Z) :
  forall (blocks : list BlockJson) (r : string),
    fetchLoop numbers blocks = inr r ->
    exists i : Z, In i numbers /\ GetBlockByNumber i = evm.panicked r.
Proof.
  induction numbers as [| i numbers IH]; intros blocks r; [discriminate |].
  simpl. destruct (GetBlockByNumber i) as [block | err | r'] eqn:Hblock.
  - intros Hloop. destruct (IH _ _ Hloop) as (j & Hin & Hj). exists j. auto.
  - discriminate.
  - intros [= <-]. exists i. auto.
Qed.

Lemma appended_fetched (numbers : list Z) (block : BlockJson) :
  In block (concat (map appended numbers)) <->
  exists b : Z, In b numbers /\ GetBlockByNumber b = evm.fetched block.
Proof.
  rewrite <- flat_map_concat_map, in_flat_map. unfold evm.appended.
  split; intros (b & Hin & Hblock); exists b; split; try exact Hin.
  - destruct (GetBlockByNumber b) as [block' | err | r];
      [destruct Hblock as [-> | []]; reflexivity | destruct Hblock | destruct Hblock].
  - rewrite Hblock. now left.
Qed.

End SequentialFetchEnds.

Section ParserProperties.
Variables BlockJson TransactionJson : Type.
Variable GetBlockByNumber : Z -> evm.task (option BlockJson).
Variable json_Transactions : BlockJson -> list TransactionJson.
Variable json_Timestamp : BlockJson -> string.
Variable withBlockTimestamp : TransactionJson -> string -> TransactionJson.
Variable ToProtoSingleBlock : BlockJson -> evm.MantleBlock.t.
Variable ToProtoSingleTransaction : TransactionJson -> evm.MantleTransaction.t.

Local Abbreviation parseBlock :=
  (evm.parseBlock BlockJson TransactionJson json_Transactions json_Timestamp
     withBlockTimestamp ToProtoSingleBlock ToProtoSingleTransaction).
Local Abbreviation parseLoop :=
  (evm.parseLoop BlockJson TransactionJson json_Transactions json_Timestamp
     withBlockTimestamp ToProtoSingleBlock ToProtoSingleTransaction).
Local Abbreviation appended := (evm.appended (option BlockJson) GetBlockByNumber).

(** The parsed block of a block that is there is the converted block with
    the converted transactions of the JSON block behind its own, each
    stamped with the time of the block. *)
Lemma parseBlock_transactions (blockAndTxsJson : BlockJson) :
  exists parsedBlock : evm.MantleBlock.t,
    parseBlock (Some blockAndTxsJson) = Some parsedBlock /\
    evm.MantleBlock.BlockNumber parsedBlock =
      evm.MantleBlock.BlockNumber (ToProtoSingleBlock blockAndTxsJson) /\
    evm.MantleBlock.Timestamp parsedBlock =
      evm.MantleBlock.Timestamp (ToProtoSingleBlock blockAndTxsJson) /\
    evm.MantleBlock.Transactions parsedBlock =
      (evm.MantleBlock.Transactions (ToProtoSingleBlock blockAndTxsJson) ++
       map (fun txJson =>
              ToProtoSingleTransaction
                (withBlockTimestamp txJson (json_Timestamp blockAndTxsJson)))
         (json_Transactions blockAndTxsJson))%list.
Proof.
  unfold evm.parseBlock. cbv zeta. eexists. split; [reflexivity |].
  generalize (ToProtoSingleBlock blockAndTxsJson) as parsedBlock.
  induction (json_Transactions blockAndTxsJson) as [| txJson txs IH]; intros parsedBlock.
  - simpl. now rewrite app_nil_r.
  - cbn [fold_left map]. destruct (IH
      {| evm.MantleBlock.BlockNumber := evm.MantleBlock.BlockNumber parsedBlock;
         evm.MantleBlock.Timestamp := evm.MantleBlock.Timestamp parsedBlock;
         evm.MantleBlock.Transactions :=
           (evm.MantleBlock.Transactions parsedBlock ++
            [ToProtoSingleTransaction
               (withBlockTimestamp txJson (json_Timestamp blockAndTxsJson))])%list |})
      as (Hnumber & Htime & Htxs).
    rewrite Hnumber, Htime, Htxs. simpl. now rewrite <- app_assoc.
Qed.

(** The loop panics when a pointer is nil, wherever it is. *)
Lemma parseLoop_nil (blocksWithTxsJson : list (option BlockJson)) :
  forall parsedBlocks : list evm.MantleBlock.t,
    parseLoop blocksWithTxsJson parsedBlocks = None <-> In None blocksWithTxsJson.
Proof.
  induction blocksWithTxsJson as [| [block |] rest IH]; intros parsedBlocks.
  - simpl. split; [discriminate | intros []].
  - cbn [evm.parseLoop evm.parseBlock]. rewrite IH. simpl. split; [auto |].
    intros [Hnone | Hin]; [discriminate | exact Hin].
  - simpl. split; auto.
Qed.

(** The blocks that are there are parsed one by one, in their order. *)
Lemma parseLoop_all (blocks : list BlockJson) :
  forall parsedBlocks : list evm.MantleBlock.t,
  exists new : list evm.MantleBlock.t,
    parseLoop (map Some blocks) parsedBlocks = Some (parsedBlocks ++ new)%list /\
    Forall2 (fun block parsedBlock => parseBlock (Some block) = Some parsedBlock) blocks new.
Proof.
  induction blocks as [| block rest IH]; intros parsedBlocks.
  - exists []. simpl. rewrite app_nil_r. split; [reflexivity | constructor].
  - cbn [map evm.parseLoop].
    destruct (parseBlock_transactions block) as (parsedBlock & Hparsed & _).
    rewrite Hparsed.
    destruct (IH (parsedBlocks ++ [parsedBlock])%list) as (new & Hloop & Hnew).
    exists (parsedBlock :: new). rewrite Hloop, <- app_assoc.
    split; [reflexivity | now constructor].
Qed.

(** What the tasks of blocks that are all there append. *)
Lemma appended_present (numbers : list Z) :
  (forall b : Z, In b numbers ->
     exists block : BlockJson, GetBlockByNumber b = evm.fetched (Some block)) ->
  exists blocks : list BlockJson,
    concat (map appended numbers) = map Some blocks /\
    Forall2 (fun number block => GetBlockByNumber number = evm.fetched (Some block))
      numbers blocks.
Proof.
  induction numbers as [| b numbers IH]; intros Hall.
  - exists []. split; [reflexivity | constructor].
  - destruct (Hall b (or_introl eq_refl)) as [block Hblock].
    destruct (IH (fun b' Hin => Hall b' (or_intror Hin))) as (blocks & Hblocks & Hall2).
    exists (block :: blocks). simpl. unfold evm.appended at 1.
    rewrite Hblock, Hblocks. split; [reflexivity | now constructor].
Qed.

End ParserProperties.

(** Two lists that a functional relation pairs with two arrangements of the
    same list are arrangements of each other. *)
Lemma Forall2_Permutation {A B : Type} (R : A -> B -> Prop) (l l' : list A) :
  (forall (a : A) (x y : B), R a x -> R a y -> x = y) ->
  Permutation l l' ->
  forall m m' : list B, Forall2 R l m -> Forall2 R l' m' -> Permutation m m'.
Proof.
  intros Hfun Hperm.
  induction Hperm as [| a l l' Hperm IH | a a' l | l l' l'' Hperm IH Hperm' IH'];
    intros m m' Hm Hm'.
  - inversion Hm; inversion Hm'; subst. constructor.
  - inversion Hm as [| ? x ? mt Hx Ht]; inversion Hm' as [| ? y ? mt' Hy Ht']; subst.
    rewrite (Hfun a x y Hx Hy). constructor. now apply IH.
  - inversion Hm as [| ? x1 ? m1 Hx1 Ht1]; subst.
    inversion Ht1 as [| ? x2 ? m2 Hx2 Ht2]; subst.
    inversion Hm' as [| ? y1 ? n1 Hy1 Hs1]; subst.
    inversion Hs1 as [| ? y2 ? n2 Hy2 Hs2]; subst.
    rewrite (Hfun _ _ _ Hx1 Hy2), (Hfun _ _ _ Hx2 Hy1).
    assert (Hsame : m2 = n2).
    { clear - Hfun Ht2 Hs2. revert n2 Hs2.
      induction Ht2 as [| c z lt mt Hz Ht IH]; intros n2 Hs2.
      - now inversion Hs2.
      - inversion Hs2 as [| ? z' ? nt Hz' Hs]; subst.
        rewrite (Hfun _ _ _ Hz Hz'), (IH _ Hs). reflexivity. }
    rewrite Hsame. apply perm_swap.
  - assert (Hmid : exists mid : list B, Forall2 R l' mid).
    { clear - Hm Hperm.
      assert (Hsome : forall a : A, In a l -> exists x : B, R a x).
      { intros a Hin. clear - Hm Hin. induction Hm as [| c z lt mt Hz Ht IH]; [destruct Hin |].
        destruct Hin as [<- | Hin]; eauto. }
      assert (Hsome' : forall a : A, In a l' -> exists x : B, R a x).
      { intros a Hin. apply Hsome. eapply Permutation_in; [| exact Hin].
        now apply Permutation_sym. }
      clear - Hsome'. induction l' as [| a l' IH]; [exists []; constructor |].
      destruct (Hsome' a (or_introl eq_refl)) as [x Hx].
      destruct IH as [mid Hmid]; [intros a' Hin; apply Hsome'; now right |].
      exists (x :: mid). now constructor. }
    destruct Hmid as [mid Hmid].
    eapply Permutation_trans; [apply (IH m mid) | apply (IH' mid m')]; assumption.
Qed.



(** ** The scanner on a provider with a cap *)

Section CappedScannerProperties.
Variable EventJson : Type.
Variable logsOf : Z -> list EventJson.
Variable K : Z.
Hypothesis HK : 3 <= K.

Local Abbreviation provider := (capped_provider logsOf K).

(** While the scan runs it has the logs of the blocks below its start. *)
Lemma capped_scanLoop (from toBlock : Z) (rounds : nat) :
  forall st : evm.scan EventJson,
    from <= evm.fromBlock st <= toBlock ->
    0 <= evm.batchStep st ->
    evm.logs st = concat (map logsOf (seqZ from (evm.fromBlock st - from))) ->
    (toBlock - evm.fromBlock st) + evm.batchStep st < Z.of_nat rounds ->
    evm.scanLoop EventJson provider rounds toBlock st =
      Some (concat (map logsOf (seqZ from (toBlock - from + 1))), None).
Proof.
  induction rounds as [| rounds IH]; intros st Hfrom Hstep Hlogs Hmeasure; [lia |].
  cbn [evm.scanLoop].
  destruct (evm.scanRound EventJson provider toBlock st) as [st' | result] eqn:Hround.
  - destruct (scanRound_continue EventJson provider toBlock st st' ltac:(lia) Hstep Hround)
      as (Hfrom' & Hstep' & Hup & Hless).
    apply IH; try lia.
    revert Hround. rewrite scanRound_reply. unfold capped_provider.
    pose proof (Z.le_min_l (evm.fromBlock st + evm.batchStep st) toBlock) as Hend.
    fold (evm.windowEnd toBlock st) in Hend.
    destruct (K <=? evm.windowEnd toBlock st - evm.fromBlock st + 1) eqn:Hcap.
    + apply Z.leb_le in Hcap. rewrite Contains_self.
      assert (Hhalf : 1 <= evm.batchStep st / 2) by (apply Z.div_le_lower_bound; lia).
      destruct (Z.ltb_spec (evm.batchStep st / 2) 1) as [Hlt | _]; [lia |].
      intros Hround. injection Hround as <-. exact Hlogs.
    + destruct (toBlock <? evm.windowEnd toBlock st + 1); [discriminate |].
      intros Hround. injection Hround as <-. simpl.
      rewrite Hlogs, <- concat_app, <- map_app. do 2 f_equal.
      assert (Hlow : evm.fromBlock st <= evm.windowEnd toBlock st)
        by (unfold evm.windowEnd; lia).
      replace (evm.windowEnd toBlock st + 1 - from)
        with ((evm.fromBlock st - from) +
              (evm.windowEnd toBlock st - evm.fromBlock st + 1)) by lia.
      rewrite (seqZ_app from (evm.fromBlock st - from)) by lia. do 2 f_equal. lia.
  - f_equal. revert Hround. rewrite scanRound_reply. unfold capped_provider.
    pose proof (Z.le_min_l (evm.fromBlock st + evm.batchStep st) toBlock) as Hend.
    pose proof (Z.le_min_r (evm.fromBlock st + evm.batchStep st) toBlock) as Hto.
    fold (evm.windowEnd toBlock st) in Hend, Hto.
    destruct (K <=? evm.windowEnd toBlock st - evm.fromBlock st + 1) eqn:Hcap.
    + apply Z.leb_le in Hcap. rewrite Contains_self.
      assert (Hhalf : 1 <= evm.batchStep st / 2) by (apply Z.div_le_lower_bound; lia).
      destruct (Z.ltb_spec (evm.batchStep st / 2) 1) as [Hlt | _]; [lia | discriminate].
    + destruct (Z.ltb_spec toBlock (evm.windowEnd toBlock st + 1)) as [Hlast | _];
        [| discriminate].
      intros Hround. injection Hround as <-.
      rewrite Hlogs, <- concat_app, <- map_app. do 3 f_equal.
      assert (Hlow : evm.fromBlock st <= evm.windowEnd toBlock st)
        by (unfold evm.windowEnd; lia).
      replace (toBlock - from + 1)
        with ((evm.fromBlock st - from) +
              (evm.windowEnd toBlock st - evm.fromBlock st + 1)) by lia.
      rewrite (seqZ_app from (evm.fromBlock st - from)) by lia. do 2 f_equal. lia.
Qed.

End CappedScannerProperties.

(** X12. On a provider that answers every window of fewer than [K] blocks
    and refuses the larger ones with the marker, with [K] at least three,
    [ClientFilterLogs] loses nothing: it returns without an error, within
    [2 * (to - from) + 1] rounds, the logs of every block of the range in the order
    of the blocks, each once. *)
Theorem ClientFilterLogs_complete (EventJson : Type) (logsOf : Z -> list EventJson)
    (K from to : Z) (extra : nat) (HK : 3 <= K) (Hrange : from <= to) :
  evm.ClientFilterLogs EventJson (capped_provider logsOf K)
    (S (Z.to_nat (2 * (to - from))) + extra) from to =
    Some (concat (map logsOf (seqZ from (to - from + 1))), None).
Proof.
  unfold evm.ClientFilterLogs. cbv zeta.
  apply (capped_scanLoop EventJson logsOf K HK from to); simpl; try lia.
  now rewrite Z.sub_diag.
Qed.

Lemma ClientFilterLogs_complete_witness :
  evm.ClientFilterLogs Z (capped_provider (fun b => [b]) 3) 21 0 10 =
    Some ([0; 1; 2; 3; 4; 5; 6; 7; 8; 9; 10], None).
Proof.
  exact (ClientFilterLogs_complete Z (fun b => [b]) 3 0 10 0 ltac:(lia) ltac:(lia)).
Defined.

(** ** The decoder: raw transactions and ABI entries *)

Section DecoderRunProperties.
Context `{evm.Client}.

Lemma labelTransaction_channel (b : evm.MantleBlock.t) (tx : evm.MantleTransaction.t)
    (selector : string) (w : evm.worker) :
  evm.localRawTransactions (worker_of (evm.labelTransaction b tx selector w)) =
    evm.localRawTransactions w /\
  exists sent : list evm.failure,
    evm.errorChan (worker_of (evm.labelTransaction b tx selector w)) =
      (evm.errorChan w ++ sent)%list.
Proof.
  assert (Hnone : exists sent : list evm.failure,
            evm.errorChan w = (evm.errorChan w ++ sent)%list)
    by (exists []; now rewrite app_nil_r).
  unfold evm.labelTransaction.
  destruct (evm.entryAt _ _ _) as [entry |]; [| split; [reflexivity | exact Hnone]].
  destruct (evm.parseOnce entry) as [entry' [initErr |]]; [simpl; eauto |].
  destruct (evm.Abi entry') as [abi |]; [| simpl; eauto].
  destruct (hex.DecodeString _) as [inputData [err |]]; [simpl; eauto |].
  destruct (evm.DecodeTransactionInputDataToInterface _ _) as [args own];
    destruct (default own _) as [decodeErr |];
    destruct (evm.TransactionReceipt _) as [[Status |] [err |]];
    try (simpl; now eauto).
  - destruct (evm.json_Marshal _) as [text [err |]]; simpl; eauto.
  - destruct args as [args |]; [| simpl; now eauto].
    destruct (evm.json_Marshal _) as [text [err |]]; simpl; eauto.
Qed.

Lemma labelLog_channel (b : evm.MantleBlock.t) (tx : evm.MantleTransaction.t)
    (e : evm.MantleEventLog.t) (w : evm.worker) :
  evm.localRawTransactions (worker_of (evm.labelLog b tx e w)) =
    evm.localRawTransactions w /\
  exists sent : list evm.failure,
    evm.errorChan (worker_of (evm.labelLog b tx e w)) = (evm.errorChan w ++ sent)%list.
Proof.
  assert (Hnone : exists sent : list evm.failure,
            evm.errorChan w = (evm.errorChan w ++ sent)%list)
    by (exists []; now rewrite app_nil_r).
  unfold evm.labelLog. cbv zeta.
  destruct (evm.entryAt _ _ _) as [entry |]; [| split; [reflexivity | exact Hnone]].
  destruct (evm.parseOnce entry) as [entry' [initErr |]]; [simpl; eauto |].
  destruct (evm.Abi entry') as [abi |]; [| simpl; eauto].
  destruct (evm.DecodeLogArgsToLabelData _ _ _) as [args own];
    destruct (default own _) as [decodeErr |];
    destruct (evm.json_Marshal _) as [text [err |]]; simpl; eauto.
Qed.

Lemma labelLogs_channel (b : evm.MantleBlock.t) (tx : evm.MantleTransaction.t)
    (events : list evm.MantleEventLog.t) :
  forall w : evm.worker,
    evm.localRawTransactions (worker_of (evm.labelLogs b tx events w)) =
      evm.localRawTransactions w /\
    exists sent : list evm.failure,
      evm.errorChan (worker_of (evm.labelLogs b tx events w)) = (evm.errorChan w ++ sent)%list.
Proof.
  induction events as [| e rest IH]; intros w.
  - simpl. split; [reflexivity | exists []; now rewrite app_nil_r].
  - simpl. destruct (labelLog_channel b tx e w) as [Hraw [sent Hsent]].
    destruct (evm.labelLog b tx e w) as [w' | w' | w' r]; simpl in Hraw, Hsent.
    + destruct (IH w') as [Hraw' [sent' Hsent']].
      rewrite Hraw', Hsent', Hraw, Hsent, <- app_assoc. eauto.
    + destruct (IH w') as [Hraw' [sent' Hsent']].
      rewrite Hraw', Hsent', Hraw, Hsent, <- app_assoc. eauto.
    + simpl. eauto.
Qed.

(** A round keeps the raw transaction of its transaction when it is asked
    to, whatever happens to the labels. *)
Lemma decodeTransaction_channel (addRawTransactions : bool) (b : evm.MantleBlock.t)
    (w : evm.worker) (tx : evm.MantleTransaction.t) :
  evm.localRawTransactions (worker_of (evm.decodeTransaction addRawTransactions b w tx)) =
    (evm.localRawTransactions w ++ (if addRawTransactions then [raw_of b tx] else []))%list /\
  exists sent : list evm.failure,
    evm.errorChan (worker_of (evm.decodeTransaction addRawTransactions b w tx)) =
      (evm.errorChan w ++ sent)%list.
Proof.
  unfold evm.decodeTransaction. cbv zeta.
  match goal with
  | |- context [if addRawTransactions then ?kept else w] =>
      assert (Hkept : evm.localRawTransactions (if addRawTransactions then kept else w) =
                      (evm.localRawTransactions w ++
                       (if addRawTransactions then [raw_of b tx] else []))%list /\
                      evm.errorChan (if addRawTransactions then kept else w) =
                      evm.errorChan w)
        by (destruct addRawTransactions; simpl; [| rewrite app_nil_r]; split; reflexivity);
      generalize dependent (if addRawTransactions then kept else w)
  end.
  intros w0 [Hraw Hchan].
  destruct (len _ <? 10).
  { simpl. split; [exact Hraw |]. exists []. now rewrite app_nil_r. }
  destruct (labelTransaction_channel b tx (slice_to 10 (evm.MantleTransaction.Input tx)) w0)
    as [Hraw1 [sent1 Hsent1]].
  destruct (evm.labelTransaction _ _ _ _) as [w1 | w1 | w1 r]; simpl in Hraw1, Hsent1.
  - destruct (labelLogs_channel b tx (evm.MantleTransaction.Logs tx) w1)
      as [Hraw2 [sent2 Hsent2]].
    rewrite Hraw2, Hsent2, Hraw1, Hsent1, Hraw, Hchan, <- app_assoc. eauto.
  - simpl. rewrite Hraw1, Hsent1, Hraw, Hchan. eauto.
  - simpl. rewrite Hraw1, Hsent1, Hraw, Hchan. eauto.
Qed.

Lemma decodeTransactions_channel (addRawTransactions : bool) (b : evm.MantleBlock.t)
    (transactions : list evm.MantleTransaction.t) :
  forall w : evm.worker,
    (exists sent : list evm.failure,
       evm.errorChan (worker_of (evm.decodeTransactions addRawTransactions b transactions w)) =
         (evm.errorChan w ++ sent)%list) /\
    match evm.decodeTransactions addRawTransactions b transactions w with
    | evm.panic _ _ => True
    | evm.next w' | evm.continue w' =>
        evm.localRawTransactions w' =
          (evm.localRawTransactions w ++
           (if addRawTransactions then map (raw_of b) transactions else []))%list
    end.
Proof.
  induction transactions as [| tx rest IH]; intros w.
  - simpl. split; [exists []; now rewrite app_nil_r |].
    destruct addRawTransactions; now rewrite app_nil_r.
  - simpl. destruct (decodeTransaction_channel addRawTransactions b w tx)
      as [Hraw [sent Hsent]].
    destruct (evm.decodeTransaction addRawTransactions b w tx) as [w' | w' | w' r];
      simpl in Hraw, Hsent.
    + destruct (IH w') as [[sent' Hsent'] Hraw'].
      split; [rewrite Hsent', Hsent, <- app_assoc; eauto |].
      destruct (evm.decodeTransactions addRawTransactions b rest w'); auto;
        rewrite Hraw', Hraw, <- app_assoc; destruct addRawTransactions; reflexivity.
    + destruct (IH w') as [[sent' Hsent'] Hraw'].
      split; [rewrite Hsent', Hsent, <- app_assoc; eauto |].
      destruct (evm.decodeTransactions addRawTransactions b rest w'); auto;
        rewrite Hraw', Hraw, <- app_assoc; destruct addRawTransactions; reflexivity.
    + simpl. split; [eauto | exact I].
Qed.

(** The task of a block sends errors or hands over its raw transactions. *)
Lemma decodeBlock_channel
    (racing : evm.MantleTransaction.t -> option evm.MantleEventLog.t -> evm.race)
    (addRawTransactions : bool) (s : evm.shared) (b : evm.MantleBlock.t) :
  exists sent : list evm.failure,
    evm.errors (evm.decodeBlock racing addRawTransactions s b) = (evm.errors s ++ sent)%list /\
    (sent = [] ->
     evm.rawTransactions (evm.decodeBlock racing addRawTransactions s b) =
       (evm.rawTransactions s ++
        (if addRawTransactions then map (raw_of b) (evm.MantleBlock.Transactions b) else []))%list).
Proof.
  unfold evm.decodeBlock. cbv zeta.
  match goal with
  | |- context [evm.decodeTransactions ?a ?blk ?txs ?w] =>
      destruct (decodeTransactions_channel a blk txs w) as [[sent Hsent] Hraw];
      destruct (evm.decodeTransactions a blk txs w) as [w' | w' | w' r]
  end; simpl in Hsent, Hraw |- *.
  - exists sent. split; [exact Hsent |]. intros _. now rewrite Hraw.
  - exists sent. split; [exact Hsent |]. intros _. now rewrite Hraw.
  - exists (sent ++ [evm.PanicFailure (evm.MantleBlock.BlockNumber b) r])%list.
    split; [now rewrite Hsent, <- app_assoc |].
    intros Hnil. apply app_eq_nil in Hnil as [_ Hnil]. discriminate.
Qed.

Lemma decodeBlocks_channel
    (racing : evm.MantleTransaction.t -> option evm.MantleEventLog.t -> evm.race)
    (addRawTransactions : bool) (Blocks : list evm.MantleBlock.t) :
  forall s : evm.shared,
  exists sent : list evm.failure,
    evm.errors (fold_left (evm.decodeBlock racing addRawTransactions) Blocks s) =
      (evm.errors s ++ sent)%list /\
    (sent = [] ->
     evm.rawTransactions (fold_left (evm.decodeBlock racing addRawTransactions) Blocks s) =
       (evm.rawTransactions s ++
        (if addRawTransactions
         then flat_map (fun b => map (raw_of b) (evm.MantleBlock.Transactions b)) Blocks
         else []))%list).
Proof.
  induction Blocks as [| b rest IH]; intros s.
  - exists []. simpl. split; [now rewrite app_nil_r |].
    intros _. destruct addRawTransactions; now rewrite app_nil_r.
  - simpl. destruct (decodeBlock_channel racing addRawTransactions s b)
      as (sent & Hsent & Hraw).
    destruct (IH (evm.decodeBlock racing addRawTransactions s b)) as (sent' & Hsent' & Hraw').
    exists (sent ++ sent')%list. split; [now rewrite Hsent', Hsent, <- app_assoc |].
    intros Hnil. apply app_eq_nil in Hnil as [-> ->].
    rewrite Hraw', Hraw, <- app_assoc by reflexivity.
    destruct addRawTransactions; reflexivity.
Qed.

End DecoderRunProperties.



Section BrokenEntryProperties.
Context `{evm.Client}.

Lemma entryAt_setEntry (abiMap : gmap string (gmap string evm.AbiEntry))
    (address selector : string) (entry : evm.AbiEntry) :
  evm.entryAt (evm.setEntry abiMap address selector entry) address selector = Some entry.
Proof. unfold evm.entryAt, evm.setEntry. now rewrite !lookup_insert_eq. Qed.

(** The first log that asks for an entry whose text does not parse. *)
Lemma labelLog_first_parse (b : evm.MantleBlock.t) (tx : evm.MantleTransaction.t)
    (e : evm.MantleEventLog.t) (w : evm.worker) (entry : evm.AbiEntry)
    (initErr : option string) :
  evm.entryAt (evm.abiMap w) (evm.MantleEventLog.Address e) (topicSelector e) = Some entry ->
  evm.Once entry = false ->
  evm.GetABI (evm.AbiJSON entry) = (None, initErr) ->
  evm.labelLog b tx e w =
    evm.continue
      (evm.send
         (evm.store w (evm.MantleEventLog.Address e) (topicSelector e)
            {| evm.AbiJSON := evm.AbiJSON entry; evm.AbiName := evm.AbiName entry;
               evm.Abi := None; evm.Once := true |})
         (evm.LogAbiFailure (evm.MantleEventLog.Address e) initErr)).
Proof.
  intros Hentry Honce Hparse. unfold evm.labelLog. cbv zeta.
  unfold topicSelector in Hentry. rewrite Hentry.
  unfold evm.parseOnce. rewrite Honce, Hparse.
  destruct initErr; reflexivity.
Qed.

(** A log that asks for an entry whose parse has run and left no ABI. *)
Lemma labelLog_parsed_none (b : evm.MantleBlock.t) (tx : evm.MantleTransaction.t)
    (e : evm.MantleEventLog.t) (w : evm.worker) (entry : evm.AbiEntry) :
  evm.entryAt (evm.abiMap w) (evm.MantleEventLog.Address e) (topicSelector e) = Some entry ->
  evm.Once entry = true ->
  evm.Abi entry = None ->
  evm.labelLog b tx e w =
    evm.continue
      (evm.send (evm.store w (evm.MantleEventLog.Address e) (topicSelector e) entry)
         (evm.LogAbiFailure (evm.MantleEventLog.Address e) None)).
Proof.
  intros Hentry Honce Habi. unfold evm.labelLog. cbv zeta.
  unfold topicSelector in Hentry. rewrite Hentry.
  unfold evm.parseOnce. rewrite Honce, Habi. reflexivity.
Qed.

Lemma labelLogs_parsed_none (b : evm.MantleBlock.t) (tx : evm.MantleTransaction.t)
    (address selector : string) (entry : evm.AbiEntry) (events : list evm.MantleEventLog.t) :
  Forall (fun e => evm.MantleEventLog.Address e = address /\ topicSelector e = selector)
    events ->
  evm.Once entry = true ->
  evm.Abi entry = None ->
  forall w : evm.worker,
    evm.entryAt (evm.abiMap w) address selector = Some entry ->
    exists w' : evm.worker,
      evm.labelLogs b tx events w = evm.next w' /\
      evm.localEventLabels w' = evm.localEventLabels w /\
      evm.errorChan w' =
        (evm.errorChan w ++ map (fun _ => evm.LogAbiFailure address None) events)%list.
Proof.
  intros Hevents Honce Habi.
  induction Hevents as [| e rest [Haddress Hselector] Hrest IH]; intros w Hentry.
  - exists w. simpl. rewrite app_nil_r. auto.
  - subst address selector. simpl.
    rewrite (labelLog_parsed_none b tx e w entry Hentry Honce Habi).
    destruct (IH (evm.send (evm.store w (evm.MantleEventLog.Address e) (topicSelector e) entry)
                    (evm.LogAbiFailure (evm.MantleEventLog.Address e) None)))
      as (w' & Hrun & Hlabels & Hchan).
    { simpl. apply entryAt_setEntry. }
    exists w'. split; [exact Hrun |]. split; [exact Hlabels |].
    rewrite Hchan. simpl. now rewrite <- app_assoc.
Qed.

(** The parse of an entry is tried once: the log that finds the entry
    unparsed sends the error of the parser, every later one finds the entry
    without an ABI and sends a failure with no error, and none gets a
    label. *)
Lemma labelLogs_broken_entry (b : evm.MantleBlock.t) (tx : evm.MantleTransaction.t)
    (address selector : string) (entry : evm.AbiEntry) (initErr : option string)
    (events : list evm.MantleEventLog.t) (w : evm.worker) :
  Forall (fun e => evm.MantleEventLog.Address e = address /\ topicSelector e = selector)
    events ->
  evm.entryAt (evm.abiMap w) address selector = Some entry ->
  evm.Once entry = false ->
  evm.GetABI (evm.AbiJSON entry) = (None, initErr) ->
  exists w' : evm.worker,
    evm.labelLogs b tx events w = evm.next w' /\
    evm.localEventLabels w' = evm.localEventLabels w /\
    evm.localTxLabels w' = evm.localTxLabels w /\
    evm.errorChan w' =
      (evm.errorChan w ++
       match events with
       | [] => []
       | _ :: rest =>
           evm.LogAbiFailure address initErr ::
           map (fun _ => evm.LogAbiFailure address None) rest
       end)%list.
Proof.
  intros Hevents Hentry Honce Hparse.
  pose proof (labelLogs_txLabels b tx events w) as Htx.
  destruct Hevents as [| e rest [Haddress Hselector] Hrest].
  - exists w. simpl. rewrite app_nil_r. auto.
  - subst address selector. simpl in Htx |- *.
    rewrite (labelLog_first_parse b tx e w entry initErr Hentry Honce Hparse) in Htx |- *.
    destruct (labelLogs_parsed_none b tx (evm.MantleEventLog.Address e) (topicSelector e)
                {| evm.AbiJSON := evm.AbiJSON entry; evm.AbiName := evm.AbiName entry;
                   evm.Abi := None; evm.Once := true |} rest Hrest eq_refl eq_refl
                (evm.send
                   (evm.store w (evm.MantleEventLog.Address e) (topicSelector e)
                      {| evm.AbiJSON := evm.AbiJSON entry; evm.AbiName := evm.AbiName entry;
                         evm.Abi := None; evm.Once := true |})
                   (evm.LogAbiFailure (evm.MantleEventLog.Address e) initErr)))
      as (w' & Hrun & Hlabels & Hchan).
    { simpl. apply entryAt_setEntry. }
    rewrite Hrun in Htx |- *. simpl in Htx.
    exists w'. split; [reflexivity |]. split; [exact Hlabels |]. split; [exact Htx |].
    rewrite Hchan. simpl. now rewrite <- app_assoc.
Qed.

End BrokenEntryProperties.

(** X14. The parse of an ABI entry is never tried again. When the text of
    an entry does not parse, the first log of a transaction that asks for
    the entry sends a failure with the error of the parser, every later log
    that asks for it sends a failure with no error, and none of them gets a
    label. A second [parseOnce] returns the entry as it is, with no error. *)
Theorem failed_abi_parse_is_final (C : evm.Client) (b : evm.MantleBlock.t)
    (tx : evm.MantleTransaction.t) (address selector : string) (entry : evm.AbiEntry)
    (initErr : option string) (events : list evm.MantleEventLog.t) (w : evm.worker)
    (Hevents : Forall (fun e => evm.MantleEventLog.Address e = address /\
                                topicSelector e = selector) events)
    (Hentry : evm.entryAt (evm.abiMap w) address selector = Some entry)
    (Honce : evm.Once entry = false)
    (Hparse : evm.GetABI (evm.AbiJSON entry) = (None, initErr)) :
  evm.parseOnce (evm.parseOnce entry).1 = ((evm.parseOnce entry).1, None) /\
  exists w' : evm.worker,
    evm.labelLogs b tx events w = evm.next w' /\
    evm.localEventLabels w' = evm.localEventLabels w /\
    evm.localTxLabels w' = evm.localTxLabels w /\
    evm.errorChan w' =
      (evm.errorChan w ++
       match events with
       | [] => []
       | _ :: rest =>
           evm.LogAbiFailure address initErr ::
           map (fun _ => evm.LogAbiFailure address None) rest
       end)%list.
Proof.
  split.
  - unfold evm.parseOnce. rewrite Honce, Hparse. reflexivity.
  - exact (labelLogs_broken_entry b tx address selector entry initErr events w
             Hevents Hentry Honce Hparse).
Qed.

Lemma failed_abi_parse_is_final_witness :
  exists w' : @evm.worker (broken_abi_client []),
    evm.labelLogs (example_block "0x") (token_transaction "0x")
      [transfer_log; transfer_log; transfer_log] (idle_worker _) = evm.next w' /\
    evm.localEventLabels w' = [] /\
    evm.errorChan w' =
      [evm.LogAbiFailure "0xtoken" (Some "invalid character");
       evm.LogAbiFailure "0xtoken" None;
       evm.LogAbiFailure "0xtoken" None].
Proof.
  destruct (failed_abi_parse_is_final (broken_abi_client []) (example_block "0x")
              (token_transaction "0x") "0xtoken" "0xddf252ad"
              (@evm.Build_AbiEntry (broken_abi_client []) "[Transfer]" "Transfer" None false)
              (Some "invalid character") [transfer_log; transfer_log; transfer_log]
              (idle_worker _))
    as (_ & w' & Hrun & Hlabels & _ & Hchan).
  - repeat constructor.
  - unfold idle_worker, token_abis, evm.entryAt. cbn [evm.abiMap].
    rewrite lookup_insert_eq, lookup_insert_ne by discriminate.
    now rewrite lookup_insert_eq.
  - reflexivity.
  - reflexivity.
  - exists w'. split; [exact Hrun |]. split; [exact Hlabels | exact Hchan].
Defined.

(** X15. The error channel has room for one error for each block, and it
    is read only after every task is done. A batch of one block with one
    transaction that calls a selector without an entry and has two or more
    logs of an entry whose text does not parse sends as many errors as it
    has such logs: the task waits on the full channel and the call never
    returns. *)
Theorem DecodeProtoEntireBlockToLabels_waits_on_full_channel (C : evm.Client)
    (order : list evm.MantleBlock.t)
    (racing : evm.MantleTransaction.t -> option evm.MantleEventLog.t -> evm.race)
    (rawData : list Z) (abiMap : gmap string (gmap string evm.AbiEntry))
    (addRawTransactions : bool) (threads : Z) (b : evm.MantleBlock.t)
    (tx : evm.MantleTransaction.t) (address selector : string) (entry : evm.AbiEntry)
    (initErr : option string)
    (Hthreads : 1 <= threads)
    (Hbatch : evm.proto_Unmarshal rawData = ([b], None))
    (Htransactions : evm.MantleBlock.Transactions b = [tx])
    (Hinput : 10 <= len (evm.MantleTransaction.Input tx))
    (Hcall : evm.entryAt abiMap (evm.MantleTransaction.ToAddress tx)
               (slice_to 10 (evm.MantleTransaction.Input tx)) = None)
    (Hlogs : (2 <= length (evm.MantleTransaction.Logs tx))%nat)
    (Hevents : Forall (fun e => evm.MantleEventLog.Address e = address /\
                                topicSelector e = selector)
                 (evm.MantleTransaction.Logs tx))
    (Hentry : evm.entryAt abiMap address selector = Some entry)
    (Honce : evm.Once entry = false)
    (Hparse : evm.GetABI (evm.AbiJSON entry) = (None, initErr)) :
  evm.DecodeProtoEntireBlockToLabels order racing rawData abiMap addRawTransactions
    threads = evm.DecodeBlocked.
Proof.
  unfold evm.DecodeProtoEntireBlockToLabels. rewrite Hbatch.
  replace (threads <? 0) with false by (symmetry; apply Z.ltb_ge; lia).
  replace (threads =? 0) with false by (symmetry; apply Z.eqb_neq; lia).
  change (1 <? Z.of_nat (length [b])) with false. rewrite andb_false_r.
  cbn [andb fold_left]. cbv zeta.
  unfold evm.decodeBlock. cbv zeta. rewrite Htransactions.
  cbn [evm.decodeTransactions evm.errors evm.entries].
  unfold evm.decodeTransaction. cbv zeta.
  replace (len (evm.MantleTransaction.Input tx) <? 10) with false
    by (symmetry; apply Z.ltb_ge; lia).
  unfold evm.labelTransaction.
  match goal with
  | |- context [evm.entryAt (evm.abiMap ?w0) _ _] =>
      replace (evm.abiMap w0) with abiMap by (destruct addRawTransactions; reflexivity);
      rewrite Hcall;
      destruct (labelLogs_broken_entry b tx address selector entry initErr
                  (evm.MantleTransaction.Logs tx) w0 Hevents) as (w' & -> & _ & _ & Hchan);
        [destruct addRawTransactions; exact Hentry | exact Honce | exact Hparse |];
      replace (evm.errorChan w0) with (@nil evm.failure) in Hchan
        by (destruct addRawTransactions; reflexivity)
  end.
  cbn [evm.errors]. rewrite Hchan.
  destruct (evm.MantleTransaction.Logs tx) as [| e1 [| e2 rest]]; simpl in Hlogs; try lia.
  cbn [app length map].
  destruct (Z.ltb_spec (Z.of_nat 1) (Z.of_nat (S (S (length (map (fun _ => evm.LogAbiFailure address None) rest))))));
    [reflexivity | lia].
Qed.

Lemma DecodeProtoEntireBlockToLabels_waits_on_full_channel_witness :
  @evm.DecodeProtoEntireBlockToLabels (broken_abi_client [swap_block]) [swap_block]
    (fun _ _ => evm.alone) [] (token_abis _) false 4 = evm.DecodeBlocked.
Proof.
  apply (DecodeProtoEntireBlockToLabels_waits_on_full_channel
           (broken_abi_client [swap_block]) [swap_block] (fun _ _ => evm.alone) []
           (token_abis _) false 4 swap_block
           swap_transaction "0xtoken" "0xddf252ad"
           (@evm.Build_AbiEntry (broken_abi_client [swap_block]) "[Transfer]" "Transfer"
              None false)
           (Some "invalid character")).
  - lia.
  - reflexivity.
  - reflexivity.
  - vm_compute. discriminate.
  - unfold token_abis, evm.entryAt.
    rewrite lookup_insert_ne by discriminate. now rewrite lookup_empty.
  - simpl. lia.
  - repeat constructor.
  - unfold token_abis, evm.entryAt.
    rewrite lookup_insert_eq, lookup_insert_ne by discriminate.
    now rewrite lookup_insert_eq.
  - reflexivity.
  - reflexivity.
Defined.

(** ** Copying ABI jobs *)

Lemma get_after (text : string) (c : ascii) (rest : string) :
  String.get (String.length text) (text ++ String c rest) = Some c.
Proof.
  induction text as [| d text IH]; [reflexivity |].
  change (String d text ++ String c rest) with (String d (text ++ String c rest)).
  exact IH.
Qed.

Lemma slice_to_append (text rest : string) :
  slice_to (String.length text) (text ++ rest) = text.
Proof.
  induction text as [| d text IH]; [reflexivity |].
  change (String d text ++ rest) with (String d (text ++ rest)).
  simpl. now rewrite IH.
Qed.

Lemma get_last (s : string) (c : ascii) :
  String.get (String.length s - 1) s = Some c ->
  s = slice_to (String.length s - 1) s ++ String c "".
Proof.
  induction s as [| d s IH]; [discriminate |].
  destruct s as [| e s].
  - simpl. intros Hget. now injection Hget as ->.
  - intros Hget.
    replace (String.length (String d (String e s)) - 1)%nat
      with (S (String.length (String e s) - 1)) in * by (cbn [String.length]; lia).
    cbn [String.get slice_to] in *.
    change (String d ?t ++ ?u) with (String d (t ++ u)).
    f_equal. apply IH. exact Hget.
Qed.

(** The texts that are copied are the non-empty texts between brackets. *)
Lemma well_formed_brackets (abi : string) :
  well_formed abi = true <->
  exists text : string, text <> "" /\ abi = "[" ++ text ++ "]".
Proof.
  unfold well_formed, indexer.byte_at, len. split.
  - intros Hwf. apply andb_prop in Hwf as [Hwf Hlast].
    apply andb_prop in Hwf as [Hlen Hfirst].
    apply Z.ltb_lt in Hlen. apply bool_decide_eq_true in Hfirst, Hlast.
    destruct abi as [| c rest]; [discriminate |].
    simpl in Hfirst. injection Hfirst as ->.
    cbn [String.length] in Hlen, Hlast.
    replace (Z.to_nat (Z.of_nat (S (String.length rest)) - 1)) with
      (S (String.length rest - 1)) in Hlast by lia.
    cbn [String.get] in Hlast. apply get_last in Hlast.
    exists (slice_to (String.length rest - 1) rest). split.
    + destruct rest as [| d [| e rest]]; cbn [String.length] in Hlen; try lia.
      discriminate.
    + change ("[" ++ ?t) with (String "["%char t). f_equal. exact Hlast.
  - intros (text & Hne & ->).
    change ("[" ++ ?t) with (String "["%char t).
    assert (Hlength : String.length (String "[" (text ++ "]")) = S (S (String.length text))).
    { cbn [String.length]. rewrite string_length_append. simpl. lia. }
    rewrite Hlength.
    apply andb_true_intro. split; [apply andb_true_intro; split |].
    + apply Z.ltb_lt. destruct text; [congruence | cbn [String.length]; lia].
    + now apply bool_decide_eq_true.
    + apply bool_decide_eq_true.
      replace (Z.to_nat (Z.of_nat (S (S (String.length text))) - 1))
        with (S (String.length text)) by lia.
      cbn [String.get]. apply get_after.
Qed.

Lemma unbracket_brackets (text : string) : unbracket ("[" ++ text ++ "]") = text.
Proof.
  unfold unbracket, len.
  change ("[" ++ ?t) with (String "["%char t).
  cbn [String.length slice_from]. rewrite string_length_append.
  replace (Z.to_nat (Z.of_nat (S (String.length text + String.length "]")) - 1) - 1)%nat
    with (String.length text) by (simpl; lia).
  apply slice_to_append.
Qed.

Section CopyJobsProperties.
Context `{indexer.PostgreSQLpgx}.
Variable tx_Prepare : option error.
Variable exec_insertAbiJob : indexer.AbiJobRow.t -> option error.

Lemma copyLoop_rows (destCustomerId : string) (abiJobs : list indexer.AbiJob.t) :
  forall (rows : list indexer.AbiJobRow.t) (drawn : nat),
    match indexer.copyLoop exec_insertAbiJob destCustomerId abiJobs rows drawn with
    | (rows', None) =>
        exists new : list indexer.AbiJobRow.t,
          rows' = (rows ++ new)%list /\
          Forall2 (copied destCustomerId)
            (List.filter (fun abiJob => well_formed (indexer.AbiJob.Abi abiJob)) abiJobs)
            new /\
          Forall (fun row => exec_insertAbiJob row = None) new
    | (_, Some _) => True
    end.
Proof.
  induction abiJobs as [| abiJob abiJobs IH]; intros rows drawn.
  - simpl. exists []. rewrite app_nil_r. repeat split; constructor.
  - cbn [indexer.copyLoop List.filter]. cbv zeta.
    assert (Hskip : (len (indexer.AbiJob.Abi abiJob) <=? 2)
                    || negb (bool_decide (indexer.byte_at (indexer.AbiJob.Abi abiJob) 0 =
                                          Some "["%char))
                    || negb (bool_decide
                               (indexer.byte_at (indexer.AbiJob.Abi abiJob)
                                  (len (indexer.AbiJob.Abi abiJob) - 1) = Some "]"%char)) =
                    negb (well_formed (indexer.AbiJob.Abi abiJob))).
    { unfold well_formed. rewrite !negb_andb. f_equal. f_equal.
      rewrite Z.ltb_antisym. now rewrite negb_involutive. }
    rewrite Hskip.
    destruct (well_formed (indexer.AbiJob.Abi abiJob)); cbn [negb]; [| apply IH].
    match goal with
    | |- context [exec_insertAbiJob ?row] =>
        destruct (exec_insertAbiJob row) eqn:Hexec; [exact I |];
        specialize (IH (rows ++ [row])%list (S drawn));
        destruct (indexer.copyLoop _ _ _ _ _) as [rows' [err |]]; [exact I |];
        destruct IH as (new & -> & Hcopied & Haccepted);
        exists (row :: new)
    end.
    rewrite <- app_assoc. split; [reflexivity |]. split.
    + constructor; [| exact Hcopied]. repeat split.
    + constructor; [exact Hexec | exact Haccepted].
Qed.

End CopyJobsProperties.

(** X16. [CopyAbiJobs] copies all or nothing. After the call the table is
    what it was, or the call returned no error and the table has gained, in
    the order of the jobs, one row for every job whose ABI text is a
    non-empty text between brackets: the row has the address, user, selector,
    chain and name of the job, the destination customer, the text without
    its brackets, the status "true", the crawl status "pending", progress 0
    and no moonworm task; the server accepted every row and the commit. *)
Theorem CopyAbiJobs_all_or_nothing (P : indexer.PostgreSQLpgx) (tx_Prepare : option error)
    (exec_insertAbiJob : indexer.AbiJobRow.t -> option error)
    (database : list indexer.AbiJobRow.t) (sourceCustomerId destCustomerId : string)
    (abiJobs : list indexer.AbiJob.t) :
  (exists (err : option error) (database' : list indexer.AbiJobRow.t),
     indexer.CopyAbiJobs tx_Prepare exec_insertAbiJob database sourceCustomerId
       destCustomerId abiJobs = (err, database') /\
     (database' = database \/
      err = None /\ tx_Prepare = None /\ indexer.commit_fault = None /\
      exists rows : list indexer.AbiJobRow.t,
        database' = (database ++ rows)%list /\
        Forall2 (copied destCustomerId)
          (List.filter (fun abiJob => well_formed (indexer.AbiJob.Abi abiJob)) abiJobs)
          rows /\
        Forall (fun row => exec_insertAbiJob row = None) rows)) /\
  (forall abi : string,
     well_formed abi = true <-> exists text : string, text <> "" /\ abi = "[" ++ text ++ "]") /\
  (forall text : string, unbracket ("[" ++ text ++ "]") = text).
Proof.
  split; [| split; [apply well_formed_brackets | apply unbracket_brackets]].
  unfold indexer.CopyAbiJobs.
  destruct indexer.pool_Acquire; [eauto |].
  destruct indexer.conn_Begin; [eauto |].
  cbv zeta. destruct tx_Prepare eqn:Hprepare; [eauto |].
  pose proof (copyLoop_rows exec_insertAbiJob destCustomerId abiJobs [] 0) as Hloop.
  destruct (indexer.copyLoop _ _ _ _ _) as [rows [execErr |]]; [eauto |].
  destruct Hloop as (new & -> & Hcopied & Haccepted).
  destruct indexer.commit_fault eqn:Hcommit; [eauto |].
  eexists. eexists. split; [reflexivity |]. right.
  repeat split; auto. exists new. auto.
Qed.

(** X17. [CopyAbiJobs] reports success when the statement cannot be
    prepared: it returns the [nil] left by [conn.Begin] instead of the error
    of [tx.Prepare], and it has copied nothing. *)
Theorem CopyAbiJobs_hides_prepare_error (P : indexer.PostgreSQLpgx)
    (tx_Prepare : option error) (exec_insertAbiJob : indexer.AbiJobRow.t -> option error)
    (database : list indexer.AbiJobRow.t) (sourceCustomerId destCustomerId : string)
    (abiJobs : list indexer.AbiJob.t) (prepErr : error)
    (Hacquire : indexer.pool_Acquire = None) (Hbegin : indexer.conn_Begin = None)
    (Hprepare : tx_Prepare = Some prepErr) :
  indexer.CopyAbiJobs tx_Prepare exec_insertAbiJob database sourceCustomerId
    destCustomerId abiJobs = (None, database).
Proof.
  unfold indexer.CopyAbiJobs. now rewrite Hacquire, Hbegin, Hprepare.
Qed.

Lemma CopyAbiJobs_hides_prepare_error_witness :
  @indexer.CopyAbiJobs healthy_database
    (Some (errorString "prepared statement already exists")) (fun _ => None) []
    "customer" "other" [job_with_abi "[{}]"] = (None, []).
Proof.
  apply (CopyAbiJobs_hides_prepare_error healthy_database
           (Some (errorString "prepared statement already exists")) (fun _ => None) []
           "customer" "other" [job_with_abi "[{}]"]
           (errorString "prepared statement already exists"));
    reflexivity.
Defined.

(** ** The identifiers of ABI jobs *)

Lemma GetJobIds_map (abiJobs : list indexer.AbiJob.t) (isSilent : bool) :
  indexer.GetJobIds abiJobs isSilent = map indexer.AbiJob.ID abiJobs.
Proof.
  unfold indexer.GetJobIds.
  enough (Hgen : forall (jobIds : list string) (abiJobChains : gmap string Z),
            (fold_left
               (fun '(jobIds, abiJobChains) abiJob =>
                  let jobIds := (jobIds ++ [indexer.AbiJob.ID abiJob])%list in
                  let abiJobChains : gmap string Z :=
                    match abiJobChains !! indexer.AbiJob.Chain abiJob with
                    | None => <[indexer.AbiJob.Chain abiJob := 0]> abiJobChains
                    | Some _ => abiJobChains
                    end in
                  let abiJobChains :=
                    <[indexer.AbiJob.Chain abiJob :=
                        default 0 (abiJobChains !! indexer.AbiJob.Chain abiJob) + 1]>
                      abiJobChains in
                  (jobIds, abiJobChains))
               abiJobs (jobIds, abiJobChains)).1 =
            (jobIds ++ map indexer.AbiJob.ID abiJobs)%list).
  { specialize (Hgen [] ∅). destruct (fold_left _ _ _). exact Hgen. }
  induction abiJobs as [| abiJob abiJobs IH]; intros jobIds abiJobChains.
  - simpl. now rewrite app_nil_r.
  - cbn [fold_left map]. rewrite IH, <- app_assoc. reflexivity.
Qed.

(** X18. [GetJobIds] returns the identifiers of the jobs in their order,
    silent or not; when the identifiers are distinct, filtering the jobs by
    their own identifiers gives the jobs back, and filtering any jobs by
    them keeps those whose identifier is one of them. *)
Theorem FilterABIJobs_by_GetJobIds (abiJobs others : list indexer.AbiJob.t)
    (isSilent : bool) (Hdistinct : List.NoDup (map indexer.AbiJob.ID abiJobs)) :
  indexer.GetJobIds abiJobs isSilent = map indexer.AbiJob.ID abiJobs /\
  indexer.FilterABIJobs abiJobs (indexer.GetJobIds abiJobs isSilent) = abiJobs /\
  indexer.FilterABIJobs others (indexer.GetJobIds abiJobs isSilent) =
    List.filter
      (fun job => existsb (String.eqb (indexer.AbiJob.ID job)) (map indexer.AbiJob.ID abiJobs))
      others.
Proof.
  rewrite GetJobIds_map. split; [reflexivity |].
  assert (Hfilter : forall jobs : list indexer.AbiJob.t,
            indexer.FilterABIJobs jobs (map indexer.AbiJob.ID abiJobs) =
            List.filter
              (fun job => existsb (String.eqb (indexer.AbiJob.ID job))
                            (map indexer.AbiJob.ID abiJobs)) jobs).
  { intros jobs. rewrite FilterABIJobs_flat_map.
    induction jobs as [| job jobs IH]; [reflexivity |].
    simpl. rewrite IH.
    pose proof (proj1 (NoDup_count_occ string_dec (map indexer.AbiJob.ID abiJobs))
                  Hdistinct (indexer.AbiJob.ID job)) as Hle.
    destruct (existsb _ _) eqn:Hex.
    - apply existsb_eqb_In, (count_occ_In string_dec) in Hex.
      replace (count_occ string_dec (map indexer.AbiJob.ID abiJobs) (indexer.AbiJob.ID job))
        with 1%nat by lia.
      reflexivity.
    - destruct (count_occ string_dec _ _) as [| n] eqn:Hcount; [reflexivity |].
      assert (Hin : In (indexer.AbiJob.ID job) (map indexer.AbiJob.ID abiJobs))
        by (apply (count_occ_In string_dec); lia).
      apply existsb_eqb_In in Hin. congruence. }
  split; [| apply Hfilter].
  rewrite Hfilter. apply forallb_filter_id.
  apply forallb_forall. intros job Hin.
  apply existsb_eqb_In, in_map, Hin.
Qed.

Lemma FilterABIJobs_by_GetJobIds_witness :
  indexer.FilterABIJobs [job_with_id "a"; job_with_id "b"]
    (indexer.GetJobIds [job_with_id "a"; job_with_id "b"] true) =
    [job_with_id "a"; job_with_id "b"].
Proof.
  apply (FilterABIJobs_by_GetJobIds [job_with_id "a"; job_with_id "b"] [] true).
  repeat constructor; simpl; intuition discriminate.
Defined.

(** ** Addresses as keys *)

Lemma byte_digits :
  Forall (fun v =>
            (15 <? hex.reverseHexTable (hex.hexDigit (Z.shiftr v 4))) = false /\
            (15 <? hex.reverseHexTable (hex.hexDigit (Z.land v 15))) = false /\
            Z.lor (Z.shiftl (hex.reverseHexTable (hex.hexDigit (Z.shiftr v 4))) 4)
              (hex.reverseHexTable (hex.hexDigit (Z.land v 15))) = v)
    (seqZ 0 256).
Proof. compute_done. Qed.

Lemma DecodeString_EncodeToString (src : list Z) :
  Forall (fun v => 0 <= v <= 255) src ->
  hex.DecodeString (hex.EncodeToString src) = (src, None).
Proof.
  induction 1 as [| v src Hv Hsrc IH]; [reflexivity |].
  pose proof byte_digits as Hdigits. rewrite Forall_forall in Hdigits.
  destruct (Hdigits v) as (Hhigh & Hlow & Hbyte); [apply elem_of_seqZ; lia |].
  cbn [hex.EncodeToString hex.DecodeString]. cbv zeta.
  rewrite Hhigh, Hlow, IH, Hbyte. reflexivity.
Qed.

(** ** The dictionaries of the ABI jobs *)

Lemma convertRound_deploy (customerUpdatesDict : gmap string indexer.CustomerUpdates.t)
    (addressDeployBlockDict : gmap string indexer.AbiJobsDeployInfo.t)
    (abiJob : indexer.AbiJob.t) :
  (indexer.convertRound (customerUpdatesDict, addressDeployBlockDict) abiJob).2 =
    <[address_key abiJob :=
        match addressDeployBlockDict !! address_key abiJob with
        | Some deployInfo =>
            {| indexer.AbiJobsDeployInfo.DeployedBlockNumber :=
                 indexer.AbiJobsDeployInfo.DeployedBlockNumber deployInfo;
               indexer.AbiJobsDeployInfo.IDs :=
                 (indexer.AbiJobsDeployInfo.IDs deployInfo ++ [indexer.AbiJob.ID abiJob])%list |}
        | None =>
            {| indexer.AbiJobsDeployInfo.DeployedBlockNumber :=
                 default 1 (indexer.AbiJob.DeploymentBlockNumber abiJob);
               indexer.AbiJobsDeployInfo.IDs := [indexer.AbiJob.ID abiJob] |}
        end]> addressDeployBlockDict.
Proof.
  unfold indexer.convertRound, address_key. cbv zeta. cbn [snd].
  destruct (addressDeployBlockDict !! _);
    destruct (indexer.AbiJob.DeploymentBlockNumber abiJob); reflexivity.
Qed.

Lemma convert_deploy (abiJobs : list indexer.AbiJob.t) (address : string) :
  (fold_left indexer.convertRound abiJobs (∅, ∅)).2 !! address =
    match List.filter (fun abiJob => String.eqb (address_key abiJob) address) abiJobs with
    | [] => None
    | first :: group =>
        Some {| indexer.AbiJobsDeployInfo.DeployedBlockNumber :=
                  default 1 (indexer.AbiJob.DeploymentBlockNumber first);
                indexer.AbiJobsDeployInfo.IDs := map indexer.AbiJob.ID (first :: group) |}
    end.
Proof.
  induction abiJobs as [| abiJob abiJobs IH] using rev_ind; [reflexivity |].
  rewrite fold_left_app, List.filter_app. cbn [fold_left List.filter].
  destruct (fold_left indexer.convertRound abiJobs (∅, ∅))
    as [customerUpdatesDict addressDeployBlockDict].
  rewrite convertRound_deploy. cbn [snd] in IH.
  destruct (String.eqb_spec (address_key abiJob) address) as [<- | Hne].
  - rewrite lookup_insert_eq, IH.
    destruct (List.filter _ abiJobs) as [| first group]; [reflexivity |].
    cbn [app map]. cbn [indexer.AbiJobsDeployInfo.DeployedBlockNumber
                        indexer.AbiJobsDeployInfo.IDs].
    rewrite map_app. reflexivity.
  - rewrite lookup_insert_ne by exact Hne. rewrite app_nil_r. exact IH.
Qed.

Lemma convertRound_customer (customerUpdatesDict : gmap string indexer.CustomerUpdates.t)
    (addressDeployBlockDict : gmap string indexer.AbiJobsDeployInfo.t)
    (abiJob : indexer.AbiJob.t) (customer address selector : string) :
  (forall c cu, customerUpdatesDict !! c = Some cu -> indexer.CustomerUpdates.CustomerID cu = c) ->
  abi_of (indexer.convertRound (customerUpdatesDict, addressDeployBlockDict) abiJob).1
    customer address selector =
    (if String.eqb (indexer.AbiJob.CustomerID abiJob) customer &&
        String.eqb (address_key abiJob) address &&
        String.eqb (indexer.AbiJob.AbiSelector abiJob) selector
     then Some (entry_of abiJob)
     else abi_of customerUpdatesDict customer address selector) /\
  (forall c cu,
     (indexer.convertRound (customerUpdatesDict, addressDeployBlockDict) abiJob).1 !! c =
       Some cu ->
     indexer.CustomerUpdates.CustomerID cu = c).
Proof.
  intros Hids. unfold indexer.convertRound, abi_of. fold (address_key abiJob).
  cbv zeta. cbn [fst].
  set (cid := indexer.AbiJob.CustomerID abiJob).
  set (key := address_key abiJob).
  assert (Hid : forall c cu,
            match customerUpdatesDict !! cid with
            | Some _ => customerUpdatesDict
            | None =>
                <[cid := {| indexer.CustomerUpdates.CustomerID := cid;
                           indexer.CustomerUpdates.Abis := ∅ |}]> customerUpdatesDict
            end !! c = Some cu ->
            indexer.CustomerUpdates.CustomerID cu = c).
  { intros c cu. destruct (customerUpdatesDict !! cid) eqn:Hold; [apply Hids |].
    destruct (decide (cid = c)) as [<- | Hne].
    - rewrite lookup_insert_eq. intros [= <-]. reflexivity.
    - rewrite lookup_insert_ne by exact Hne. apply Hids. }
  split.
  - destruct (String.eqb_spec cid customer) as [<- | Hcustomer]; cbn [andb].
    + rewrite lookup_insert_eq. cbn [indexer.CustomerUpdates.Abis].
      destruct (String.eqb_spec key address) as [<- | Haddress]; cbn [andb].
      * rewrite lookup_insert_eq.
        destruct (String.eqb_spec (indexer.AbiJob.AbiSelector abiJob) selector)
          as [<- | Hselector].
        -- now rewrite lookup_insert_eq.
        -- rewrite lookup_insert_ne by exact Hselector.
           destruct (customerUpdatesDict !! cid) as [cu |] eqn:Hold.
           ++ rewrite Hold. cbn [default from_option id].
              destruct (indexer.CustomerUpdates.Abis cu !! key) as [entries |] eqn:Hentries.
              ** rewrite Hentries. reflexivity.
              ** rewrite lookup_insert_eq. reflexivity.
           ++ rewrite lookup_insert_eq. cbn [default from_option id indexer.CustomerUpdates.Abis].
              rewrite lookup_empty, lookup_insert_eq. reflexivity.
      * rewrite lookup_insert_ne by exact Haddress.
        destruct (customerUpdatesDict !! cid) as [cu |] eqn:Hold.
        -- rewrite Hold. cbn [default from_option id].
           destruct (indexer.CustomerUpdates.Abis cu !! key) as [entries |] eqn:Hentries;
             [reflexivity |].
           now rewrite lookup_insert_ne by exact Haddress.
        -- rewrite lookup_insert_eq. cbn [default from_option id indexer.CustomerUpdates.Abis].
           rewrite lookup_empty, lookup_insert_ne by exact Haddress.
           now rewrite lookup_empty.
    + rewrite lookup_insert_ne by exact Hcustomer.
      destruct (customerUpdatesDict !! cid); [reflexivity |].
      now rewrite lookup_insert_ne by exact Hcustomer.
  - intros c cu. destruct (decide (cid = c)) as [<- | Hne].
    + rewrite lookup_insert_eq. intros [= <-]. cbn [indexer.CustomerUpdates.CustomerID].
      destruct (customerUpdatesDict !! cid) as [old |] eqn:Hold.
      * rewrite Hold. cbn [default from_option id]. now apply Hids.
      * rewrite lookup_insert_eq. reflexivity.
    + rewrite lookup_insert_ne by exact Hne. apply Hid.
Qed.

Lemma convert_customer (abiJobs : list indexer.AbiJob.t) (customer address selector : string) :
  abi_of (fold_left indexer.convertRound abiJobs (∅, ∅)).1 customer address selector =
    entry_of <$>
      last (List.filter
              (fun abiJob =>
                 String.eqb (indexer.AbiJob.CustomerID abiJob) customer &&
                 String.eqb (address_key abiJob) address &&
                 String.eqb (indexer.AbiJob.AbiSelector abiJob) selector) abiJobs) /\
  (forall c cu,
     (fold_left indexer.convertRound abiJobs (∅, ∅)).1 !! c = Some cu ->
     indexer.CustomerUpdates.CustomerID cu = c).
Proof.
  induction abiJobs as [| abiJob abiJobs [IHabi IHids]] using rev_ind.
  - split; [reflexivity |]. intros c cu. simpl. now rewrite lookup_empty.
  - rewrite fold_left_app, List.filter_app. cbn [fold_left List.filter].
    destruct (fold_left indexer.convertRound abiJobs (∅, ∅))
      as [customerUpdatesDict addressDeployBlockDict].
    cbn [fst] in IHabi, IHids.
    destruct (convertRound_customer customerUpdatesDict addressDeployBlockDict abiJob
                customer address selector IHids) as [Habi Hids].
    split; [| exact Hids].
    rewrite Habi. destruct (_ && _).
    + now rewrite last_snoc.
    + now rewrite app_nil_r.
Qed.

(** X19. The second dictionary of
    [ConvertToCustomerUpdatedAndDeployBlockDicts] has an entry for the
    address text of every job and for no other key: it lists the
    identifiers of all the jobs of that address in their order, and its
    deployment block is the one of the first of these jobs, 1 when that job
    has none, whatever the later jobs of the address say. No error is
    returned. *)
Theorem ConvertToCustomerUpdatedAndDeployBlockDicts_deploy_info
    (abiJobs : list indexer.AbiJob.t) (address : string) :
  (indexer.ConvertToCustomerUpdatedAndDeployBlockDicts abiJobs).2 = None /\
  (indexer.ConvertToCustomerUpdatedAndDeployBlockDicts abiJobs).1.2 !! address =
    match List.filter (fun abiJob => String.eqb (address_key abiJob) address) abiJobs with
    | [] => None
    | first :: group =>
        Some {| indexer.AbiJobsDeployInfo.DeployedBlockNumber :=
                  default 1 (indexer.AbiJob.DeploymentBlockNumber first);
                indexer.AbiJobsDeployInfo.IDs := map indexer.AbiJob.ID (first :: group) |}
    end.
Proof.
  unfold indexer.ConvertToCustomerUpdatedAndDeployBlockDicts.
  destruct abiJobs as [| abiJob abiJobs]; [split; reflexivity |].
  change (Z.of_nat (length (abiJob :: abiJobs)) =? 0) with false. cbv iota.
  pose proof (convert_deploy (abiJob :: abiJobs) address) as Hdeploy.
  destruct (fold_left indexer.convertRound (abiJob :: abiJobs) (∅, ∅))
    as [customerUpdatesDict addressDeployBlockDict].
  split; [reflexivity | exact Hdeploy].
Qed.

(** X20. In the first dictionary of
    [ConvertToCustomerUpdatedAndDeployBlockDicts] every customer is filed
    under its own identifier, and the entry of a customer under an address
    and a selector is the ABI text, name and type of the last of its jobs
    with that address and selector; there is none without such a job. *)
Theorem ConvertToCustomerUpdatedAndDeployBlockDicts_last_job_wins
    (abiJobs : list indexer.AbiJob.t) (customer address selector : string) :
  abi_of (indexer.ConvertToCustomerUpdatedAndDeployBlockDicts abiJobs).1.1
    customer address selector =
    entry_of <$>
      last (List.filter
              (fun abiJob =>
                 String.eqb (indexer.AbiJob.CustomerID abiJob) customer &&
                 String.eqb (address_key abiJob) address &&
                 String.eqb (indexer.AbiJob.AbiSelector abiJob) selector) abiJobs) /\
  (forall (c : string) (customerUpdate : indexer.CustomerUpdates.t),
     (indexer.ConvertToCustomerUpdatedAndDeployBlockDicts abiJobs).1.1 !! c =
       Some customerUpdate ->
     indexer.CustomerUpdates.CustomerID customerUpdate = c).
Proof.
  unfold indexer.ConvertToCustomerUpdatedAndDeployBlockDicts.
  destruct abiJobs as [| abiJob abiJobs].
  { split; [reflexivity |]. intros c cu. simpl. now rewrite lookup_empty. }
  change (Z.of_nat (length (abiJob :: abiJobs)) =? 0) with false. cbv iota.
  pose proof (convert_customer (abiJob :: abiJobs) customer address selector) as Hcustomer.
  destruct (fold_left indexer.convertRound (abiJob :: abiJobs) (∅, ∅))
    as [customerUpdatesDict addressDeployBlockDict].
  exact Hcustomer.
Qed.

(** X21. The address texts that
    [ConvertToCustomerUpdatedAndDeployBlockDicts] uses as keys are read
    back by [decodeAddress]: for a job whose address is made of bytes, the
    key decodes without error to the address, and the entry under the key
    lists the job. *)
Theorem address_key_decodes (abiJobs : list indexer.AbiJob.t) (abiJob : indexer.AbiJob.t)
    (Hjob : In abiJob abiJobs)
    (Hbytes : Forall (fun v => 0 <= v <= 255) (indexer.AbiJob.Address abiJob)) :
  indexer.decodeAddress (address_key abiJob) = (indexer.AbiJob.Address abiJob, None) /\
  exists deployInfo : indexer.AbiJobsDeployInfo.t,
    (indexer.ConvertToCustomerUpdatedAndDeployBlockDicts abiJobs).1.2 !!
      address_key abiJob = Some deployInfo /\
    In (indexer.AbiJob.ID abiJob) (indexer.AbiJobsDeployInfo.IDs deployInfo).
Proof.
  split.
  - unfold indexer.decodeAddress, address_key, len.
    change ("0x" ++ ?t) with (String "0"%char (String "x"%char t)).
    cbn [String.length slice_from].
    destruct (Z.ltb_spec (Z.of_nat (S (S (String.length
                (hex.EncodeToString (indexer.AbiJob.Address abiJob)))))) 2); [lia |].
    now apply DecodeString_EncodeToString.
  - unfold indexer.ConvertToCustomerUpdatedAndDeployBlockDicts.
    destruct abiJobs as [| first rest]; [destruct Hjob |].
    change (Z.of_nat (length (first :: rest)) =? 0) with false. cbv iota.
    pose proof (convert_deploy (first :: rest) (address_key abiJob)) as Hdeploy.
    destruct (fold_left indexer.convertRound (first :: rest) (∅, ∅))
      as [customerUpdatesDict addressDeployBlockDict].
    cbn [fst snd] in Hdeploy |- *. rewrite Hdeploy.
    assert (Hin : In abiJob
                    (List.filter (fun job => String.eqb (address_key job) (address_key abiJob))
                       (first :: rest))).
    { apply filter_In. split; [exact Hjob | apply String.eqb_refl]. }
    destruct (List.filter _ (first :: rest)) as [| head group]; [destruct Hin |].
    eexists. split; [reflexivity |].
    cbn [indexer.AbiJobsDeployInfo.IDs]. now apply in_map.
Qed.

Lemma address_key_decodes_witness :
  indexer.decodeAddress (address_key (job_with_id "a")) = ([10; 27], None).
Proof.
  refine (proj1 (address_key_decodes [job_with_id "a"] (job_with_id "a") _ _)).
  - now left.
  - repeat constructor; lia.
Defined.

(** ** The multi-table write when a raw transaction does not parse *)

Section PartialCommitProperties.
Context `{Fmt} `{indexer.PostgreSQLpgx}.
Hypothesis Hexec : forall statement : indexer.Statement, indexer.tx_Exec statement = None.

Lemma executeBatchInsert_accepted (tx : indexer.Tx) (tableName : string)
    (columns : list string) (values : gmap string indexer.UnnestInsertValueStruct)
    (conflictClause : string) :
  (indexer.executeBatchInsert tx tableName columns values conflictClause).2 = None.
Proof. unfold indexer.executeBatchInsert. now rewrite Hexec. Qed.

Lemma WriteTransactions_accepted (tx : indexer.Tx) (blockchain : string)
    (transactions : list indexer.TransactionLabel.t) :
  (indexer.WriteTransactions tx blockchain transactions).2 = None.
Proof.
  unfold indexer.WriteTransactions. cbv zeta.
  destruct (fold_left _ _ _) as [valuesMap tx']. apply executeBatchInsert_accepted.
Qed.

Lemma WriteEvents_accepted (tx : indexer.Tx) (blockchain : string)
    (events : list indexer.EventLabel.t) :
  (indexer.WriteEvents tx blockchain events).2 = None.
Proof.
  unfold indexer.WriteEvents. cbv zeta.
  destruct (fold_left _ _ _) as [valuesMap tx']. apply executeBatchInsert_accepted.
Qed.

End PartialCommitProperties.

Lemma WriteRawTransactions_unwritable `{Fmt} `{indexer.PostgreSQLpgx} (tx : indexer.Tx)
    (blockchain : string) (rawTransactions : list indexer.RawTransaction.t) :
  forallb writable_raw rawTransactions = false ->
  exists err : error,
    indexer.WriteRawTransactions tx blockchain rawTransactions = (tx, Some err).
Proof.
  intros Hwritable. unfold indexer.WriteRawTransactions. cbv beta iota zeta.
  match goal with
  | |- context [indexer.appendRawTransactions ?f ?v ?l] =>
      pose proof (appendRawTransactions_writable f l v) as Hloop
  end.
  rewrite Hwritable in Hloop. destruct Hloop as (err & valuesMap' & ->).
  exists err. reflexivity.
Qed.

(** X22. On a server that accepts everything, a call of
    [WriteDataToCustomerDB] with a raw transaction that cannot be turned into
    a row returns the error of that transaction and still commits what it
    wrote before: the database has gained the insert of the transaction
    labels and the insert of the events, each when its input is not
    empty. *)
Theorem WriteDataToCustomerDB_partial_commit (F : Fmt) (P : indexer.PostgreSQLpgx)
    (database : list indexer.Statement) (blockchain : string)
    (txCalls : list indexer.TransactionLabel.t) (events : list indexer.EventLabel.t)
    (rawTransactions : list indexer.RawTransaction.t)
    (Hacquire : indexer.pool_Acquire = None) (Hbegin : indexer.conn_Begin = None)
    (Hexec : forall statement : indexer.Statement, indexer.tx_Exec statement = None)
    (Hcommit : indexer.commit_fault = None)
    (Hraw : forallb writable_raw rawTransactions = false) :
  exists (err : error) (labelled emitted : list indexer.Statement),
    indexer.WriteDataToCustomerDB database blockchain txCalls events rawTransactions =
      (indexer.Returned (Some err), (database ++ labelled ++ emitted)%list) /\
    batch (length txCalls) (length (List.filter writable_label txCalls)) 12 labelled /\
    batch (length events) (length (List.filter writable_event events)) 13 emitted.
Proof.
  unfold indexer.WriteDataToCustomerDB. rewrite Hacquire, Hbegin. cbv zeta.
  unfold indexer.writeDataBody. cbv zeta.
  match goal with
  | |- context [if 0 <? Z.of_nat (length txCalls) then indexer.WriteTransactions ?t _ _ else _] =>
      destruct (written_transactions t blockchain txCalls) as (labelled & Hl & _ & Hlbatch);
      assert (Hlnone : (if 0 <? Z.of_nat (length txCalls)
                        then indexer.WriteTransactions t blockchain txCalls
                        else (t, None)).2 = None)
        by (destruct (0 <? _); [now apply WriteTransactions_accepted | reflexivity])
  end.
  destruct (if 0 <? Z.of_nat (length txCalls) then _ else _) as [tx1 result1].
  simpl in Hl, Hlbatch, Hlnone. subst result1. destruct Hlbatch as [Hlfailed Hlbatch].
  destruct (written_events tx1 blockchain events) as (emitted & He & _ & Hebatch).
  assert (Henone : (if 0 <? Z.of_nat (length events)
                    then indexer.WriteEvents tx1 blockchain events
                    else (tx1, None)).2 = None)
    by (destruct (0 <? _); [now apply WriteEvents_accepted | reflexivity]).
  destruct (if 0 <? Z.of_nat (length events) then _ else _) as [tx2 result2].
  simpl in He, Hebatch, Henone. subst result2. destruct Hebatch as [Hefailed Hebatch].
  destruct rawTransactions as [| rawTransaction rawTransactions]; [discriminate |].
  change (0 <? Z.of_nat (length (rawTransaction :: rawTransactions))) with true. cbv iota.
  destruct (WriteRawTransactions_unwritable tx2 blockchain (rawTransaction :: rawTransactions)
              Hraw) as [err ->].
  unfold indexer.Commit. rewrite Hefailed, Hlfailed, Hcommit. cbn [indexer.failed].
  exists err, labelled, emitted. rewrite He, Hl. cbn [indexer.executed app].
  auto.
Qed.

Lemma WriteDataToCustomerDB_partial_commit_witness :
  exists (err : error) (labelled emitted : list indexer.Statement),
    @indexer.WriteDataToCustomerDB copy_fmt healthy_database [] "ethereum"
      [transfer_label] [] [raw_with_gas "0xzz"] =
      (indexer.Returned (Some err), ([] ++ labelled ++ emitted)%list) /\
    @batch healthy_database 1 1 12 labelled /\
    @batch healthy_database 0 0 13 emitted.
Proof.
  apply (WriteDataToCustomerDB_partial_commit copy_fmt healthy_database [] "ethereum"
           [transfer_label] [] [raw_with_gas "0xzz"]); reflexivity.
Defined.

(** ** The labels of the decoder *)

Section DecoderLabelProperties.
Context `{evm.Client}.

Lemma labelTransaction_block_labels (b : evm.MantleBlock.t) (tx : evm.MantleTransaction.t)
    (selector : string) (w : evm.worker) :
  In tx (evm.MantleBlock.Transactions b) ->
  block_labels b w -> block_labels b (worker_of (evm.labelTransaction b tx selector w)).
Proof.
  intros Hin [Hcalls Hevents]. unfold evm.labelTransaction.
  assert (Hnew : forall (label : string) (name data : string),
            label = indexer.SeerCrawlerLabel \/ label = indexer.SeerCrawlerRawLabel ->
            Forall (calls_of [b])
              (evm.localTxLabels w ++
               [{| indexer.TransactionLabel.Address := evm.MantleTransaction.ToAddress tx;
                   indexer.TransactionLabel.BlockNumber := evm.MantleTransaction.BlockNumber tx;
                   indexer.TransactionLabel.BlockHash := evm.MantleTransaction.BlockHash tx;
                   indexer.TransactionLabel.CallerAddress := evm.MantleTransaction.FromAddress tx;
                   indexer.TransactionLabel.LabelName := name;
                   indexer.TransactionLabel.LabelType := "tx_call";
                   indexer.TransactionLabel.OriginAddress := evm.MantleTransaction.FromAddress tx;
                   indexer.TransactionLabel.Label := label;
                   indexer.TransactionLabel.TransactionHash := evm.MantleTransaction.Hash tx;
                   indexer.TransactionLabel.LabelData := data;
                   indexer.TransactionLabel.BlockTimestamp := evm.MantleBlock.Timestamp b |}])).
  { intros label name data Hlabel. apply Forall_app. split; [exact Hcalls |].
    constructor; [| constructor].
    exists b, tx. split; [now left |]. split; [exact Hin |].
    repeat split; try reflexivity. exact Hlabel. }
  destruct (evm.entryAt _ _ _) as [entry |]; [| split; assumption].
  destruct (evm.parseOnce entry) as [entry' [initErr |]]; [split; assumption |].
  destruct (evm.Abi entry') as [abi |]; [| split; assumption].
  destruct (hex.DecodeString _) as [inputData [err |]]; [split; assumption |].
  destruct (evm.DecodeTransactionInputDataToInterface _ _) as [args own];
    destruct (default own _) as [decodeErr |];
    destruct (evm.TransactionReceipt _) as [[Status |] [err |]];
    try (split; assumption).
  - destruct (evm.json_Marshal _) as [text [err |]]; [split; assumption |].
    split; [| exact Hevents]. apply Hnew. now right.
  - destruct args as [args |]; [| split; assumption].
    destruct (evm.json_Marshal _) as [text [err |]]; [split; assumption |].
    split; [| exact Hevents]. apply Hnew. now left.
Qed.

Lemma labelLog_block_labels (b : evm.MantleBlock.t) (tx : evm.MantleTransaction.t)
    (e : evm.MantleEventLog.t) (w : evm.worker) :
  In tx (evm.MantleBlock.Transactions b) -> In e (evm.MantleTransaction.Logs tx) ->
  block_labels b w -> block_labels b (worker_of (evm.labelLog b tx e w)).
Proof.
  intros Hin Hlog [Hcalls Hevents]. unfold evm.labelLog. cbv zeta.
  destruct (evm.entryAt _ _ _) as [entry |]; [| split; assumption].
  destruct (evm.parseOnce entry) as [entry' [initErr |]]; [split; assumption |].
  destruct (evm.Abi entry') as [abi |]; [| split; assumption].
  destruct (evm.DecodeLogArgsToLabelData _ _ _) as [args own];
    destruct (default own _) as [decodeErr |];
    destruct (evm.json_Marshal _) as [text [err |]]; try (split; assumption).
  - split; [exact Hcalls |]. apply Forall_app. split; [exact Hevents |].
    constructor; [| constructor].
    exists b, tx, e. split; [now left |]. split; [exact Hin |]. split; [exact Hlog |].
    repeat split; try reflexivity. now right.
  - split; [exact Hcalls |]. apply Forall_app. split; [exact Hevents |].
    constructor; [| constructor].
    exists b, tx, e. split; [now left |]. split; [exact Hin |]. split; [exact Hlog |].
    repeat split; try reflexivity. now left.
Qed.

Lemma labelLogs_block_labels (b : evm.MantleBlock.t) (tx : evm.MantleTransaction.t)
    (events : list evm.MantleEventLog.t) :
  In tx (evm.MantleBlock.Transactions b) ->
  (forall e : evm.MantleEventLog.t, In e events -> In e (evm.MantleTransaction.Logs tx)) ->
  forall w : evm.worker,
    block_labels b w -> block_labels b (worker_of (evm.labelLogs b tx events w)).
Proof.
  intros Hin. induction events as [| e rest IH]; intros Hevents w Hw; [exact Hw |].
  simpl.
  pose proof (labelLog_block_labels b tx e w Hin (Hevents e (or_introl eq_refl)) Hw) as Hlog.
  specialize (IH (fun e' He' => Hevents e' (or_intror He'))).
  destruct (evm.labelLog b tx e w) as [w' | w' | w' r]; simpl in Hlog;
    [apply IH | apply IH |]; exact Hlog.
Qed.

Lemma decodeTransaction_block_labels (addRawTransactions : bool) (b : evm.MantleBlock.t)
    (w : evm.worker) (tx : evm.MantleTransaction.t) :
  In tx (evm.MantleBlock.Transactions b) ->
  block_labels b w ->
  block_labels b (worker_of (evm.decodeTransaction addRawTransactions b w tx)).
Proof.
  intros Hin Hw. unfold evm.decodeTransaction. cbv zeta.
  match goal with
  | |- context [if addRawTransactions then ?kept else w] =>
      assert (Hkept : block_labels b (if addRawTransactions then kept else w))
        by (destruct addRawTransactions; exact Hw);
      generalize dependent (if addRawTransactions then kept else w)
  end.
  intros w0 Hw0.
  destruct (len _ <? 10); [exact Hw0 |].
  pose proof (labelTransaction_block_labels b tx
                (slice_to 10 (evm.MantleTransaction.Input tx)) w0 Hin Hw0) as Hcall.
  destruct (evm.labelTransaction _ _ _ _) as [w1 | w1 | w1 r]; simpl in Hcall;
    [| exact Hcall | exact Hcall].
  now apply labelLogs_block_labels.
Qed.

Lemma decodeTransactions_block_labels (addRawTransactions : bool) (b : evm.MantleBlock.t)
    (transactions : list evm.MantleTransaction.t) :
  (forall tx : evm.MantleTransaction.t,
     In tx transactions -> In tx (evm.MantleBlock.Transactions b)) ->
  forall w : evm.worker,
    block_labels b w ->
    block_labels b (worker_of (evm.decodeTransactions addRawTransactions b transactions w)).
Proof.
  induction transactions as [| tx rest IH]; intros Hin w Hw; [exact Hw |].
  simpl.
  pose proof (decodeTransaction_block_labels addRawTransactions b w tx
                (Hin tx (or_introl eq_refl)) Hw) as Htx.
  specialize (IH (fun tx' Hin' => Hin tx' (or_intror Hin'))).
  destruct (evm.decodeTransaction addRawTransactions b w tx) as [w' | w' | w' r];
    simpl in Htx; [apply IH | apply IH |]; exact Htx.
Qed.

Lemma calls_of_incl (ran Blocks : list evm.MantleBlock.t)
    (label : indexer.TransactionLabel.t) :
  (forall b : evm.MantleBlock.t, In b ran -> In b Blocks) ->
  calls_of ran label -> calls_of Blocks label.
Proof. intros Hincl (b & tx & Hb & Hrest). exists b, tx. auto. Qed.

Lemma events_of_incl (ran Blocks : list evm.MantleBlock.t) (label : indexer.EventLabel.t) :
  (forall b : evm.MantleBlock.t, In b ran -> In b Blocks) ->
  events_of ran label -> events_of Blocks label.
Proof. intros Hincl (b & tx & e & Hb & Hrest). exists b, tx, e. auto. Qed.

(** The labels the tasks hand over are labels of the blocks that ran. *)
Lemma decodeBlocks_labels
    (racing : evm.MantleTransaction.t -> option evm.MantleEventLog.t -> evm.race)
    (addRawTransactions : bool) (Blocks ran : list evm.MantleBlock.t) :
  (forall b : evm.MantleBlock.t, In b ran -> In b Blocks) ->
  forall s : evm.shared,
    Forall (calls_of Blocks) (evm.txLabels s) -> Forall (events_of Blocks) (evm.labels s) ->
    Forall (calls_of Blocks)
      (evm.txLabels (fold_left (evm.decodeBlock racing addRawTransactions) ran s)) /\
    Forall (events_of Blocks)
      (evm.labels (fold_left (evm.decodeBlock racing addRawTransactions) ran s)).
Proof.
  induction ran as [| b rest IH]; intros Hincl s Hcalls Hevents; [split; assumption |].
  assert (Hb : forall b' : evm.MantleBlock.t, In b' [b] -> In b' Blocks).
  { intros b' [<- | []]. apply Hincl. now left. }
  simpl. apply IH; [intros b' Hin; apply Hincl; now right | |];
    unfold evm.decodeBlock; cbv zeta;
    match goal with
    | |- context [evm.decodeTransactions ?a ?blk ?txs ?w] =>
        pose proof (decodeTransactions_block_labels a blk txs (fun tx Hin => Hin) w
                      (conj (List.Forall_nil _) (List.Forall_nil _))) as [Hlocal Hlocal'];
        destruct (evm.decodeTransactions a blk txs w) as [w' | w' | w' r]
    end; simpl in *; try assumption; apply Forall_app; (split; [assumption |]).
  all: eapply List.Forall_impl; try eassumption; intros label;
    first [apply calls_of_incl | apply events_of_incl]; exact Hb.
Qed.

End DecoderLabelProperties.

(** X23. Every label [DecodeProtoEntireBlockToLabels] returns is of a known
    kind and is made from a record of the batch. A transaction label has
    the type "tx_call", and there is a transaction of a block of the batch
    whose hash, receiver, block number and block hash it carries, whose
    sender is both its caller and its origin, and whose block gives it its
    time. An event label has the type "event", and there is a log of a
    transaction of a block of the batch whose transaction hash, address,
    block number, block hash and index it carries; its origin is the sender
    of that transaction, its time the time of that block, and it has no
    caller address, which [decodeAddress] reads without error as the single
    byte zero. Both kinds carry the label of the crawler or its raw label.
    A call that returns an error returns no label and no raw transaction. *)
Theorem DecodeProtoEntireBlockToLabels_label_kinds (C : evm.Client)
    (order : list evm.MantleBlock.t)
    (racing : evm.MantleTransaction.t -> option evm.MantleEventLog.t -> evm.race)
    (rawData : list Z) (abiMap : gmap string (gmap string evm.AbiEntry))
    (addRawTransactions : bool) (threads : Z)
    (labels : list indexer.EventLabel.t) (txLabels : list indexer.TransactionLabel.t)
    (rawTransactions : list indexer.RawTransaction.t) (err : option evm.decodeError)
    (Hreturn : evm.DecodeProtoEntireBlockToLabels order racing rawData abiMap
                 addRawTransactions threads =
                 evm.DecodeReturned labels txLabels rawTransactions err) :
  Forall decoder_event labels /\
  Forall decoder_call txLabels /\
  Forall (fun label =>
            indexer.decodeAddress (indexer.EventLabel.CallerAddress label) = ([0], None))
    labels /\
  (err <> None -> labels = [] /\ txLabels = [] /\ rawTransactions = []) /\
  (forall Blocks : list evm.MantleBlock.t,
     evm.proto_Unmarshal rawData = (Blocks, None) ->
     Permutation order Blocks ->
     Forall (calls_of Blocks) txLabels /\ Forall (events_of Blocks) labels).
Proof.
  assert (Hkinds : (forall Blocks : list evm.MantleBlock.t,
                      evm.proto_Unmarshal rawData = (Blocks, None) ->
                      Forall (calls_of (order ++ Blocks)) txLabels /\
                      Forall (events_of (order ++ Blocks)) labels) /\
                   (forall unmarshalErr : string,
                      (evm.proto_Unmarshal rawData).2 = Some unmarshalErr ->
                      labels = [] /\ txLabels = []) /\
                   (err <> None -> labels = [] /\ txLabels = [] /\ rawTransactions = [])).
  { revert Hreturn. unfold evm.DecodeProtoEntireBlockToLabels.
    destruct (evm.proto_Unmarshal rawData) as [Blocks [unmarshalErr |]].
    { intros [= <- <- <- <-]. repeat split; try constructor; discriminate. }
    destruct (threads <? 0); [discriminate |].
    destruct ((threads =? 0) && _); [discriminate |].
    cbv zeta.
    destruct ((1 <? threads) && _);
      match goal with
      | |- context [fold_left (evm.decodeBlock ?r addRawTransactions) ?ran ?s0] =>
          assert (Hincl : forall b : evm.MantleBlock.t, In b ran -> In b (order ++ Blocks))
            by (intros b Hin; apply in_or_app; auto);
          destruct (decodeBlocks_labels r addRawTransactions (order ++ Blocks) ran Hincl s0
                      (List.Forall_nil _) (List.Forall_nil _)) as [Hcalls Hevents];
          destruct (fold_left (evm.decodeBlock r addRawTransactions) ran s0)
            as [ls txs raws errs entries]
      end;
      simpl in Hevents, Hcalls |- *;
      (destruct (_ <? _); [discriminate |]);
      (destruct (0 <? _);
       [intros [= <- <- <- <-]; repeat split; try constructor; discriminate
       | intros [= <- <- <- <-]; (split; [| split]); [| discriminate | congruence];
         intros Blocks' [= <-]; split; assumption]). }
  destruct Hkinds as (Hmade & Hfailed & Herr).
  assert (Hevents : Forall decoder_event labels).
  { destruct (evm.proto_Unmarshal rawData) as [Blocks [unmarshalErr |]] eqn:Hbatch.
    - destruct (Hfailed unmarshalErr eq_refl) as [-> _]. constructor.
    - destruct (Hmade Blocks eq_refl) as [_ Hevents].
      eapply List.Forall_impl; [| exact Hevents].
      intros label (b & tx & e & _ & _ & _ & Hevent). apply Hevent. }
  assert (Hcalls : Forall decoder_call txLabels).
  { destruct (evm.proto_Unmarshal rawData) as [Blocks [unmarshalErr |]] eqn:Hbatch.
    - destruct (Hfailed unmarshalErr eq_refl) as [_ ->]. constructor.
    - destruct (Hmade Blocks eq_refl) as [Hcalls _].
      eapply List.Forall_impl; [| exact Hcalls].
      intros label (b & tx & _ & _ & Hcall). apply Hcall. }
  split; [exact Hevents |]. split; [exact Hcalls |]. split; [| split; [exact Herr |]].
  - eapply List.Forall_impl; [| exact Hevents].
    intros label (_ & _ & ->). reflexivity.
  - intros Blocks Hbatch Horder.
    destruct (Hmade Blocks Hbatch) as [Hcalls' Hevents'].
    assert (Hincl : forall b : evm.MantleBlock.t, In b (order ++ Blocks) -> In b Blocks).
    { intros b Hin. apply in_app_or in Hin as [Hin | Hin]; [| exact Hin].
      eapply Permutation_in; eassumption. }
    split; (eapply List.Forall_impl; [| eassumption]); intros label.
    + now apply calls_of_incl.
    + now apply events_of_incl.
Qed.

Lemma DecodeProtoEntireBlockToLabels_label_kinds_witness :
  Forall (calls_of [example_block "0xa9059cbb00"])
    [{| indexer.TransactionLabel.Address := "0xtoken";
        indexer.TransactionLabel.BlockNumber := 1;
        indexer.TransactionLabel.BlockHash := "0xbb";
        indexer.TransactionLabel.CallerAddress := "0x0b";
        indexer.TransactionLabel.LabelName := "transfer";
        indexer.TransactionLabel.LabelType := "tx_call";
        indexer.TransactionLabel.OriginAddress := "0x0b";
        indexer.TransactionLabel.Label := indexer.SeerCrawlerLabel;
        indexer.TransactionLabel.TransactionHash := "0xcc";
        indexer.TransactionLabel.LabelData := "{amount,status}";
        indexer.TransactionLabel.BlockTimestamp := 9 |}] /\
  Forall (events_of [example_block "0xa9059cbb00"])
    [{| indexer.EventLabel.Label := indexer.SeerCrawlerLabel;
        indexer.EventLabel.LabelName := "Transfer";
        indexer.EventLabel.LabelType := "event";
        indexer.EventLabel.BlockNumber := 1;
        indexer.EventLabel.BlockHash := "0xbb";
        indexer.EventLabel.Address := "0xtoken";
        indexer.EventLabel.CallerAddress := "";
        indexer.EventLabel.OriginAddress := "0x0b";
        indexer.EventLabel.TransactionHash := "0xcc";
        indexer.EventLabel.LabelData := "{value}";
        indexer.EventLabel.BlockTimestamp := 9;
        indexer.EventLabel.LogIndex := 7 |}].
Proof.
  refine (proj2 (proj2 (proj2 (proj2
            (DecodeProtoEntireBlockToLabels_label_kinds
               (example_client true (Some 1, None) [example_block "0xa9059cbb00"])
               [example_block "0xa9059cbb00"] (fun _ _ => evm.alone) []
               (token_abis _) false 4 _ _ [] None _))))
            [example_block "0xa9059cbb00"] eq_refl (Permutation_refl _)).
  vm_compute. reflexivity.
Defined.

(** ** The labels of a list of transactions *)

Section TransactionDecoderProperties.
Context `{evm.Client}.
Variable DecodeProtoTransactions : list string -> list evm.MantleTransaction.t * option string.
Variable decodeWithoutABI :
  list Z -> (option (gmap string evm.jvalue) * option string) + string.

Lemma labelTransactions_labels (blocksCache : gmap Z Z)
    (decodedTransactions : list evm.MantleTransaction.t) :
  forall (labels : list indexer.TransactionLabel.t)
         (abiMap : gmap string (gmap string evm.AbiEntry)),
    match (evm.labelTransactions decodeWithoutABI blocksCache decodedTransactions labels
             abiMap).1 with
    | evm.LabelsReturned labels' None =>
        exists new : list indexer.TransactionLabel.t,
          labels' = (labels ++ new)%list /\
          Forall2 (labels_transaction blocksCache) decodedTransactions new
    | evm.LabelsReturned labels' (Some _) => labels' = []
    | evm.LabelsPanicked _ => True
    end.
Proof.
  induction decodedTransactions as [| transaction rest IH]; intros labels abiMap.
  - simpl. exists []. rewrite app_nil_r. split; [reflexivity | constructor].
  - cbn [evm.labelTransactions]. cbv zeta.
    destruct (Z.ltb_spec (len (evm.MantleTransaction.Input transaction)) 10) as [| Hlong];
      [exact I |].
    destruct (evm.entryAt _ _ _) as [entry |]; [| exact I].
    assert (Hstep : forall (name data label : string)
                           (abiMap' : gmap string (gmap string evm.AbiEntry)),
              label = indexer.SeerCrawlerLabel \/ label = indexer.SeerCrawlerRawLabel ->
              match (evm.labelTransactions decodeWithoutABI blocksCache rest
                       (labels ++
                        [{| indexer.TransactionLabel.Address := evm.MantleTransaction.ToAddress transaction;
                            indexer.TransactionLabel.BlockNumber := evm.MantleTransaction.BlockNumber transaction;
                            indexer.TransactionLabel.BlockHash := evm.MantleTransaction.BlockHash transaction;
                            indexer.TransactionLabel.CallerAddress := evm.MantleTransaction.FromAddress transaction;
                            indexer.TransactionLabel.LabelName := name;
                            indexer.TransactionLabel.LabelType := "tx_call";
                            indexer.TransactionLabel.OriginAddress := evm.MantleTransaction.FromAddress transaction;
                            indexer.TransactionLabel.Label := label;
                            indexer.TransactionLabel.TransactionHash := evm.MantleTransaction.Hash transaction;
                            indexer.TransactionLabel.LabelData := data;
                            indexer.TransactionLabel.BlockTimestamp :=
                              default 0 (blocksCache !! evm.MantleTransaction.BlockNumber transaction) |}])
                       abiMap').1 with
              | evm.LabelsReturned labels' None =>
                  exists new : list indexer.TransactionLabel.t,
                    labels' = (labels ++ new)%list /\
                    Forall2 (labels_transaction blocksCache) (transaction :: rest) new
              | evm.LabelsReturned labels' (Some _) => labels' = []
              | evm.LabelsPanicked _ => True
              end).
    { intros name data label abiMap' Hlabel.
      match goal with
      | |- context [evm.labelTransactions _ _ rest (labels ++ [?l]) abiMap'] =>
          specialize (IH (labels ++ [l])%list abiMap');
          destruct (evm.labelTransactions _ _ rest (labels ++ [l]) abiMap').1
            as [labels' [err |] | r]; try exact IH;
          destruct IH as (new & -> & Hnew);
          exists (l :: new)
      end.
      rewrite <- app_assoc. split; [reflexivity |].
      constructor; [| exact Hnew].
      repeat split; try reflexivity; try lia. exact Hlabel. }
    destruct (evm.Abi entry) as [abi |] eqn:Habi.
    + rewrite Habi.
      destruct (hex.DecodeString _) as [inputData [err |]]; [reflexivity |].
      destruct (evm.DecodeTransactionInputDataToInterface abi inputData)
        as [args [decodeErr |]];
        destruct (evm.json_Marshal _) as [text [err |]]; try reflexivity;
        apply Hstep; auto.
    + destruct (evm.GetABI (evm.AbiJSON entry)) as [abi [err |]]; [reflexivity |].
      cbn [evm.Abi].
      destruct (hex.DecodeString _) as [inputData [err |]]; [reflexivity |].
      destruct abi as [abi |].
      * destruct (evm.DecodeTransactionInputDataToInterface abi inputData)
          as [args [decodeErr |]];
          destruct (evm.json_Marshal _) as [text [err |]]; try reflexivity;
          apply Hstep; auto.
      * destruct (decodeWithoutABI inputData) as [[args [decodeErr |]] | r]; [| | exact I];
          destruct (evm.json_Marshal _) as [text [err |]]; try reflexivity;
          apply Hstep; auto.
Qed.

End TransactionDecoderProperties.

Section TransactionDecoderRounds.
Context `{evm.Client}.
Variable decodeWithoutABI :
  list Z -> (option (gmap string evm.jvalue) * option string) + string.

(** The rounds of the transactions behind those of a first part run when
    the first part ends with its labels and no error, from the labels and
    the ABI map it leaves. *)
Lemma labelTransactions_app (blocksCache : gmap Z Z)
    (before after : list evm.MantleTransaction.t) :
  forall (labels : list indexer.TransactionLabel.t)
         (abiMap : gmap string (gmap string evm.AbiEntry)),
    evm.labelTransactions decodeWithoutABI blocksCache (before ++ after) labels abiMap =
      match evm.labelTransactions decodeWithoutABI blocksCache before labels abiMap with
      | (evm.LabelsReturned labels' None, abiMap') =>
          evm.labelTransactions decodeWithoutABI blocksCache after labels' abiMap'
      | ended => ended
      end.
Proof.
  induction before as [| transaction rest IH]; intros labels abiMap; [reflexivity |].
  cbn [app evm.labelTransactions]. cbv zeta.
  destruct (len (evm.MantleTransaction.Input transaction) <? 10); [reflexivity |].
  destruct (evm.entryAt _ _ _) as [entry |]; [| reflexivity].
  destruct (evm.Abi entry) as [abi |] eqn:Habi.
  - rewrite Habi.
    destruct (hex.DecodeString _) as [inputData [err |]]; [reflexivity |].
    destruct (evm.DecodeTransactionInputDataToInterface abi inputData)
      as [args [decodeErr |]];
      destruct (evm.json_Marshal _) as [text [err |]]; try reflexivity; apply IH.
  - destruct (evm.GetABI (evm.AbiJSON entry)) as [abi [err |]]; [reflexivity |].
    cbn [evm.Abi].
    destruct (hex.DecodeString _) as [inputData [err |]]; [reflexivity |].
    destruct abi as [abi |].
    + destruct (evm.DecodeTransactionInputDataToInterface abi inputData)
        as [args [decodeErr |]];
        destruct (evm.json_Marshal _) as [text [err |]]; try reflexivity; apply IH.
    + destruct (decodeWithoutABI inputData) as [[args [decodeErr |]] | r]; [| | reflexivity];
        destruct (evm.json_Marshal _) as [text [err |]]; try reflexivity; apply IH.
Qed.

End TransactionDecoderRounds.

(** X24. [DecodeProtoTransactionsToLabels] slices the input of every
    transaction and reads its ABI entry without a check. When the rounds of
    the transactions before one end with their labels and no error, the
    call panics at that one if its input has fewer than 10 bytes, which the
    decoder of whole blocks passes over as a plain transfer, and if its
    receiver has no entry under the selector in the ABI map those rounds
    leave; the values of the two panics are Go's runtime errors for a slice
    bound out of range and for a nil pointer. A call that returns no error
    returns one label for each transaction, in their order, with the hash,
    the addresses and the block number of the transaction and the time the
    cache has for that block, zero when it has none; a call that returns an
    error returns no label. *)
Theorem DecodeProtoTransactionsToLabels_labels (C : evm.Client)
    (DecodeProtoTransactions : list string -> list evm.MantleTransaction.t * option string)
    (decodeWithoutABI : list Z -> (option (gmap string evm.jvalue) * option string) + string)
    (transactions : list string) (blocksCache : gmap Z Z)
    (abiMap : gmap string (gmap string evm.AbiEntry)) :
  (forall (before : list evm.MantleTransaction.t) (transaction : evm.MantleTransaction.t)
          (rest : list evm.MantleTransaction.t)
          (labels : list indexer.TransactionLabel.t)
          (abiMap' : gmap string (gmap string evm.AbiEntry)),
     DecodeProtoTransactions transactions = ((before ++ transaction :: rest)%list, None) ->
     evm.labelTransactions decodeWithoutABI blocksCache before [] abiMap =
       (evm.LabelsReturned labels None, abiMap') ->
     (len (evm.MantleTransaction.Input transaction) < 10 ->
      evm.DecodeProtoTransactionsToLabels DecodeProtoTransactions decodeWithoutABI
        transactions blocksCache abiMap =
        (evm.LabelsPanicked
           ("runtime error: slice bounds out of range [:10] with length " ++
            Itoa (len (evm.MantleTransaction.Input transaction))),
         abiMap')) /\
     (10 <= len (evm.MantleTransaction.Input transaction) ->
      evm.entryAt abiMap' (evm.MantleTransaction.ToAddress transaction)
        (slice_to 10 (evm.MantleTransaction.Input transaction)) = None ->
      evm.DecodeProtoTransactionsToLabels DecodeProtoTransactions decodeWithoutABI
        transactions blocksCache abiMap =
        (evm.LabelsPanicked
           "runtime error: invalid memory address or nil pointer dereference",
         abiMap'))) /\
  (forall (labels : list indexer.TransactionLabel.t)
          (abiMap' : gmap string (gmap string evm.AbiEntry)),
     evm.DecodeProtoTransactionsToLabels DecodeProtoTransactions decodeWithoutABI
       transactions blocksCache abiMap = (evm.LabelsReturned labels None, abiMap') ->
     exists decodedTransactions : list evm.MantleTransaction.t,
       DecodeProtoTransactions transactions = (decodedTransactions, None) /\
       Forall2 (labels_transaction blocksCache) decodedTransactions labels) /\
  (forall (labels : list indexer.TransactionLabel.t) (err : string + error)
          (abiMap' : gmap string (gmap string evm.AbiEntry)),
     evm.DecodeProtoTransactionsToLabels DecodeProtoTransactions decodeWithoutABI
       transactions blocksCache abiMap = (evm.LabelsReturned labels (Some err), abiMap') ->
     labels = []).
Proof.
  unfold evm.DecodeProtoTransactionsToLabels. split; [| split].
  - intros before transaction rest labels abiMap' -> Hbefore.
    rewrite labelTransactions_app, Hbefore. cbn [evm.labelTransactions]. split.
    + intros Hshort.
      destruct (Z.ltb_spec (len (evm.MantleTransaction.Input transaction)) 10); [reflexivity | lia].
    + intros Hlong Hentry.
      destruct (Z.ltb_spec (len (evm.MantleTransaction.Input transaction)) 10); [lia |].
      cbv zeta. now rewrite Hentry.
  - intros labels abiMap'.
    destruct (DecodeProtoTransactions transactions) as [decodedTransactions [err |]];
      [discriminate |].
    pose proof (labelTransactions_labels decodeWithoutABI blocksCache decodedTransactions []
                  abiMap) as Hlabels.
    intros Hrun. rewrite Hrun in Hlabels. cbn [fst] in Hlabels.
    destruct Hlabels as (new & -> & Hnew). exists decodedTransactions. auto.
  - intros labels err abiMap'.
    destruct (DecodeProtoTransactions transactions) as [decodedTransactions [protoErr |]].
    { now intros [= <- _ _]. }
    pose proof (labelTransactions_labels decodeWithoutABI blocksCache decodedTransactions []
                  abiMap) as Hlabels.
    intros Hrun. rewrite Hrun in Hlabels. exact Hlabels.
Qed.

Lemma DecodeProtoTransactionsToLabels_labels_witness :
  (@evm.DecodeProtoTransactionsToLabels (example_client true (Some 1, None) [])
     (fun _ => ([token_transaction "0xa9059cbb00"; token_transaction "0x"], None))
     (fun _ => inr "unused") [] ∅ (token_abis _)).1 =
    evm.LabelsPanicked "runtime error: slice bounds out of range [:10] with length 2" /\
  (@evm.DecodeProtoTransactionsToLabels (example_client true (Some 1, None) [])
     (fun _ => ([token_transaction "0xa9059cbb00"; swap_transaction], None))
     (fun _ => inr "unused") [] ∅ (token_abis _)).1 =
    evm.LabelsPanicked "runtime error: invalid memory address or nil pointer dereference".
Proof.
  pose (run := @evm.labelTransactions (example_client true (Some 1, None) [])
                 (fun _ => inr "unused") ∅ [token_transaction "0xa9059cbb00"] []
                 (token_abis _)).
  assert (Hended : match run.1 with
                   | evm.LabelsReturned _ None => true
                   | _ => false
                   end = true) by (vm_compute; reflexivity).
  assert (Hrouter : match evm.entryAt run.2 "0xrouter" "0x38ed1739" with
                    | None => true
                    | Some _ => false
                    end = true) by (vm_compute; reflexivity).
  assert (Hrun : @evm.labelTransactions (example_client true (Some 1, None) [])
                   (fun _ => inr "unused") ∅ [token_transaction "0xa9059cbb00"] []
                   (token_abis _) = run) by reflexivity.
  clearbody run. destruct run as [[labels [err |] | r] abiMap']; try discriminate Hended.
  cbn [snd] in Hrouter.
  split.
  - destruct (DecodeProtoTransactionsToLabels_labels (example_client true (Some 1, None) [])
                (fun _ => ([token_transaction "0xa9059cbb00"; token_transaction "0x"], None))
                (fun _ => inr "unused") [] ∅ (token_abis _)) as (Hpanic & _).
    destruct (Hpanic [token_transaction "0xa9059cbb00"] (token_transaction "0x") []
                labels abiMap' eq_refl Hrun) as [Hshort _].
    rewrite Hshort; [reflexivity | vm_compute; reflexivity].
  - destruct (DecodeProtoTransactionsToLabels_labels (example_client true (Some 1, None) [])
                (fun _ => ([token_transaction "0xa9059cbb00"; swap_transaction], None))
                (fun _ => inr "unused") [] ∅ (token_abis _)) as (Hpanic & _).
    destruct (Hpanic [token_transaction "0xa9059cbb00"] swap_transaction []
                labels abiMap' eq_refl Hrun) as [_ Hentry].
    rewrite Hentry; [reflexivity | vm_compute; discriminate |].
    change (slice_to 10 (evm.MantleTransaction.Input swap_transaction)) with "0x38ed1739".
    change (evm.MantleTransaction.ToAddress swap_transaction) with "0xrouter".
    destruct (evm.entryAt abiMap' "0xrouter" "0x38ed1739"); [discriminate Hrouter | reflexivity].
Defined.

(** ** Creating ABI jobs from a file *)

Section CreateJobsProperties.
Context `{indexer.PostgreSQLpgx}.
Variable readAbi : string -> list indexer.AbiItem.t * option error.
Variable conn_Exec : indexer.CreatedJob.t -> option error.
Variables chain address customerID userID : string.
Variable deployBlock : Z.

Local Abbreviation createLoop :=
  (indexer.createLoop conn_Exec chain address customerID userID deployBlock).
Local Abbreviation created_from :=
  (created chain address customerID userID deployBlock).

(** Whatever the file holds, the rows the loop adds are rows the server
    accepted, each made from an object of the file. *)
Lemma createLoop_rows (abiJson : list indexer.AbiItem.t) :
  forall (database : list indexer.CreatedJob.t) (drawn : nat),
  exists (out : indexer.outcome) (rows : list indexer.CreatedJob.t),
    createLoop abiJson database drawn = (out, (database ++ rows)%list) /\
    Forall (fun job =>
              conn_Exec job = None /\
              exists abiJob : indexer.AbiItem.t, In abiJob abiJson /\ created_from abiJob job)
      rows.
Proof.
  induction abiJson as [| abiJob abiJson IH]; intros database drawn.
  - exists (indexer.Returned None), []. simpl. rewrite app_nil_r. split; [reflexivity | constructor].
  - assert (Hnone : forall out : indexer.outcome,
              exists (out' : indexer.outcome) (rows : list indexer.CreatedJob.t),
                (out, database) = (out', (database ++ rows)%list) /\
                Forall (fun job =>
                          conn_Exec job = None /\
                          exists item : indexer.AbiItem.t,
                            In item (abiJob :: abiJson) /\ created_from item job) rows).
    { intros out. exists out, []. rewrite app_nil_r. split; [reflexivity | constructor]. }
    assert (Hskip : forall drawn' : nat,
              exists (out' : indexer.outcome) (rows : list indexer.CreatedJob.t),
                createLoop abiJson database drawn' = (out', (database ++ rows)%list) /\
                Forall (fun job =>
                          conn_Exec job = None /\
                          exists item : indexer.AbiItem.t,
                            In item (abiJob :: abiJson) /\ created_from item job) rows).
    { intros drawn'. destruct (IH database drawn') as (out & rows & Hrun & Hrows).
      exists out, rows. split; [exact Hrun |].
      eapply List.Forall_impl; [| exact Hrows].
      intros job (Haccepted & item & Hin & Hcreated). split; [exact Haccepted |].
      exists item. split; [now right | exact Hcreated]. }
    cbn [indexer.createLoop]. cbv zeta.
    destruct (indexer.AbiItem.marshalErr abiJob) eqn:Hmarshal; [apply Hnone |].
    destruct (indexer.AbiItem.parseErr abiJob) eqn:Hparse; [apply Hnone |].
    assert (Hinsert : forall selector : string,
              selector =
                (if bool_decide (indexer.AbiItem.type_ abiJob = Some "event")
                 then indexer.AbiItem.Events_ID abiJob (default "" (indexer.AbiItem.name abiJob))
                 else "0x" ++ hex.EncodeToString
                                (indexer.AbiItem.Methods_ID abiJob
                                   (default "" (indexer.AbiItem.name abiJob)))) ->
              indexer.AbiItem.name abiJob <> None ->
              exists (out' : indexer.outcome) (rows : list indexer.CreatedJob.t),
                match indexer.decodeAddress address with
                | (_, Some _) => createLoop abiJson database (S drawn)
                | (addressBytes, None) =>
                    match conn_Exec
                            {| indexer.CreatedJob.row :=
                                 {| indexer.AbiJobRow.id := UUID drawn;
                                    indexer.AbiJobRow.address := addressBytes;
                                    indexer.AbiJobRow.user_id := userID;
                                    indexer.AbiJobRow.customer_id := customerID;
                                    indexer.AbiJobRow.abi_selector := selector;
                                    indexer.AbiJobRow.chain := chain;
                                    indexer.AbiJobRow.abi_name :=
                                      default "" (indexer.AbiItem.name abiJob);
                                    indexer.AbiJobRow.status := "true";
                                    indexer.AbiJobRow.historical_crawl_status := "pending";
                                    indexer.AbiJobRow.progress := 0;
                                    indexer.AbiJobRow.moonworm_task_pickedup := false;
                                    indexer.AbiJobRow.abi := indexer.AbiItem.marshalled abiJob |};
                               indexer.CreatedJob.deployment_block_number := deployBlock |} with
                    | Some err => (indexer.Returned (Some err), database)
                    | None =>
                        createLoop abiJson
                          (database ++
                           [{| indexer.CreatedJob.row :=
                                 {| indexer.AbiJobRow.id := UUID drawn;
                                    indexer.AbiJobRow.address := addressBytes;
                                    indexer.AbiJobRow.user_id := userID;
                                    indexer.AbiJobRow.customer_id := customerID;
                                    indexer.AbiJobRow.abi_selector := selector;
                                    indexer.AbiJobRow.chain := chain;
                                    indexer.AbiJobRow.abi_name :=
                                      default "" (indexer.AbiItem.name abiJob);
                                    indexer.AbiJobRow.status := "true";
                                    indexer.AbiJobRow.historical_crawl_status := "pending";
                                    indexer.AbiJobRow.progress := 0;
                                    indexer.AbiJobRow.moonworm_task_pickedup := false;
                                    indexer.AbiJobRow.abi := indexer.AbiItem.marshalled abiJob |};
                               indexer.CreatedJob.deployment_block_number := deployBlock |}])
                          (S drawn)
                    end
                end = (out', (database ++ rows)%list) /\
                Forall (fun job =>
                          conn_Exec job = None /\
                          exists item : indexer.AbiItem.t,
                            In item (abiJob :: abiJson) /\ created_from item job) rows).
    { intros selector Hselector Hname.
      destruct (indexer.decodeAddress address) as [addressBytes [err |]] eqn:Haddress;
        [apply Hskip |].
      match goal with
      | |- context [conn_Exec ?job] =>
          destruct (conn_Exec job) eqn:Haccepted; [apply Hnone |];
          destruct (IH (database ++ [job])%list (S drawn)) as (out & rows & Hrun & Hrows);
          exists out, (job :: rows)
      end.
      rewrite Hrun, <- app_assoc. split; [reflexivity |].
      constructor.
      - split; [exact Haccepted |]. exists abiJob. split; [now left |].
        unfold created. cbn. repeat split; try reflexivity; try exact Hselector;
          try exact Haddress.
        destruct (indexer.AbiItem.name abiJob); [reflexivity | contradiction].
      - eapply List.Forall_impl; [| exact Hrows].
        intros job (Hjob & item & Hin & Hcreated). split; [exact Hjob |].
        exists item. split; [now right | exact Hcreated]. }
    destruct (bool_decide (indexer.AbiItem.type_ abiJob = Some "event")) eqn:Hevent.
    + destruct (indexer.AbiItem.name abiJob) as [name |] eqn:Hname; [| apply Hnone].
      apply Hinsert; [reflexivity | discriminate].
    + destruct (bool_decide (indexer.AbiItem.type_ abiJob = Some "function")) eqn:Hfunction.
      * destruct (indexer.AbiItem.name abiJob) as [name |] eqn:Hname; [| apply Hnone].
        apply Hinsert; [reflexivity | discriminate].
      * apply Hskip.
Qed.

(** An object that can be inserted reaches the server. *)
Lemma createLoop_insertable (abiJob : indexer.AbiItem.t) (abiJson : list indexer.AbiItem.t)
    (database : list indexer.CreatedJob.t) (drawn : nat) :
  insertable abiJob ->
  decodable address = true ->
  exists job : indexer.CreatedJob.t,
    created_from abiJob job /\
    createLoop (abiJob :: abiJson) database drawn =
      match conn_Exec job with
      | Some err => (indexer.Returned (Some err), database)
      | None => createLoop abiJson (database ++ [job])%list (S drawn)
      end.
Proof.
  intros (Hmarshal & Hparse & Htype & Hname) Haddress.
  unfold decodable in Haddress.
  destruct (indexer.decodeAddress address) as [addressBytes [err |]] eqn:Hdecode;
    [discriminate |].
  destruct (indexer.AbiItem.name abiJob) as [name |] eqn:Hname'; [| contradiction].
  cbn [indexer.createLoop]. cbv zeta. rewrite Hmarshal, Hparse, Hname', Hdecode.
  destruct Htype as [Htype | Htype]; rewrite Htype.
  - rewrite bool_decide_eq_true_2 by reflexivity.
    eexists. split; [| reflexivity].
    unfold created. cbn. rewrite Hname', Htype, Hdecode.
    rewrite bool_decide_eq_true_2 by reflexivity. repeat split.
  - rewrite bool_decide_eq_false_2 by discriminate.
    rewrite bool_decide_eq_true_2 by reflexivity.
    eexists. split; [| reflexivity].
    unfold created. cbn. rewrite Hname', Htype, Hdecode.
    rewrite bool_decide_eq_false_2 by discriminate. repeat split.
Qed.

Lemma createLoop_accepted (before rest : list indexer.AbiItem.t) :
  Forall insertable before ->
  decodable address = true ->
  (forall (abiJob : indexer.AbiItem.t) (job : indexer.CreatedJob.t),
     In abiJob before -> created_from abiJob job -> conn_Exec job = None) ->
  forall (database : list indexer.CreatedJob.t) (drawn : nat),
  exists rows : list indexer.CreatedJob.t,
    Forall2 created_from before rows /\
    createLoop (before ++ rest) database drawn =
      createLoop rest (database ++ rows)%list (length before + drawn).
Proof.
  intros Hbefore Haddress.
  induction Hbefore as [| abiJob before Hitem Hbefore IH]; intros Haccepted database drawn.
  - exists []. rewrite app_nil_r. split; [constructor | reflexivity].
  - destruct (createLoop_insertable abiJob (before ++ rest) database drawn Hitem Haddress)
      as (job & Hcreated & Hstep).
    rewrite (Haccepted abiJob job (or_introl eq_refl) Hcreated) in Hstep.
    destruct (IH (fun item row Hin => Haccepted item row (or_intror Hin))
                (database ++ [job])%list (S drawn)) as (rows & Hrows & Hrun).
    exists (job :: rows). split; [now constructor |].
    cbn [app]. rewrite Hstep, Hrun, <- app_assoc. cbn [app length]. f_equal. lia.
Qed.

End CreateJobsProperties.

(** X25. [CreateJobsFromAbi] inserts on the connection, outside a
    transaction: however the call ends, the table afterwards is the old one
    followed by rows the server accepted, each made from an object of the
    file with the decoded address, the chain, customer, user and deployment
    block of the call, the name and the JSON text of the object, and the
    selector the parsed ABI gives its name; no row is added when the address
    does not decode. *)
Theorem CreateJobsFromAbi_rows (P : indexer.PostgreSQLpgx)
    (readAbi : string -> list indexer.AbiItem.t * option error)
    (conn_Exec : indexer.CreatedJob.t -> option error)
    (database : list indexer.CreatedJob.t)
    (chain address abiFile customerID userID : string) (deployBlock : Z) :
  exists (out : indexer.outcome) (rows : list indexer.CreatedJob.t),
    indexer.CreateJobsFromAbi readAbi conn_Exec database chain address abiFile customerID
      userID deployBlock = (out, (database ++ rows)%list) /\
    Forall (fun job =>
              conn_Exec job = None /\
              exists abiJob : indexer.AbiItem.t,
                In abiJob (readAbi abiFile).1 /\
                created chain address customerID userID deployBlock abiJob job) rows /\
    (decodable address = false -> rows = []).
Proof.
  unfold indexer.CreateJobsFromAbi.
  assert (Hnone : forall out : indexer.outcome,
            exists (out' : indexer.outcome) (rows : list indexer.CreatedJob.t),
              (out, database) = (out', (database ++ rows)%list) /\
              Forall (fun job =>
                        conn_Exec job = None /\
                        exists abiJob : indexer.AbiItem.t,
                          In abiJob (readAbi abiFile).1 /\
                          created chain address customerID userID deployBlock abiJob job)
                rows /\
              (decodable address = false -> rows = [])).
  { intros out. exists out, []. rewrite app_nil_r. repeat split. constructor. }
  destruct indexer.pool_Acquire; [apply Hnone |].
  destruct (readAbi abiFile) as [abiJson [err |]] eqn:Hread; [apply Hnone |].
  destruct (createLoop_rows conn_Exec chain address customerID userID deployBlock abiJson
              database 0) as (out & rows & Hrun & Hrows).
  exists out, rows. split; [exact Hrun |]. split; [exact Hrows |].
  intros Haddress. destruct rows as [| job rows]; [reflexivity |].
  inversion Hrows as [| ? ? (_ & item & _ & Hcreated & _) _]; subst.
  unfold decodable in Haddress. rewrite Hcreated in Haddress. discriminate.
Qed.

(** X26. [CreateJobsFromAbi] is not atomic. When the objects of the file up
    to one are inserted and the server refuses the row of that one, the call
    returns the error of the server and the rows of the objects before it
    stay in the table. *)
Theorem CreateJobsFromAbi_keeps_rows_before_error (P : indexer.PostgreSQLpgx)
    (readAbi : string -> list indexer.AbiItem.t * option error)
    (conn_Exec : indexer.CreatedJob.t -> option error)
    (database : list indexer.CreatedJob.t)
    (chain address abiFile customerID userID : string) (deployBlock : Z)
    (before after : list indexer.AbiItem.t) (refused : indexer.AbiItem.t) (execErr : error)
    (Hacquire : indexer.pool_Acquire = None)
    (Hread : readAbi abiFile = ((before ++ refused :: after)%list, None))
    (Hbefore : Forall insertable before)
    (Hrefused : insertable refused)
    (Haddress : decodable address = true)
    (Haccepted : forall (abiJob : indexer.AbiItem.t) (job : indexer.CreatedJob.t),
       In abiJob before ->
       created chain address customerID userID deployBlock abiJob job ->
       conn_Exec job = None)
    (Hexec : forall job : indexer.CreatedJob.t,
       created chain address customerID userID deployBlock refused job ->
       conn_Exec job = Some execErr) :
  exists rows : list indexer.CreatedJob.t,
    indexer.CreateJobsFromAbi readAbi conn_Exec database chain address abiFile customerID
      userID deployBlock = (indexer.Returned (Some execErr), (database ++ rows)%list) /\
    Forall2 (created chain address customerID userID deployBlock) before rows.
Proof.
  unfold indexer.CreateJobsFromAbi. rewrite Hacquire, Hread.
  destruct (createLoop_accepted conn_Exec chain address customerID userID deployBlock
              before (refused :: after) Hbefore Haddress Haccepted database 0)
    as (rows & Hrows & ->).
  destruct (createLoop_insertable conn_Exec chain address customerID userID deployBlock
              refused after (database ++ rows)%list (length before + 0) Hrefused Haddress)
    as (job & Hcreated & ->).
  rewrite (Hexec job Hcreated). exists rows. split; [reflexivity | exact Hrows].
Qed.

Lemma CreateJobsFromAbi_keeps_rows_before_error_witness :
  exists rows : list indexer.CreatedJob.t,
    @indexer.CreateJobsFromAbi healthy_database
      (fun _ => ([function_item "transfer"; function_item "approve"], None)) transfer_only
      [] "ethereum" "0x0a1b" "abi.json" "customer" "user" 5 =
      (indexer.Returned (Some (errorString "ERROR: value too long")), ([] ++ rows)%list) /\
    Forall2 (created "ethereum" "0x0a1b" "customer" "user" 5) [function_item "transfer"] rows.
Proof.
  apply (CreateJobsFromAbi_keeps_rows_before_error healthy_database
           (fun _ => ([function_item "transfer"; function_item "approve"], None))
           transfer_only [] "ethereum" "0x0a1b" "abi.json" "customer" "user" 5
           [function_item "transfer"] [] (function_item "approve")).
  - reflexivity.
  - reflexivity.
  - repeat constructor; discriminate.
  - repeat constructor; discriminate.
  - reflexivity.
  - intros abiJob job [<- | []] (_ & _ & _ & _ & Hname & _).
    unfold transfer_only. simpl in Hname. injection Hname as ->. reflexivity.
  - intros job (_ & _ & _ & _ & Hname & _).
    unfold transfer_only. simpl in Hname. injection Hname as ->. reflexivity.
Defined.
